(** * DiffDraft: the commit-message generation workflow of [sidebarProvider.ts]

    A shallow embedding of [SidebarProvider] (src/src/sidebarProvider.ts):
    key resolution, change selection, diff aggregation, the Groq call and
    its response handling, the commit step and the secret-store helpers.

    The editor host, the git extension, the secret storage and the HTTP
    endpoint are external: their answers are read from an environment
    record [Env]; a computation of the provider threads the [World] (the
    secret store, the SCM input box, the icon counter) and yields the list
    of calls it made to the outside, in program order. *)

From Stdlib Require Import ZArith NArith QArith.
From Stdlib Require Import Ascii String.
From stdpp Require Import base option list gmap strings pretty.

Local Open Scope Z_scope.
Set Warnings "-register-all".

(** ** JavaScript strings *)

Module JS.

(** A JavaScript string is a sequence of UTF-16 code units; a code unit
    is kept as its number. *)
Definition jsstring : Type := list N.

(** A literal of the source, all of whose characters are ASCII. *)
Definition lit (s : string) : jsstring :=
  N_of_ascii <$> list_ascii_of_string s.

(** WhiteSpace and LineTerminator code points of ECMAScript, the ones
    [String.prototype.trim] strips: TAB, LF, VT, FF, CR, SP, NBSP, the
    Unicode space separators, LS, PS and the BOM. *)
Definition is_white_space (c : N) : bool :=
  ((9 <=? c) && (c <=? 13) || (c =? 32) || (c =? 160) || (c =? 5760)
   || (8192 <=? c) && (c <=? 8202) || (c =? 8232) || (c =? 8233)
   || (c =? 8239) || (c =? 8287) || (c =? 12288) || (c =? 65279))%N.

Fixpoint trimStart (s : jsstring) : jsstring :=
  match s with
  | [] => []
  | c :: r => if is_white_space c then trimStart r else s
  end.

(** What is left of [s] once its trailing white space is gone. *)
Fixpoint trimEnd (s : jsstring) : jsstring :=
  match s with
  | [] => []
  | c :: r =>
      match trimEnd r with
      | [] => if is_white_space c then [] else [c]
      | t => c :: t
      end
  end.

(** [s.trim()] *)
Definition trim (s : jsstring) : jsstring := trimEnd (trimStart s).

(** ToBoolean on a string: only the empty string is falsy. *)
Definition truthy_str (s : jsstring) : bool :=
  match s with [] => false | _ => true end.

(** ToBoolean on [string | undefined]. *)
Definition truthy_ostr (o : option jsstring) : bool :=
  match o with Some s => truthy_str s | None => false end.

(** [s] has nothing but white space ([!s.trim()]). *)
Definition blank (s : jsstring) : bool := negb (truthy_str (trim s)).

(** ToString of an integral Number. *)
Definition num_to_string (z : Z) : jsstring := lit (pretty z).

End JS.
Export JS.

(** ** JSON values and the property reads of the source *)

Module Json.

(** What [response.json()] yields. Numbers are the integral ones. A
    JavaScript value that may be [undefined] is an [option json]. *)
Inductive json : Type :=
| JNull
| JBool (b : bool)
| JNum (z : Z)
| JStr (s : jsstring)
| JArr (items : list json)
| JObj (fields : list (jsstring * json)).

(** Own property [k] of a parsed object (its keys are distinct). *)
Fixpoint field (k : jsstring) (fields : list (jsstring * json)) : option json :=
  match fields with
  | [] => None
  | (k', v) :: r => if decide (k = k') then Some v else field k r
  end.

(** [v.k] on a value that is neither [null] nor [undefined], for the names
    the source reads (error, message, choices, content): none of them is
    found on a prototype, so only an object can have one. *)
Definition prop (k : jsstring) (v : json) : option json :=
  match v with
  | JObj fields => field k fields
  | _ => None
  end.

(** [v[0]] on a value that is neither [null] nor [undefined]. *)
Definition index0 (v : json) : option json :=
  match v with
  | JArr items => head items
  | JStr (c :: _) => Some (JStr [c])
  | JObj fields => field (lit "0") fields
  | _ => None
  end.

(** ToBoolean *)
Definition truthy (v : option json) : bool :=
  match v with
  | None | Some JNull => false
  | Some (JBool b) => b
  | Some (JNum z) => negb (z =? 0)
  | Some (JStr s) => truthy_str s
  | Some (JArr _) | Some (JObj _) => true
  end.

(** ToString; an array joins its elements with commas, [null] elements
    giving the empty string. *)
Fixpoint to_string (v : json) : jsstring :=
  match v with
  | JNull => lit "null"
  | JBool true => lit "true"
  | JBool false => lit "false"
  | JNum z => num_to_string z
  | JStr s => s
  | JArr items =>
      let elem (x : json) : jsstring :=
        match x with JNull => [] | _ => to_string x end in
      (fix join (l : list json) : jsstring :=
         match l with
         | [] => []
         | [x] => elem x
         | x :: r => elem x ++ lit "," ++ join r
         end) items
  | JObj _ => lit "[object Object]"
  end.

End Json.
Export Json.

(** ** The collaborators: exceptions, HTTP, git, events *)

Module Host.

Inductive exn_kind : Type := KError | KTypeError | KSyntaxError | KRejection.

(** A thrown value, or the reason of a rejected promise. It has a kind and
    a [message] property (absent on a rejection that is no Error); nothing
    else of it is ever read by the source. *)
Record js_exn : Type := Thrown {
  exn_kind_of : exn_kind;
  exn_message : option jsstring
}.

(** [new Error(message)] *)
Definition new_Error (message : jsstring) : js_exn :=
  Thrown KError (Some message).

(** A computation that returns or throws. *)
Definition result (A : Type) : Type := js_exn + A.

(** The [Response] of [fetch]: [ok] is true for a status in 200..299;
    [resp_json] is what [response.json()] settles to. *)
Record Response : Type := {
  status : Z;
  statusText : jsstring;
  resp_json : result json
}.

Definition ok (r : Response) : bool :=
  (200 <=? status r) && (status r <=? 299).

(** The request handed to [fetch]: method, url, the two headers and the
    three fields of the JSON body. *)
Record Request : Type := {
  req_method : jsstring;
  req_url : jsstring;
  req_content_type : jsstring;
  req_authorization : jsstring;
  req_model : jsstring;
  req_messages : list (jsstring * jsstring);
  req_temperature : Q
}.

(** git.d.ts: [Change] (only [uri.fsPath] is read). *)
Record Change : Type := { fsPath : jsstring }.

(** git.d.ts: [Repository], with [state.indexChanges] and
    [state.workingTreeChanges] as they are when the flow reads them. *)
Record Repository : Type := {
  indexChanges : list Change;
  workingTreeChanges : list Change;
  diffIndexWithHEAD : jsstring -> result jsstring;
  diffWithHEAD : jsstring -> result jsstring;
  commit : jsstring -> result unit
}.

(** The [vscode.git] extension as [getRepo] sees it. *)
Record GitExtension : Type := {
  isActive : bool;
  activate : result unit;
  repositories : list Repository
}.

(** Messages posted to the webview. *)
Inductive webview_message : Type :=
| MsgLoading
| MsgResult (value : jsstring)
| MsgError (value : jsstring)
| MsgSuccess.

(** Values given to [setContext]. *)
Inductive context_value : Type :=
| CtxBool (b : bool)
| CtxNum (z : Z).

(** Every call that leaves the provider, in program order. *)
Inductive event : Type :=
| EvShowErrorMessage (m : jsstring)
| EvShowWarningMessage (m : jsstring)
| EvShowInformationMessage (m : jsstring)
| EvShowInputBox
| EvPostMessage (m : webview_message)
| EvSetContext (key : jsstring) (v : context_value)
| EvSetTimeout (ms : Z) (key : jsstring) (v : context_value)
| EvActivateGit
| EvSecretsGet (name : jsstring)
| EvSecretsStore (name value : jsstring)
| EvConsoleError (m : jsstring)
| EvDiffIndexWithHEAD (path : jsstring)
| EvDiffWithHEAD (path : jsstring)
| EvFetch (req : Request)
| EvSetInputBox (value : jsstring)
| EvCommit (message : jsstring).

(** What the outside answers during one invocation. *)
Record Env : Type := {
  (** [process.env.OVERRIDE_MODEL_API_KEY] *)
  env_override : option jsstring;
  (** [vscode.extensions.getExtension("vscode.git")] *)
  env_git : option GitExtension;
  (** what the user types into [showInputBox] ([None]: dismissed) *)
  env_input : option jsstring;
  (** does [_secrets.get] / [_secrets.store] reject *)
  env_secrets_get_fails : bool;
  env_secrets_store_fails : bool;
  (** the HTTP endpoint *)
  env_fetch : Request -> result Response;
  (** is [_view] set (has [resolveWebviewView] run) *)
  env_view : bool
}.

(** What the provider can change. *)
Record World : Type := {
  secrets : gmap jsstring jsstring;
  inputBox_value : jsstring;
  iconIndex : Z
}.

End Host.
Export Host.

(** ** The provider *)

Module Provider.

(** *** State and trace threading

    A computation reads and changes the [World] and yields, besides its
    value, the calls it made, in order. *)

Definition M (A : Type) : Type := World -> A * World * list event.

#[global] Instance M_ret : MRet M :=
  fun A (a : A) (w : World) => (a, w, []).

#[global] Instance M_bind : MBind M :=
  fun A B (k : A -> M B) (m : M A) (w : World) =>
    let r := m w in
    let r' := k r.1.1 r.1.2 in
    (r'.1.1, r'.1.2, r.2 ++ r'.2).

Definition emit (ev : event) : M unit := fun w => (tt, w, [ev]).

Definition read_secret (name : jsstring) : M (option jsstring) := fun w =>
  (secrets w !! name, w, []).

Definition write_secret (name value : jsstring) : M unit := fun w =>
  (tt, {| secrets := <[name := value]> (secrets w);
          inputBox_value := inputBox_value w;
          iconIndex := iconIndex w |}, []).

Definition read_iconIndex : M Z := fun w => (iconIndex w, w, []).

Definition write_iconIndex (i : Z) : M unit := fun w =>
  (tt, {| secrets := secrets w; inputBox_value := inputBox_value w;
          iconIndex := i |}, []).

Definition write_inputBox (value : jsstring) : M unit := fun w =>
  (tt, {| secrets := secrets w; inputBox_value := value;
          iconIndex := iconIndex w |}, []).

(** The value a computation returns. *)
Definition eval {A : Type} (m : M A) (w : World) : A := (m w).1.1.

(** The world a computation ends in. *)
Definition exec {A : Type} (m : M A) (w : World) : World := (m w).1.2.

(** The calls a computation makes. *)
Definition calls {A : Type} (m : M A) (w : World) : list event := (m w).2.

(** *** Constants of the source *)

Definition nl : jsstring := [10%N].
Definition dq : jsstring := [34%N].

Definition API_KEY_SECRET_KEY : jsstring := lit "diffDraft.groqApiKey".

Definition model : jsstring := lit "openai/gpt-oss-120b".
Definition url : jsstring :=
  lit "https://api.groq.com/openai/v1/chat/completions".

Definition MSG_NO_GIT : jsstring := lit "Git extension not found.".
Definition MSG_ACTIVATE : jsstring := lit "Failed to activate Git extension.".
Definition MSG_NO_REPO : jsstring :=
  lit "No Git repository found. Please open a folder with a Git repository.".
Definition MSG_KEY_REQUIRED : jsstring :=
  lit "API key is required to generate commit message.".
Definition MSG_ENTER_KEY : jsstring := lit "Please enter a Groq API Key.".
Definition MSG_NO_CHANGES : jsstring :=
  lit "No changes detected (staged or working tree).".
Definition MSG_DIFF_READ : jsstring := lit "Error reading git diffs.".
Definition MSG_EMPTY_DIFF : jsstring :=
  lit "No text diff available. Changes may be binary files only.".
Definition MSG_GROQ_PREFIX : jsstring := lit "Groq API Error: ".
Definition MSG_UNKNOWN : jsstring := lit "Unknown error occurred.".
Definition MSG_API_ERROR : jsstring := lit "API returned an error.".
Definition MSG_EMPTY_RESPONSE : jsstring := lit "API returned empty response.".
Definition MSG_EMPTY_COMMIT : jsstring := lit "Commit message cannot be empty.".
Definition MSG_NOTHING_STAGED : jsstring :=
  lit "No staged changes to commit. Please stage your changes first.".
Definition MSG_COMMITTED : jsstring := lit "Commit successful!".
Definition MSG_COMMIT_PREFIX : jsstring := lit "Commit failed: ".
Definition MSG_STORE_FAILED : jsstring := lit "Failed to store API key:".

Definition CTX_GENERATING : jsstring := lit "diffDraft.isGenerating".
Definition CTX_ICON : jsstring := lit "diffDraft.generatingIcon".
Definition CTX_SUCCESS : jsstring := lit "diffDraft.isSuccess".

(** The lines of the prompt template of [callGroq] before [${diff}]. *)
Definition prompt_lines : list jsstring :=
  [ lit "      You are a senior software architect. Analyze the FOLLOWING code changes deeply and generate a professional Git commit message.";
    [];
    lit "      GOAL: Provide a readable, insightful, and sufficiently descriptive commit message. ";
    [];
    lit "      INSTRUCTIONS:";
    lit "      - Use " ++ dq ++ lit "Conventional Commits" ++ dq ++ lit " (<type>(<scope>): <subject>).";
    lit "      - Types: feat, fix, refactor, chore, docs, style, test, ci, build.";
    lit "      - Scope: The scope of the change (e.g., " ++ dq ++ lit "lang" ++ dq ++ lit ", " ++ dq ++ lit "navbar" ++ dq ++ lit ", " ++ dq ++ lit "profile" ++ dq ++ lit ", " ++ dq ++ lit "auth" ++ dq ++ lit ").";
    lit "      - Subject: Summarize the change clearly. Do not over-summarize; provide enough context to understand WHAT changed and WHY.";
    lit "      - Body (Optional): If the changes are significant, add a short body (1-2 sentences) after a blank line. Use bullet points for lists.";
    lit "      - Output: Return ONLY raw text. No markdown, no backticks, no meta-explanation.";
    [];
    lit "      CHANGES TO ANALYZE:" ].

Definition prompt (diff : jsstring) : jsstring :=
  concat ((fun l => nl ++ l) <$> prompt_lines)
  ++ nl ++ lit "      " ++ diff ++ nl ++ lit "    ".

(** The argument of [fetch] in [callGroq]. *)
Definition request (apiKey diff : jsstring) : Request :=
  {| req_method := lit "POST";
     req_url := url;
     req_content_type := lit "application/json";
     req_authorization := lit "Bearer " ++ apiKey;
     req_model := model;
     req_messages := [(lit "user", prompt diff)];
     req_temperature := 5 # 10 |}.

(** V8's wording of the two TypeErrors the response handling can raise. *)
Definition TYPE_ERROR_NULL : js_exn :=
  Thrown KTypeError
    (Some (lit "Cannot read properties of null (reading 'error')")).
Definition TYPE_ERROR_TRIM : js_exn :=
  Thrown KTypeError
    (Some (lit "data.choices?.[0]?.message?.content?.trim is not a function")).

(** *** Lines 40-69: [getRepo] *)

Definition getRepo (e : Env) : M (option Repository) :=
  match env_git e with
  | None => emit (EvShowErrorMessage MSG_NO_GIT);; mret None
  | Some gitExtension =>
      activated ←
        (if isActive gitExtension then mret true
         else
           emit EvActivateGit;;
           match activate gitExtension with
           | inl _ => emit (EvShowErrorMessage MSG_ACTIVATE);; mret false
           | inr _ => mret true
           end);
      if activated : bool then
        match repositories gitExtension with
        | [] => emit (EvShowErrorMessage MSG_NO_REPO);; mret None
        | repo :: _ => mret (Some repo)
        end
      else mret None
  end.

(** *** Lines 103-110: [getStoredApiKey]

    [key?.trim() || undefined], and [undefined] when the read rejects. *)
Definition getStoredApiKey (e : Env) : M (option jsstring) :=
  emit (EvSecretsGet API_KEY_SECRET_KEY);;
  if env_secrets_get_fails e then mret None
  else
    key ← read_secret API_KEY_SECRET_KEY;
    mret (match key with
          | Some k => if truthy_str (trim k) then Some (trim k) else None
          | None => None
          end).

(** *** Lines 112-121: [storeApiKey] *)
Definition storeApiKey (e : Env) (key : jsstring) : M unit :=
  let trimmedKey := trim key in
  if truthy_str trimmedKey then
    emit (EvSecretsStore API_KEY_SECRET_KEY trimmedKey);;
    if env_secrets_store_fails e then emit (EvConsoleError MSG_STORE_FAILED)
    else write_secret API_KEY_SECRET_KEY trimmedKey
  else mret tt.

(** *** Lines 350-376: the response handling of [callGroq] *)

(** [errorData.error?.message] and [data.error]: reading [.error] off
    [null] throws. *)
Definition read_error (data : json) : result (option json) :=
  match data with
  | JNull => inl TYPE_ERROR_NULL
  | _ => inr (prop (lit "error") data)
  end.

(** [v?.message], [v?.content], ... *)
Definition opt_prop (k : jsstring) (v : option json) : option json :=
  match v with
  | None | Some JNull => None
  | Some x => prop k x
  end.

(** [v?.[0]] *)
Definition opt_index0 (v : option json) : option json :=
  match v with
  | None | Some JNull => None
  | Some x => index0 x
  end.

(** [v?.trim()]: [undefined] on [null] and [undefined], the trimmed string
    on a string, a TypeError on anything else (no [trim] to call). *)
Definition opt_trim (v : option json) : result (option jsstring) :=
  match v with
  | None | Some JNull => inr None
  | Some (JStr s) => inr (Some (trim s))
  | Some _ => inl TYPE_ERROR_TRIM
  end.

(** [x || fallback] as the argument of [new Error]. *)
Definition message_or (x : option json) (fallback : jsstring) : jsstring :=
  match x with
  | Some v => if truthy x then to_string v else fallback
  | None => fallback
  end.

Definition handleResponse (response : Response) : result jsstring :=
  if negb (ok response) then
    let errorMessage :=
      lit "HTTP " ++ num_to_string (status response) ++ lit ": "
      ++ statusText response in
    let errorMessage :=
      match resp_json response with
      | inl _ => errorMessage
      | inr errorData =>
          match read_error errorData with
          | inl _ => errorMessage
          | inr err =>
              message_or (opt_prop (lit "message") err) errorMessage
          end
      end in
    inl (new_Error errorMessage)
  else
    match resp_json response with
    | inl ex => inl ex
    | inr data =>
        match read_error data with
        | inl ex => inl ex
        | inr err =>
            if truthy err then
              inl (new_Error
                     (message_or (opt_prop (lit "message") err) MSG_API_ERROR))
            else
              match
                opt_trim
                  (opt_prop (lit "content")
                     (opt_prop (lit "message")
                        (opt_index0 (prop (lit "choices") data))))
              with
              | inl ex => inl ex
              | inr content =>
                  if negb (truthy_ostr content)
                  then inl (new_Error MSG_EMPTY_RESPONSE)
                  else inr (default [] content)
              end
        end
    end.

(** *** Lines 316-376: [callGroq] *)
Definition callGroq (e : Env) (apiKey diff : jsstring) : M (result jsstring) :=
  let req := request apiKey diff in
  emit (EvFetch req);;
  match env_fetch e req with
  | inl ex => mret (inl ex)
  | inr response => mret (handleResponse response)
  end.

(** *** Lines 129-136 and 255-263: the change set of an invocation

    [(changes, isStaged)] after the two assignments. *)
Definition selectChanges (repo : Repository) : list Change * bool :=
  let changes := indexChanges repo in
  let isStaged := true in
  if (length changes =? 0)%nat
  then (workingTreeChanges repo, false)
  else (changes, isStaged).

(** *** Lines 164-171 and 276-285: the loop that collects the diffs

    [fullDiff] is the text gathered so far; a rejected diff leaves the
    loop (to the [catch] of the caller). *)
Definition fetchDiff (repo : Repository) (isStaged : bool) (path : jsstring)
  : M (result jsstring) :=
  if isStaged
  then emit (EvDiffIndexWithHEAD path);; mret (diffIndexWithHEAD repo path)
  else emit (EvDiffWithHEAD path);; mret (diffWithHEAD repo path).

Definition fileSection (path diff : jsstring) : jsstring :=
  nl ++ lit "--- File: " ++ path ++ lit " ---" ++ nl ++ diff.

Fixpoint collectDiffs (repo : Repository) (isStaged : bool)
    (changes : list Change) (fullDiff : jsstring) : M (result jsstring) :=
  match changes with
  | [] => mret (inr fullDiff)
  | change :: rest =>
      d ← fetchDiff repo isStaged (fsPath change);
      match d with
      | inl ex => mret (inl ex)
      | inr diff =>
          collectDiffs repo isStaged rest
            (fullDiff ++ fileSection (fsPath change) diff)
      end
  end.

Definition setContext (key : jsstring) (v : context_value) : M unit :=
  emit (EvSetContext key v).

(** [error.message || "Unknown error occurred."] *)
Definition message_of (ex : js_exn) : jsstring :=
  match exn_message ex with
  | Some m => if truthy_str m then m else MSG_UNKNOWN
  | None => MSG_UNKNOWN
  end.

(** *** Lines 123-236: [generateCommitMessageWithKey] (toolbar flow) *)

(** Lines 177-221: from the empty-diff test to the end of the inner [try]. *)
Definition sendDiffForSCM (e : Env) (apiKey fullDiff : jsstring) : M unit :=
  if negb (truthy_str (trim fullDiff)) then
    emit (EvShowErrorMessage MSG_EMPTY_DIFF)
  else
    r ← callGroq e apiKey fullDiff;
    match r with
    | inr result =>
        write_inputBox result;;
        emit (EvSetInputBox result);;
        setContext CTX_GENERATING (CtxBool false);;
        setContext CTX_ICON (CtxNum (-1));;
        setContext CTX_SUCCESS (CtxBool true);;
        emit (EvSetTimeout 2000 CTX_SUCCESS (CtxBool false))
    | inl error =>
        emit (EvShowErrorMessage (MSG_GROQ_PREFIX ++ message_of error))
    end.

Definition generateCommitMessageWithKey (e : Env) (apiKey : jsstring)
  : M unit :=
  repo ← getRepo e;
  match repo with
  | None => mret tt
  | Some repo =>
      let '(changes, isStaged) := selectChanges repo in
      if (length changes =? 0)%nat then
        emit (EvShowWarningMessage MSG_NO_CHANGES)
      else
        let iconCount := 5 in
        currentIconIndex ← read_iconIndex;
        write_iconIndex ((currentIconIndex + 1) `mod` iconCount);;
        setContext CTX_GENERATING (CtxBool true);;
        setContext CTX_ICON (CtxNum currentIconIndex);;
        (* try *)
        (collected ← collectDiffs repo isStaged changes [];
         match collected with
         | inl _ => emit (EvShowErrorMessage MSG_DIFF_READ)
         | inr fullDiff => sendDiffForSCM e apiKey fullDiff
         end);;
        (* finally: it runs on every way out of the try, the return of the
           success path included *)
        setContext CTX_GENERATING (CtxBool false);;
        setContext CTX_ICON (CtxNum (-1))
  end.

(** The string of a [string | undefined] that has tested truthy. *)
Definition the_string (o : option jsstring) : jsstring := default [] o.

(** Lines 78 and 240: [overrideKey?.trim() ? overrideKey : other] *)
Definition preferOverride (overrideKey other : option jsstring)
  : option jsstring :=
  if truthy_ostr (trim <$> overrideKey) then overrideKey else other.

(** *** Lines 75-101: [generateCommitMessageForSCM] *)
Definition generateCommitMessageForSCM (e : Env) : M unit :=
  let overrideKey := env_override e in
  storedKey ← getStoredApiKey e;
  let apiKey := preferOverride overrideKey storedKey in
  if negb (truthy_ostr apiKey) then
    emit EvShowInputBox;;
    let inputKey := env_input e in
    if negb (truthy_ostr inputKey) then
      emit (EvShowWarningMessage MSG_KEY_REQUIRED)
    else
      storeApiKey e (the_string inputKey);;
      generateCommitMessageWithKey e (the_string inputKey)
  else generateCommitMessageWithKey e (the_string apiKey).

(** *** Lines 238-314: [generateCommitMessage] (panel flow) *)

(** [this._view?.webview.postMessage(m)] *)
Definition postMessage (e : Env) (m : webview_message) : M unit :=
  if env_view e then emit (EvPostMessage m) else mret tt.

(** Lines 294-313: from the empty-diff test to the end. *)
Definition sendDiffForPanel (e : Env) (finalApiKey fullDiff : jsstring)
  : M unit :=
  if negb (truthy_str (trim fullDiff)) then
    postMessage e (MsgError MSG_EMPTY_DIFF)
  else
    r ← callGroq e finalApiKey fullDiff;
    match r with
    | inr result => postMessage e (MsgResult result)
    | inl error =>
        postMessage e (MsgError (MSG_GROQ_PREFIX ++ message_of error))
    end.

Definition generateCommitMessage (e : Env) (apiKey : jsstring) : M unit :=
  let overrideKey := env_override e in
  let finalApiKey := preferOverride overrideKey (Some apiKey) in
  if negb (truthy_ostr finalApiKey) then
    postMessage e (MsgError MSG_ENTER_KEY)
  else
    let finalApiKey := the_string finalApiKey in
    repo ← getRepo e;
    match repo with
    | None => mret tt
    | Some repo =>
        let '(changes, isStaged) := selectChanges repo in
        if (length changes =? 0)%nat then
          postMessage e (MsgError MSG_NO_CHANGES)
        else
          postMessage e MsgLoading;;
          collected ← collectDiffs repo isStaged changes [];
          match collected with
          | inl _ => postMessage e (MsgError MSG_DIFF_READ)
          | inr fullDiff => sendDiffForPanel e finalApiKey fullDiff
          end
    end.

(** *** Lines 378-407: [commitChanges] *)
Definition commitChanges (e : Env) (message : jsstring) : M unit :=
  if negb (truthy_str message) || negb (truthy_str (trim message)) then
    emit (EvShowErrorMessage MSG_EMPTY_COMMIT)
  else
    repo ← getRepo e;
    match repo with
    | None => mret tt
    | Some repo =>
        if (length (indexChanges repo) =? 0)%nat then
          emit (EvShowErrorMessage MSG_NOTHING_STAGED)
        else
          emit (EvCommit (trim message));;
          match commit repo (trim message) with
          | inr _ =>
              emit (EvShowInformationMessage MSG_COMMITTED);;
              postMessage e MsgSuccess
          | inl ex =>
              emit (EvShowErrorMessage (MSG_COMMIT_PREFIX ++ message_of ex))
          end
    end.

(** *** Lines 26-35: the messages of the webview *)
Inductive ui_message : Type :=
| UiGenerate (apiKey : jsstring)
| UiCommit (message : jsstring).

Definition onDidReceiveMessage (e : Env) (data : ui_message) : M unit :=
  match data with
  | UiGenerate apiKey => generateCommitMessage e apiKey
  | UiCommit message => commitChanges e message
  end.

End Provider.
Export Provider.

(** ** Vocabulary of the statements *)

Module Observe.

Definition is_fetch (ev : event) : bool :=
  match ev with EvFetch _ => true | _ => false end.

Definition is_diff (ev : event) : bool :=
  match ev with
  | EvDiffIndexWithHEAD _ | EvDiffWithHEAD _ => true
  | _ => false
  end.

Definition is_commit (ev : event) : bool :=
  match ev with EvCommit _ => true | _ => false end.

Definition is_secret_store (ev : event) : bool :=
  match ev with EvSecretsStore _ _ => true | _ => false end.

(** The calls to the remote API, to the diff operations, to the commit
    operation and the writes to the secret store among [evs]. *)
Definition remote_calls (evs : list event) : list event :=
  List.filter is_fetch evs.
Definition diff_calls (evs : list event) : list event :=
  List.filter is_diff evs.
Definition commit_calls (evs : list event) : list event :=
  List.filter is_commit evs.
Definition secret_writes (evs : list event) : list event :=
  List.filter is_secret_store evs.

(** [getRepo] hands out [repo]. *)
Definition available (e : Env) (repo : Repository) : Prop :=
  forall w, eval (getRepo e) w = Some repo.

(** The diff operation and the call that go with an origin. *)
Definition diffOf (repo : Repository) (isStaged : bool)
  : jsstring -> result jsstring :=
  if isStaged then diffIndexWithHEAD repo else diffWithHEAD repo.

Definition diffEvent (isStaged : bool) (path : jsstring) : event :=
  if isStaged then EvDiffIndexWithHEAD path else EvDiffWithHEAD path.

(** The text gathered from [changes] after [fullDiff], or the first
    failure. *)
Fixpoint aggregate (diff : jsstring -> result jsstring)
    (changes : list Change) (fullDiff : jsstring) : result jsstring :=
  match changes with
  | [] => inr fullDiff
  | change :: rest =>
      match diff (fsPath change) with
      | inl ex => inl ex
      | inr d => aggregate diff rest (fullDiff ++ fileSection (fsPath change) d)
      end
  end.

(** The paths whose diff is asked for: all of them up to the first one
    that fails, that one included. *)
Fixpoint attempted (diff : jsstring -> result jsstring)
    (changes : list Change) : list jsstring :=
  match changes with
  | [] => []
  | change :: rest =>
      fsPath change ::
      match diff (fsPath change) with
      | inl _ => []
      | inr _ => attempted diff rest
      end
  end.

(** The aggregate of the change set of [repo]. *)
Definition aggregateOf (repo : Repository) : result jsstring :=
  aggregate (diffOf repo (selectChanges repo).2) (selectChanges repo).1 [].


(** [data.choices?.[0]?.message?.content] of a parsed body. *)
Definition generatedText (data : json) : option json :=
  opt_prop (lit "content")
    (opt_prop (lit "message") (opt_index0 (prop (lit "choices") data))).


(** What [postMessage] sends. *)
Definition posted (e : Env) (m : webview_message) : list event :=
  if env_view e then [EvPostMessage m] else [].

(** The remote calls of an invocation that goes on with [key]: one, when
    there is a repository whose change set is read to the end and whose
    aggregate is not blank. *)
Definition sent_with (key : jsstring) (e : Env) (w : World) : list event :=
  match eval (getRepo e) w with
  | None => []
  | Some repo =>
      match aggregateOf repo with
      | inl _ => []
      | inr fullDiff =>
          if blank fullDiff then [] else [EvFetch (request key fullDiff)]
      end
  end.

(** A string that [trim] leaves as it is. *)
Definition trimmed (s : jsstring) : Prop := trim s = s.

(** A key as the secret store is meant to hold it. *)
Definition good_key (v : jsstring) : Prop := trimmed v /\ v <> [].

(** What is stored under the API-key name, if anything, is a good key. *)
Definition store_ok (w : World) : Prop :=
  forall v, secrets w !! API_KEY_SECRET_KEY = Some v -> good_key v.

(** The key the panel flow goes on with. *)
Definition finalApiKey (e : Env) (apiKey : jsstring) : option jsstring :=
  preferOverride (env_override e) (Some apiKey).

End Observe.
Export Observe.

(** ** Concrete repositories, responses and environments *)

Module Scenario.

Definition change (path : string) : Change := {| fsPath := lit path |}.

(** Every file of these repositories has the same staged diff and the
    same working-tree diff. *)
Definition repo_with (staged unstaged : list Change)
    (stagedDiff unstagedDiff : result jsstring) : Repository :=
  {| indexChanges := staged;
     workingTreeChanges := unstaged;
     diffIndexWithHEAD := fun _ => stagedDiff;
     diffWithHEAD := fun _ => unstagedDiff;
     commit := fun _ => inr tt |}.

(** staged = [a.ts] with diff "+x"; b.ts is modified but not staged. *)
Definition repoStaged : Repository :=
  repo_with [change "a.ts"] [change "b.ts"] (inr (lit "+x")) (inr (lit "+y")).

(** nothing staged; b.ts modified with diff "+y". *)
Definition repoUnstaged : Repository :=
  repo_with [] [change "b.ts"] (inr (lit "+x")) (inr (lit "+y")).

(** nothing staged, nothing modified. *)
Definition repoClean : Repository :=
  repo_with [] [] (inr (lit "+x")) (inr (lit "+y")).

(** staged = [a.ts; c.ts], and the staged diff cannot be read. *)
Definition repoBroken : Repository :=
  repo_with [change "a.ts"; change "c.ts"] []
    (inl (Thrown KRejection (Some (lit "git failed")))) (inr (lit "+y")).

(** staged = [bin.png], whose diff is the empty string. *)
Definition repoBinary : Repository :=
  repo_with [change "bin.png"] [] (inr []) (inr []).

(** {"choices":[{"message":{"content": text}}]} *)
Definition contentBody (text : jsstring) : json :=
  JObj [(lit "choices",
         JArr [JObj [(lit "message", JObj [(lit "content", JStr text)])]])].

(** {"error":{"message": text}} *)
Definition errorBody (text : jsstring) : json :=
  JObj [(lit "error", JObj [(lit "message", JStr text)])].

Definition respond (code : Z) (reason : string) (body : json) : Response :=
  {| status := code; statusText := lit reason; resp_json := inr body |}.

(** An environment with an active git extension holding [repo], no
    override key, a resolved panel, a working secret store, and an
    endpoint that answers every request with [response]. *)
Definition env_of (repo : Repository) (response : Response) : Env :=
  {| env_override := None;
     env_git := Some {| isActive := true; activate := inr tt;
                        repositories := [repo] |};
     env_input := None;
     env_secrets_get_fails := false;
     env_secrets_store_fails := false;
     env_fetch := fun _ => inr response;
     env_view := true |}.

(** The same, with [OVERRIDE_MODEL_API_KEY] set to [key]. *)
Definition env_override_of (key : jsstring) (repo : Repository)
    (response : Response) : Env :=
  {| env_override := Some key;
     env_git := env_git (env_of repo response);
     env_input := None;
     env_secrets_get_fails := false;
     env_secrets_store_fails := false;
     env_fetch := fun _ => inr response;
     env_view := true |}.

(** No override and nothing stored: the user types [key] into the input
    box. *)
Definition env_input_of (key : jsstring) (repo : Repository)
    (response : Response) : Env :=
  {| env_override := None;
     env_git := env_git (env_of repo response);
     env_input := Some key;
     env_secrets_get_fails := false;
     env_secrets_store_fails := false;
     env_fetch := fun _ => inr response;
     env_view := true |}.

Definition okResponse : Response :=
  respond 200 "OK" (contentBody (lit " feat: add x ")).

Definition forbiddenResponse : Response :=
  respond 403 "Forbidden" (errorBody (lit "invalid key")).

(** No key stored. *)
Definition w0 : World :=
  {| secrets := ∅; inputBox_value := []; iconIndex := 0 |}.

(** The key gsk_old is stored. *)
Definition w_key : World :=
  {| secrets := {[ API_KEY_SECRET_KEY := lit "gsk_old" ]};
     inputBox_value := []; iconIndex := 0 |}.

(** Three spaces are stored under the API-key name. *)
Definition w_blank : World :=
  {| secrets := {[ API_KEY_SECRET_KEY := lit "   " ]};
     inputBox_value := []; iconIndex := 0 |}.

End Scenario.

(** ** The script of the panel (lines 517-619 of [_getHtmlForWebview]) *)

Module Webview.

(** The [value] a textarea reports after [raw] is assigned to it: its line
    breaks are normalised, CR LF and a lone CR both becoming LF. *)
Fixpoint textarea_value (raw : jsstring) : jsstring :=
  match raw with
  | [] => []
  | c :: r =>
      if (c =? 13)%N then
        10%N :: match r with
                | [] => []
                | c' :: r' =>
                    if (c' =? 10)%N then textarea_value r'
                    else textarea_value r
                end
      else c :: textarea_value r
  end.

(** The [value] a password input reports after [raw] is assigned to it:
    line breaks are stripped. *)
Definition input_value (raw : jsstring) : jsstring :=
  List.filter (fun c => negb ((c =? 10) || (c =? 13))%N) raw.

(** The object kept with [vscode.setState]: its two optional fields. *)
Record Persisted : Type := {
  st_apiKey : option jsstring;
  st_result : option jsstring
}.

(** The page: the values and flags of its elements that the script reads
    or writes, and what [vscode.getState()] returns. The height that
    [autoResize] gives the textarea is layout and is left out. *)
Record Page : Type := {
  apiKeyInput : jsstring;
  resultInput : jsstring;
  generateBtn_disabled : bool;
  commitBtn_disabled : bool;
  (** [loader.style.display] is 'block' *)
  loader_shown : bool;
  (** [apiKeyContainer.style.display] is 'none' *)
  apiKeyContainer_hidden : bool;
  persisted : option Persisted
}.

Definition MSG_NEED_KEY : jsstring := lit "Please enter an API Key first.".
Definition OVERRIDE_PLACEHOLDER : jsstring := lit "__OVERRIDE__".
Definition ERROR_PREFIX : jsstring := lit "Error: ".

(** Lines 526-528: the flag written into the script when the HTML is
    produced. *)
Definition isOverrideActive (e : Env) : bool :=
  truthy_ostr (trim <$> env_override e).

(** Lines 499-515: the page as the HTML gives it, with the state the host
    kept for the view. *)
Definition blank_page (previousState : option Persisted) : Page :=
  {| apiKeyInput := [];
     resultInput := [];
     generateBtn_disabled := false;
     commitBtn_disabled := true;
     loader_shown := false;
     apiKeyContainer_hidden := false;
     persisted := previousState |}.

Definition set_apiKeyInput (raw : jsstring) (p : Page) : Page :=
  {| apiKeyInput := input_value raw;
     resultInput := resultInput p;
     generateBtn_disabled := generateBtn_disabled p;
     commitBtn_disabled := commitBtn_disabled p;
     loader_shown := loader_shown p;
     apiKeyContainer_hidden := apiKeyContainer_hidden p;
     persisted := persisted p |}.

Definition set_resultInput (raw : jsstring) (p : Page) : Page :=
  {| apiKeyInput := apiKeyInput p;
     resultInput := textarea_value raw;
     generateBtn_disabled := generateBtn_disabled p;
     commitBtn_disabled := commitBtn_disabled p;
     loader_shown := loader_shown p;
     apiKeyContainer_hidden := apiKeyContainer_hidden p;
     persisted := persisted p |}.

Definition set_generateBtn_disabled (b : bool) (p : Page) : Page :=
  {| apiKeyInput := apiKeyInput p;
     resultInput := resultInput p;
     generateBtn_disabled := b;
     commitBtn_disabled := commitBtn_disabled p;
     loader_shown := loader_shown p;
     apiKeyContainer_hidden := apiKeyContainer_hidden p;
     persisted := persisted p |}.

Definition set_commitBtn_disabled (b : bool) (p : Page) : Page :=
  {| apiKeyInput := apiKeyInput p;
     resultInput := resultInput p;
     generateBtn_disabled := generateBtn_disabled p;
     commitBtn_disabled := b;
     loader_shown := loader_shown p;
     apiKeyContainer_hidden := apiKeyContainer_hidden p;
     persisted := persisted p |}.

Definition set_loader_shown (b : bool) (p : Page) : Page :=
  {| apiKeyInput := apiKeyInput p;
     resultInput := resultInput p;
     generateBtn_disabled := generateBtn_disabled p;
     commitBtn_disabled := commitBtn_disabled p;
     loader_shown := b;
     apiKeyContainer_hidden := apiKeyContainer_hidden p;
     persisted := persisted p |}.

Definition hide_apiKeyContainer (p : Page) : Page :=
  {| apiKeyInput := apiKeyInput p;
     resultInput := resultInput p;
     generateBtn_disabled := generateBtn_disabled p;
     commitBtn_disabled := commitBtn_disabled p;
     loader_shown := loader_shown p;
     apiKeyContainer_hidden := true;
     persisted := persisted p |}.

(** [vscode.getState() || {}] *)
Definition getState_or_empty (p : Page) : Persisted :=
  default {| st_apiKey := None; st_result := None |} (persisted p).

(** [vscode.setState({ ...state, apiKey: v })] *)
Definition setState_apiKey (v : jsstring) (p : Page) : Page :=
  {| apiKeyInput := apiKeyInput p;
     resultInput := resultInput p;
     generateBtn_disabled := generateBtn_disabled p;
     commitBtn_disabled := commitBtn_disabled p;
     loader_shown := loader_shown p;
     apiKeyContainer_hidden := apiKeyContainer_hidden p;
     persisted := Some {| st_apiKey := Some v;
                          st_result := st_result (getState_or_empty p) |} |}.

(** [vscode.setState({ ...state, result: v })] *)
Definition setState_result (v : jsstring) (p : Page) : Page :=
  {| apiKeyInput := apiKeyInput p;
     resultInput := resultInput p;
     generateBtn_disabled := generateBtn_disabled p;
     commitBtn_disabled := commitBtn_disabled p;
     loader_shown := loader_shown p;
     apiKeyContainer_hidden := apiKeyContainer_hidden p;
     persisted := Some {| st_apiKey := st_apiKey (getState_or_empty p);
                          st_result := Some v |} |}.

(** Lines 518-552: what the script does when the page loads. *)
Definition load (overrideActive : bool) (previousState : option Persisted)
  : Page :=
  let p := blank_page previousState in
  let p :=
    if overrideActive
    then set_apiKeyInput OVERRIDE_PLACEHOLDER (hide_apiKeyContainer p)
    else p in
  match previousState with
  | None => p
  | Some previous =>
      let p :=
        if truthy_ostr (st_apiKey previous)
        then set_apiKeyInput (the_string (st_apiKey previous)) p
        else p in
      if truthy_ostr (st_result previous) then
        let p := set_resultInput (the_string (st_result previous)) p in
        set_commitBtn_disabled (blank (resultInput p)) p
      else p
  end.

(** Lines 554-557: the input listener of the key field. *)
Definition onApiKeyInput (p : Page) : Page :=
  setState_apiKey (apiKeyInput p) p.

(** Lines 560-566: the input listener of the textarea. *)
Definition onResultInput (p : Page) : Page :=
  let value := resultInput p in
  setState_result value (set_commitBtn_disabled (blank value) p).

(** Lines 568-581: the click listener of the generate button. *)
Definition onGenerateClick (overrideActive : bool) (p : Page)
  : Page * list ui_message :=
  let key := apiKeyInput p in
  if negb (truthy_str key) && negb overrideActive then
    (set_resultInput MSG_NEED_KEY p, [])
  else
    (set_commitBtn_disabled true
       (set_resultInput []
          (set_loader_shown true (set_generateBtn_disabled true p))),
     [UiGenerate key]).

(** Lines 583-585: the click listener of the commit button. *)
Definition onCommitClick (p : Page) : Page * list ui_message :=
  (p, [UiCommit (resultInput p)]).

(** Lines 587-618: the message listener. *)
Definition onMessage (message : webview_message) (p : Page) : Page :=
  match message with
  | MsgResult value =>
      setState_result value
        (set_commitBtn_disabled false
           (set_resultInput value
              (set_loader_shown false (set_generateBtn_disabled false p))))
  | MsgError value =>
      set_commitBtn_disabled true
        (set_resultInput (ERROR_PREFIX ++ value)
           (set_loader_shown false (set_generateBtn_disabled false p)))
  | MsgSuccess =>
      setState_result []
        (set_commitBtn_disabled true (set_resultInput [] p))
  | MsgLoading => set_loader_shown true p
  end.

(** What can happen to the page: the user edits a field (the element then
    holds what was typed), clicks a button, or the provider posts a
    message. *)
Inductive page_event : Type :=
| TypeApiKey (typed : jsstring)
| TypeResult (typed : jsstring)
| ClickGenerate
| ClickCommit
| Receive (message : webview_message).

(** One event; a click on a disabled button reaches no listener. *)
Definition step (overrideActive : bool) (p : Page) (ev : page_event)
  : Page * list ui_message :=
  match ev with
  | TypeApiKey typed => (onApiKeyInput (set_apiKeyInput typed p), [])
  | TypeResult typed => (onResultInput (set_resultInput typed p), [])
  | ClickGenerate =>
      if generateBtn_disabled p then (p, [])
      else onGenerateClick overrideActive p
  | ClickCommit =>
      if commitBtn_disabled p then (p, []) else onCommitClick p
  | Receive message => (onMessage message p, [])
  end.

(** A run of events: the page it ends in and the messages posted to the
    provider, in order. *)
Fixpoint run_page (overrideActive : bool) (p : Page) (evs : list page_event)
  : Page * list ui_message :=
  match evs with
  | [] => (p, [])
  | ev :: rest =>
      let r := step overrideActive p ev in
      let r' := run_page overrideActive r.1 rest in
      (r'.1, r.2 ++ r'.2)
  end.

(** The messages the provider posts to the webview among [evs]. *)
Definition posts (evs : list event) : list webview_message :=
  omap (fun ev => match ev with EvPostMessage m => Some m | _ => None end) evs.

(** A click on the generate button, the provider handling what the page
    posts, and the page receiving what the provider posts back. *)
Definition generateRound (overrideActive : bool) (e : Env) (p : Page)
    (w : World) : Page * World :=
  let clicked := step overrideActive p ClickGenerate in
  match clicked.2 with
  | [] => (clicked.1, w)
  | data :: _ =>
      let handled := onDidReceiveMessage e data in
      ((run_page overrideActive clicked.1
          (Receive <$> posts (calls handled w))).1,
       exec handled w)
  end.

(** A click on the commit button, the provider handling what the page
    posts, and the page receiving what the provider posts back. *)
Definition commitRound (overrideActive : bool) (e : Env) (p : Page)
    (w : World) : Page * list event :=
  let clicked := step overrideActive p ClickCommit in
  match clicked.2 with
  | [] => (clicked.1, [])
  | data :: _ =>
      let handled := onDidReceiveMessage e data in
      ((run_page overrideActive clicked.1
          (Receive <$> posts (calls handled w))).1,
       calls handled w)
  end.

End Webview.
Export Webview.

(** ** Vocabulary of the further statements *)

Module Outcome.

(** The two calls that put the generating state back. *)
Definition reset_generating : list event :=
  [EvSetContext CTX_GENERATING (CtxBool false);
   EvSetContext CTX_ICON (CtxNum (-1))].

(** What [callGroq] settles to for a key and a diff. *)
Definition remote_result (e : Env) (key diff : jsstring) : result jsstring :=
  match env_fetch e (request key diff) with
  | inl ex => inl ex
  | inr response => handleResponse response
  end.

(** The change set of [repo] is not empty. *)
Definition has_changes (repo : Repository) : bool :=
  negb (length (selectChanges repo).1 =? 0)%nat.

(** The calls the toolbar flow can make once it has a key. *)
Definition is_generation_event (ev : event) : bool :=
  match ev with
  | EvShowErrorMessage _ | EvShowWarningMessage _ | EvActivateGit
  | EvSetContext _ _ | EvSetTimeout _ _ _ | EvDiffIndexWithHEAD _
  | EvDiffWithHEAD _ | EvFetch _ | EvSetInputBox _ => true
  | _ => false
  end.

(** A message that ends a generation for the page. *)
Definition terminal (m : webview_message) : bool :=
  match m with
  | MsgResult _ | MsgError _ => true
  | _ => false
  end.

(** The commit button is enabled only over a text that is not blank. *)
Definition committable (p : Page) : Prop :=
  commitBtn_disabled p = false -> blank (resultInput p) = false.

(** An event that is not the arrival of a blank result. *)
Definition no_blank_result (ev : page_event) : Prop :=
  match ev with
  | Receive (MsgResult value) => blank value = false
  | _ => True
  end.

(** An event that is not the arrival of a result or of an error. *)
Definition not_final (ev : page_event) : Prop :=
  match ev with
  | Receive (MsgResult _) | Receive (MsgError _) => False
  | _ => True
  end.

End Outcome.
Export Outcome.

(** ** More concrete environments and pages *)

Module Cases.

(** The git extension is installed, not yet active, can be activated and
    has no repository open. *)
Definition env_no_repository : Env :=
  {| env_override := None;
     env_git := Some {| isActive := false; activate := inr tt;
                        repositories := [] |};
     env_input := None;
     env_secrets_get_fails := false;
     env_secrets_store_fails := false;
     env_fetch := fun _ => inl (Thrown KTypeError (Some (lit "fetch failed")));
     env_view := true |}.

(** The secret store rejects every write. *)
Definition env_store_rejects : Env :=
  {| env_override := None;
     env_git := env_git (Scenario.env_of Scenario.repoStaged Scenario.okResponse);
     env_input := Some (lit " gsk_new");
     env_secrets_get_fails := false;
     env_secrets_store_fails := true;
     env_fetch := fun _ => inr Scenario.okResponse;
     env_view := true |}.


(** The state kept for a view that was closed with a draft in the
    textarea and no key typed. *)
Definition draft_only : option Persisted :=
  Some {| st_apiKey := None; st_result := Some (lit "feat: add x") |}.

(** The working tree has three modified files; the diff of the second
    one cannot be read. *)
Definition repoSecondFails : Repository :=
  {| indexChanges := [];
     workingTreeChanges :=
       [Scenario.change "a.ts"; Scenario.change "b.ts"; Scenario.change "c.ts"];
     diffIndexWithHEAD := fun _ => inr [];
     diffWithHEAD := fun path =>
       if decide (path = lit "b.ts")
       then inl (Thrown KRejection (Some (lit "git failed")))
       else inr (lit "+x");
     commit := fun _ => inr tt |}.

(** staged = [a.ts], and the commit operation is rejected. *)
Definition repoCommitFails : Repository :=
  {| indexChanges := [Scenario.change "a.ts"];
     workingTreeChanges := [];
     diffIndexWithHEAD := fun _ => inr (lit "+x");
     diffWithHEAD := fun _ => inr [];
     commit := fun _ => inl (Thrown KError (Some (lit "hook failed"))) |}.

End Cases.

(** ** Trimming *)

Section Trim.

Lemma trimStart_blank (s : jsstring) :
  trimStart s = [] <-> forallb is_white_space s = true.
Proof.
  induction s as [|c r IH]; simpl; [done|].
  destruct (is_white_space c); simpl; [exact IH|]. split; discriminate.
Qed.

Lemma trimEnd_blank (s : jsstring) :
  trimEnd s = [] <-> forallb is_white_space s = true.
Proof.
  induction s as [|c r IH]; simpl; [done|].
  destruct (trimEnd r) as [|t ts] eqn:E.
  - destruct (is_white_space c); simpl.
    + split; [intros _; by apply IH | done].
    + split; discriminate.
  - split; [discriminate|]. intros H. apply andb_true_iff in H as [_ H].
    apply IH in H. discriminate.
Qed.

Lemma trimEnd_cons_black (c : N) (r : jsstring) :
  is_white_space c = false -> trimEnd (c :: r) = c :: trimEnd r.
Proof. intros H. simpl. rewrite H. by destruct (trimEnd r). Qed.

Lemma trimEnd_idem (s : jsstring) : trimEnd (trimEnd s) = trimEnd s.
Proof.
  induction s as [|c r IH]; simpl; [done|].
  destruct (trimEnd r) as [|t ts] eqn:E.
  - destruct (is_white_space c) eqn:W; simpl; [done|]. by rewrite W.
  - change (trimEnd (c :: t :: ts)) with
      (match trimEnd (t :: ts) with
       | [] => if is_white_space c then [] else [c]
       | u => c :: u end).
    by rewrite IH.
Qed.

Lemma trimEnd_last (s : jsstring) (c : N) :
  last (trimEnd s) = Some c -> is_white_space c = false.
Proof.
  revert c. induction s as [|a r IH]; intros c; simpl; [done|].
  destruct (trimEnd r) as [|t ts] eqn:E.
  - destruct (is_white_space a) eqn:W; simpl; [done|]. congruence.
  - intros H. apply IH. exact H.
Qed.

Lemma trimStart_head (s : jsstring) :
  match trimStart s with [] => True | c :: _ => is_white_space c = false end.
Proof.
  induction s as [|c r IH]; simpl; [done|].
  destruct (is_white_space c) eqn:W; [exact IH | exact W].
Qed.

Lemma trim_blank (s : jsstring) :
  trim s = [] <-> forallb is_white_space s = true.
Proof.
  unfold trim. rewrite trimEnd_blank, <- (trimStart_blank s).
  split; [|by intros ->].
  intros H. pose proof (trimStart_head s) as Hh.
  destruct (trimStart s) as [|c r]; [done|].
  simpl in H. rewrite Hh in H. discriminate H.
Qed.

Lemma trim_idem (s : jsstring) : trim (trim s) = trim s.
Proof.
  unfold trim. pose proof (trimStart_head s) as Hh.
  destruct (trimStart s) as [|c r]; [done|].
  rewrite (trimEnd_cons_black c r Hh). simpl trimStart. rewrite Hh.
  rewrite <- (trimEnd_cons_black c r Hh). apply trimEnd_idem.
Qed.

Lemma trim_head (s : jsstring) (c : N) :
  head (trim s) = Some c -> is_white_space c = false.
Proof.
  unfold trim. pose proof (trimStart_head s) as Hh.
  destruct (trimStart s) as [|a r]; [done|].
  rewrite (trimEnd_cons_black a r Hh). simpl. congruence.
Qed.

Lemma trim_last (s : jsstring) (c : N) :
  last (trim s) = Some c -> is_white_space c = false.
Proof. apply trimEnd_last. Qed.

Lemma blank_spec (s : jsstring) :
  blank s = true <-> forallb is_white_space s = true.
Proof.
  unfold blank. rewrite <- trim_blank. by destruct (trim s).
Qed.

(** A string that holds a character that is no white space is not blank. *)
Lemma blank_false_intro (s : jsstring) (c : N) :
  c ∈ s -> is_white_space c = false -> blank s = false.
Proof.
  intros Hin Hc. destruct (blank s) eqn:B; [|done].
  apply blank_spec in B. rewrite forallb_forall in B.
  apply list_elem_of_In in Hin. rewrite (B _ Hin) in Hc. discriminate.
Qed.

End Trim.

(** ** Running a computation *)

Section Run.

Context {A B : Type}.

Lemma eval_bind (m : M A) (k : A -> M B) (w : World) :
  eval (m ≫= k) w = eval (k (eval m w)) (exec m w).
Proof. reflexivity. Qed.

Lemma exec_bind (m : M A) (k : A -> M B) (w : World) :
  exec (m ≫= k) w = exec (k (eval m w)) (exec m w).
Proof. reflexivity. Qed.

Lemma calls_bind (m : M A) (k : A -> M B) (w : World) :
  calls (m ≫= k) w = calls m w ++ calls (k (eval m w)) (exec m w).
Proof. reflexivity. Qed.

Lemma eval_ret (a : A) (w : World) : eval (mret a) w = a.
Proof. reflexivity. Qed.

Lemma exec_ret (a : A) (w : World) : exec (mret a : M A) w = w.
Proof. reflexivity. Qed.

Lemma calls_ret (a : A) (w : World) : calls (mret a : M A) w = [].
Proof. reflexivity. Qed.

End Run.

Lemma exec_emit (ev : event) (w : World) : exec (emit ev) w = w.
Proof. reflexivity. Qed.

Lemma calls_emit (ev : event) (w : World) : calls (emit ev) w = [ev].
Proof. reflexivity. Qed.

Create Rewrite HintDb run.
#[local] Hint Rewrite @eval_bind @exec_bind @calls_bind @eval_ret @exec_ret
  @calls_ret exec_emit calls_emit : run.

Lemma exec_setContext (key : jsstring) (v : context_value) (w : World) :
  exec (setContext key v) w = w.
Proof. reflexivity. Qed.

Lemma calls_setContext (key : jsstring) (v : context_value) (w : World) :
  calls (setContext key v) w = [EvSetContext key v].
Proof. reflexivity. Qed.

Lemma eval_read_iconIndex (w : World) : eval read_iconIndex w = iconIndex w.
Proof. reflexivity. Qed.

Lemma exec_read_iconIndex (w : World) : exec read_iconIndex w = w.
Proof. reflexivity. Qed.

Lemma calls_read_iconIndex (w : World) : calls read_iconIndex w = [].
Proof. reflexivity. Qed.

Lemma calls_write_iconIndex (i : Z) (w : World) :
  calls (write_iconIndex i) w = [].
Proof. reflexivity. Qed.

Lemma calls_write_inputBox (v : jsstring) (w : World) :
  calls (write_inputBox v) w = [].
Proof. reflexivity. Qed.

Lemma calls_write_secret (k v : jsstring) (w : World) :
  calls (write_secret k v) w = [].
Proof. reflexivity. Qed.

Lemma eval_read_secret (k : jsstring) (w : World) :
  eval (read_secret k) w = secrets w !! k.
Proof. reflexivity. Qed.

Lemma exec_read_secret (k : jsstring) (w : World) :
  exec (read_secret k) w = w.
Proof. reflexivity. Qed.

Lemma calls_read_secret (k : jsstring) (w : World) :
  calls (read_secret k) w = [].
Proof. reflexivity. Qed.

#[local] Hint Rewrite exec_setContext calls_setContext eval_read_iconIndex
  exec_read_iconIndex calls_read_iconIndex calls_write_iconIndex
  calls_write_inputBox calls_write_secret eval_read_secret exec_read_secret
  calls_read_secret : run.

Ltac run := autorewrite with run; simpl.

(** ** The building blocks *)

Lemma getRepo_exec (e : Env) (w : World) : exec (getRepo e) w = w.
Proof.
  unfold getRepo. destruct (env_git e) as [g|]; [|reflexivity].
  destruct (isActive g); [by destruct (repositories g)|].
  destruct (activate g); [reflexivity|]. by destruct (repositories g).
Qed.

Lemma getRepo_calls_filter (f : event -> bool) (e : Env) (w : World) :
  (forall m, f (EvShowErrorMessage m) = false) ->
  f EvActivateGit = false ->
  List.filter f (calls (getRepo e) w) = [].
Proof.
  intros Hm Ha. unfold getRepo. destruct (env_git e) as [g|].
  - destruct (isActive g).
    + destruct (repositories g); run; rewrite ?Hm; reflexivity.
    + destruct (activate g); [run; by rewrite Ha, Hm|].
      destruct (repositories g); run; rewrite ?Ha, ?Hm; reflexivity.
  - run. by rewrite Hm.
Qed.

Lemma getRepo_calls_available (e : Env) (repo : Repository) (w : World) :
  available e repo ->
  calls (getRepo e) w = [] \/ calls (getRepo e) w = [EvActivateGit].
Proof.
  intros Hav. specialize (Hav w). revert Hav. unfold getRepo.
  destruct (env_git e) as [g|]; [|discriminate].
  destruct (isActive g).
  - destruct (repositories g); [discriminate|]. by left.
  - destruct (activate g); [discriminate|].
    destruct (repositories g); [discriminate|]. by right.
Qed.

Lemma collectDiffs_exec (repo : Repository) (isStaged : bool)
    (changes : list Change) (fullDiff : jsstring) (w : World) :
  exec (collectDiffs repo isStaged changes fullDiff) w = w.
Proof.
  revert fullDiff. induction changes as [|c rest IH]; intros fullDiff;
    [reflexivity|].
  simpl. unfold fetchDiff. destruct isStaged; simpl.
  - rewrite exec_bind. run.
    destruct (diffIndexWithHEAD repo (fsPath c)); [reflexivity | apply IH].
  - rewrite exec_bind. run.
    destruct (diffWithHEAD repo (fsPath c)); [reflexivity | apply IH].
Qed.

Lemma collectDiffs_eval (repo : Repository) (isStaged : bool)
    (changes : list Change) (fullDiff : jsstring) (w : World) :
  eval (collectDiffs repo isStaged changes fullDiff) w
  = aggregate (diffOf repo isStaged) changes fullDiff.
Proof.
  revert fullDiff. induction changes as [|c rest IH]; intros fullDiff;
    [reflexivity|].
  simpl. unfold fetchDiff, diffOf. destruct isStaged; simpl.
  - rewrite eval_bind. run.
    destruct (diffIndexWithHEAD repo (fsPath c)); [reflexivity | apply IH].
  - rewrite eval_bind. run.
    destruct (diffWithHEAD repo (fsPath c)); [reflexivity | apply IH].
Qed.

Lemma collectDiffs_calls (repo : Repository) (isStaged : bool)
    (changes : list Change) (fullDiff : jsstring) (w : World) :
  calls (collectDiffs repo isStaged changes fullDiff) w
  = diffEvent isStaged <$> attempted (diffOf repo isStaged) changes.
Proof.
  revert fullDiff. induction changes as [|c rest IH]; intros fullDiff;
    [reflexivity|].
  simpl. unfold fetchDiff, diffOf, diffEvent. destruct isStaged; simpl.
  - rewrite calls_bind. run.
    destruct (diffIndexWithHEAD repo (fsPath c)); [reflexivity|].
    f_equal. apply IH.
  - rewrite calls_bind. run.
    destruct (diffWithHEAD repo (fsPath c)); [reflexivity|].
    f_equal. apply IH.
Qed.

#[local] Hint Rewrite getRepo_exec collectDiffs_exec collectDiffs_eval
  collectDiffs_calls : run.

Lemma callGroq_exec (e : Env) (apiKey diff : jsstring) (w : World) :
  exec (callGroq e apiKey diff) w = w.
Proof.
  unfold callGroq. run. by destruct (env_fetch e (request apiKey diff)).
Qed.

Lemma callGroq_calls (e : Env) (apiKey diff : jsstring) (w : World) :
  calls (callGroq e apiKey diff) w = [EvFetch (request apiKey diff)].
Proof.
  unfold callGroq. run. by destruct (env_fetch e (request apiKey diff)).
Qed.

Lemma callGroq_eval (e : Env) (apiKey diff : jsstring) (w : World) :
  eval (callGroq e apiKey diff) w
  = match env_fetch e (request apiKey diff) with
    | inl ex => inl ex
    | inr response => handleResponse response
    end.
Proof.
  unfold callGroq. run. by destruct (env_fetch e (request apiKey diff)).
Qed.

#[local] Hint Rewrite callGroq_exec callGroq_calls callGroq_eval : run.

Lemma sendDiffForSCM_secrets (e : Env) (apiKey fullDiff : jsstring) (w : World) :
  secrets (exec (sendDiffForSCM e apiKey fullDiff) w) = secrets w.
Proof.
  unfold sendDiffForSCM. destruct (truthy_str (trim fullDiff)); cbn [negb];
    [|reflexivity].
  rewrite exec_bind, callGroq_exec.
  by case_match.
Qed.

Lemma sendDiffForSCM_remote (e : Env) (apiKey fullDiff : jsstring) (w : World) :
  remote_calls (calls (sendDiffForSCM e apiKey fullDiff) w)
  = if blank fullDiff then [] else [EvFetch (request apiKey fullDiff)].
Proof.
  unfold sendDiffForSCM, blank. destruct (truthy_str (trim fullDiff)); cbn [negb];
    [|reflexivity].
  rewrite calls_bind, callGroq_calls.
  by case_match.
Qed.

Lemma sendDiffForPanel_exec (e : Env) (key fullDiff : jsstring) (w : World) :
  exec (sendDiffForPanel e key fullDiff) w = w.
Proof.
  unfold sendDiffForPanel, postMessage.
  destruct (truthy_str (trim fullDiff)); cbn [negb]; [|by destruct (env_view e)].
  rewrite exec_bind, callGroq_exec.
  by case_match; destruct (env_view e).
Qed.

Lemma sendDiffForPanel_remote (e : Env) (key fullDiff : jsstring) (w : World) :
  remote_calls (calls (sendDiffForPanel e key fullDiff) w)
  = if blank fullDiff then [] else [EvFetch (request key fullDiff)].
Proof.
  unfold sendDiffForPanel, postMessage, blank.
  destruct (truthy_str (trim fullDiff)); cbn [negb]; [|by destruct (env_view e)].
  rewrite calls_bind, callGroq_calls.
  by case_match; destruct (env_view e).
Qed.

Lemma remote_calls_app (l k : list event) :
  remote_calls (l ++ k) = remote_calls l ++ remote_calls k.
Proof. apply List.filter_app. Qed.

Lemma diff_calls_app (l k : list event) :
  diff_calls (l ++ k) = diff_calls l ++ diff_calls k.
Proof. apply List.filter_app. Qed.

Lemma remote_calls_diffEvents (isStaged : bool) (paths : list jsstring) :
  remote_calls (diffEvent isStaged <$> paths) = [].
Proof. induction paths as [|p r IH]; [done|]. destruct isStaged; exact IH. Qed.

Lemma diff_calls_diffEvents (isStaged : bool) (paths : list jsstring) :
  diff_calls (diffEvent isStaged <$> paths) = diffEvent isStaged <$> paths.
Proof.
  induction paths as [|p r IH]; [done|].
  destruct isStaged; cbn [fmap list_fmap diff_calls List.filter diffEvent is_diff];
    f_equal; exact IH.
Qed.

Lemma getRepo_remote (e : Env) (w : World) :
  remote_calls (calls (getRepo e) w) = [].
Proof. by apply getRepo_calls_filter. Qed.

Lemma getRepo_diff (e : Env) (w : World) :
  diff_calls (calls (getRepo e) w) = [].
Proof. by apply getRepo_calls_filter. Qed.

Lemma aggregate_nil_changes (repo : Repository) :
  (selectChanges repo).1 = [] -> aggregateOf repo = inr [].
Proof. unfold aggregateOf. by intros ->. Qed.

(** The remote calls of the toolbar flow: at most one, made when the
    change set is read to the end and its aggregate is not blank. *)
Lemma withKey_remote (e : Env) (apiKey : jsstring) (w : World) :
  remote_calls (calls (generateCommitMessageWithKey e apiKey) w)
  = match eval (getRepo e) w with
    | None => []
    | Some repo =>
        match aggregateOf repo with
        | inl _ => []
        | inr fullDiff =>
            if blank fullDiff then [] else [EvFetch (request apiKey fullDiff)]
        end
    end.
Proof.
  unfold generateCommitMessageWithKey.
  rewrite calls_bind, remote_calls_app, getRepo_remote, getRepo_exec.
  destruct (eval (getRepo e) w) as [repo|]; [|reflexivity].
  unfold aggregateOf. destruct (selectChanges repo) as [changes isStaged].
  simpl. destruct changes as [|c rest]; [reflexivity|].
  cbn [length Nat.eqb]. autorewrite with run.
  rewrite !remote_calls_app, remote_calls_diffEvents.
  destruct (aggregate (diffOf repo isStaged) (c :: rest) []) as [ex|d];
    [reflexivity|].
  rewrite sendDiffForSCM_remote. cbn. by rewrite app_nil_r.
Qed.

Lemma sendDiffForSCM_diff (e : Env) (apiKey fullDiff : jsstring) (w : World) :
  diff_calls (calls (sendDiffForSCM e apiKey fullDiff) w) = [].
Proof.
  unfold sendDiffForSCM. destruct (truthy_str (trim fullDiff)); cbn [negb];
    [|reflexivity].
  autorewrite with run. by case_match.
Qed.

Lemma sendDiffForPanel_diff (e : Env) (key fullDiff : jsstring) (w : World) :
  diff_calls (calls (sendDiffForPanel e key fullDiff) w) = [].
Proof.
  unfold sendDiffForPanel, postMessage.
  destruct (truthy_str (trim fullDiff)); cbn [negb];
    [|by destruct (env_view e)].
  autorewrite with run. by case_match; destruct (env_view e).
Qed.

Lemma postMessage_exec (e : Env) (m : webview_message) (w : World) :
  exec (postMessage e m) w = w.
Proof. unfold postMessage. by destruct (env_view e). Qed.

Lemma postMessage_remote (e : Env) (m : webview_message) (w : World) :
  remote_calls (calls (postMessage e m) w) = [].
Proof. unfold postMessage. by destruct (env_view e). Qed.

Lemma postMessage_diff (e : Env) (m : webview_message) (w : World) :
  diff_calls (calls (postMessage e m) w) = [].
Proof. unfold postMessage. by destruct (env_view e). Qed.

#[local] Hint Rewrite postMessage_exec sendDiffForPanel_exec : run.

(** The diff calls of the toolbar flow. *)
Lemma withKey_diffs (e : Env) (apiKey : jsstring) (w : World) :
  diff_calls (calls (generateCommitMessageWithKey e apiKey) w)
  = match eval (getRepo e) w with
    | None => []
    | Some repo =>
        diffEvent (selectChanges repo).2
        <$> attempted (diffOf repo (selectChanges repo).2)
              (selectChanges repo).1
    end.
Proof.
  unfold generateCommitMessageWithKey.
  rewrite calls_bind, diff_calls_app, getRepo_diff, getRepo_exec.
  destruct (eval (getRepo e) w) as [repo|]; [|reflexivity].
  destruct (selectChanges repo) as [changes isStaged].
  cbn [fst snd]. destruct changes as [|c rest]; [reflexivity|].
  cbn [length Nat.eqb]. autorewrite with run.
  rewrite !diff_calls_app, diff_calls_diffEvents.
  destruct (aggregate (diffOf repo isStaged) (c :: rest) []) as [ex|d].
  - cbn -[attempted]. by rewrite !app_nil_r.
  - rewrite sendDiffForSCM_diff. cbn -[attempted]. by rewrite !app_nil_r.
Qed.

(** The remote calls of the panel flow. *)
Lemma panel_remote (e : Env) (apiKey : jsstring) (w : World) :
  remote_calls (calls (generateCommitMessage e apiKey) w)
  = if truthy_ostr (finalApiKey e apiKey) then
      match eval (getRepo e) w with
      | None => []
      | Some repo =>
          match aggregateOf repo with
          | inl _ => []
          | inr fullDiff =>
              if blank fullDiff then []
              else [EvFetch (request (the_string (finalApiKey e apiKey))
                               fullDiff)]
          end
      end
    else [].
Proof.
  unfold generateCommitMessage, finalApiKey.
  destruct (truthy_ostr (preferOverride (env_override e) (Some apiKey)));
    cbn [negb]; [|apply postMessage_remote].
  rewrite calls_bind, remote_calls_app, getRepo_remote, getRepo_exec.
  destruct (eval (getRepo e) w) as [repo|]; [|reflexivity].
  unfold aggregateOf. destruct (selectChanges repo) as [changes isStaged].
  cbn [fst snd]. destruct changes as [|c rest]; [apply postMessage_remote|].
  cbn [length Nat.eqb]. autorewrite with run.
  rewrite !remote_calls_app, remote_calls_diffEvents, postMessage_remote.
  destruct (aggregate (diffOf repo isStaged) (c :: rest) []) as [ex|d].
  - by rewrite postMessage_remote.
  - by rewrite sendDiffForPanel_remote.
Qed.

(** The diff calls of the panel flow. *)
Lemma panel_diffs (e : Env) (apiKey : jsstring) (w : World) :
  diff_calls (calls (generateCommitMessage e apiKey) w)
  = if truthy_ostr (finalApiKey e apiKey) then
      match eval (getRepo e) w with
      | None => []
      | Some repo =>
          diffEvent (selectChanges repo).2
          <$> attempted (diffOf repo (selectChanges repo).2)
                (selectChanges repo).1
      end
    else [].
Proof.
  unfold generateCommitMessage, finalApiKey.
  destruct (truthy_ostr (preferOverride (env_override e) (Some apiKey)));
    cbn [negb]; [|apply postMessage_diff].
  rewrite calls_bind, diff_calls_app, getRepo_diff, getRepo_exec.
  destruct (eval (getRepo e) w) as [repo|]; [|reflexivity].
  destruct (selectChanges repo) as [changes isStaged].
  cbn [fst snd]. destruct changes as [|c rest]; [apply postMessage_diff|].
  cbn [length Nat.eqb]. autorewrite with run.
  rewrite !diff_calls_app, diff_calls_diffEvents, postMessage_diff.
  destruct (aggregate (diffOf repo isStaged) (c :: rest) []) as [ex|d].
  - rewrite postMessage_diff. cbn -[attempted]. by rewrite !app_nil_r.
  - rewrite sendDiffForPanel_diff. cbn -[attempted]. by rewrite !app_nil_r.
Qed.

(** Neither generation flow started with a key touches the secret store. *)
Lemma withKey_secrets (e : Env) (apiKey : jsstring) (w : World) :
  secrets (exec (generateCommitMessageWithKey e apiKey) w) = secrets w.
Proof.
  unfold generateCommitMessageWithKey.
  rewrite exec_bind, getRepo_exec.
  destruct (eval (getRepo e) w) as [repo|]; [|reflexivity].
  destruct (selectChanges repo) as [changes isStaged].
  destruct changes as [|c rest]; [reflexivity|].
  cbn [length Nat.eqb]. autorewrite with run.
  destruct (aggregate (diffOf repo isStaged) (c :: rest) []) as [ex|d];
    [reflexivity|].
  by rewrite sendDiffForSCM_secrets.
Qed.

Lemma panel_exec (e : Env) (apiKey : jsstring) (w : World) :
  exec (generateCommitMessage e apiKey) w = w.
Proof.
  unfold generateCommitMessage.
  destruct (truthy_ostr (preferOverride (env_override e) (Some apiKey)));
    cbn [negb]; [|apply postMessage_exec].
  rewrite exec_bind, getRepo_exec.
  destruct (eval (getRepo e) w) as [repo|]; [|reflexivity].
  destruct (selectChanges repo) as [changes isStaged].
  destruct changes as [|c rest]; [apply postMessage_exec|].
  cbn [length Nat.eqb]. autorewrite with run.
  destruct (aggregate (diffOf repo isStaged) (c :: rest) []) as [ex|d];
    by autorewrite with run.
Qed.

(** ** Facts about the flows used by the claims *)

Lemma selectChanges_staged (repo : Repository) :
  indexChanges repo <> [] -> selectChanges repo = (indexChanges repo, true).
Proof. unfold selectChanges. by destruct (indexChanges repo). Qed.

Lemma selectChanges_unstaged (repo : Repository) :
  indexChanges repo = [] -> selectChanges repo = (workingTreeChanges repo, false).
Proof. unfold selectChanges. by intros ->. Qed.

(** What the loop gathers always holds the marker of each file it has
    read, so the aggregate of a change set that is not empty is never
    blank. *)
Lemma aggregate_not_blank (diff : jsstring -> result jsstring)
    (changes : list Change) (acc fullDiff : jsstring) :
  aggregate diff changes acc = inr fullDiff ->
  blank acc = false \/ changes <> [] ->
  blank fullDiff = false.
Proof.
  revert acc. induction changes as [|c rest IH]; intros acc Hagg Hne.
  - simpl in Hagg. injection Hagg as <-. destruct Hne as [H|H]; [exact H | done].
  - cbn [aggregate] in Hagg. destruct (diff (fsPath c)) as [ex|d]; [discriminate|].
    apply (IH _ Hagg). left.
    apply (blank_false_intro _ 45%N); [|reflexivity].
    unfold fileSection. apply list_elem_of_In, in_or_app. right.
    apply in_or_app. right. apply in_or_app. left. vm_compute. by left.
Qed.

Lemma blank_nil : blank [] = true.
Proof. reflexivity. Qed.

Lemma aggregate_all_read (diff : jsstring -> result jsstring)
    (changes : list Change) (texts : list jsstring) (acc : jsstring) :
  Forall2 (fun c t => diff (fsPath c) = inr t) changes texts ->
  aggregate diff changes acc
  = inr (acc ++ concat (zip_with (fun c t => fileSection (fsPath c) t)
                          changes texts))
  /\ attempted diff changes = fsPath <$> changes.
Proof.
  intros H. revert acc. induction H as [|c t changes texts Hc _ IH]; intros acc.
  - cbn. by rewrite app_nil_r.
  - cbn [aggregate attempted zip_with concat fmap list_fmap]. rewrite Hc.
    destruct (IH (acc ++ fileSection (fsPath c) t)) as [-> ->].
    by rewrite <- app_assoc.
Qed.

Lemma postMessage_calls (e : Env) (m : webview_message) (w : World) :
  calls (postMessage e m) w = posted e m.
Proof. unfold postMessage, posted. by destruct (env_view e). Qed.

Lemma aggregate_fails (diff : jsstring -> result jsstring)
    (changes : list Change) (acc : jsstring) (c : Change) (ex : js_exn) :
  c ∈ changes -> diff (fsPath c) = inl ex ->
  exists ex', aggregate diff changes acc = inl ex'.
Proof.
  intros Hin Hc. revert acc.
  induction changes as [|c' rest IH]; intros acc; [by apply elem_of_nil in Hin|].
  cbn [aggregate]. destruct (diff (fsPath c')) as [ex'|d] eqn:E; [by eexists|].
  apply elem_of_cons in Hin as [->|Hin]; [congruence|]. by apply IH.
Qed.

Lemma getRepo_commit (e : Env) (w : World) :
  commit_calls (calls (getRepo e) w) = [].
Proof. by apply getRepo_calls_filter. Qed.

Lemma commit_guard (message : jsstring) :
  negb (truthy_str message) || negb (truthy_str (trim message))
  = blank message.
Proof. unfold blank. by destruct message. Qed.

Lemma getStoredApiKey_exec (e : Env) (w : World) :
  exec (getStoredApiKey e) w = w.
Proof. unfold getStoredApiKey. by destruct (env_secrets_get_fails e). Qed.

Lemma getStoredApiKey_calls (e : Env) (w : World) :
  calls (getStoredApiKey e) w = [EvSecretsGet API_KEY_SECRET_KEY].
Proof. unfold getStoredApiKey. by destruct (env_secrets_get_fails e). Qed.

Lemma preferOverride_set (ov : jsstring) (other : option jsstring) :
  blank ov = false ->
  preferOverride (Some ov) other = Some ov /\ truthy_str ov = true.
Proof.
  unfold blank, preferOverride. cbn [fmap option_fmap option_map truthy_ostr].
  destruct (truthy_str (trim ov)) eqn:E; [|discriminate]. intros _.
  split; [reflexivity|]. by destruct ov.
Qed.

Lemma sent_with_credential (key : jsstring) (e : Env) (w : World)
    (req : Request) :
  EvFetch req ∈ sent_with key e w ->
  req_authorization req = lit "Bearer " ++ key.
Proof.
  unfold sent_with. destruct (eval (getRepo e) w) as [repo|];
    [|by intros ?%elem_of_nil].
  destruct (aggregateOf repo) as [ex|d]; [by intros ?%elem_of_nil|].
  destruct (blank d); [by intros ?%elem_of_nil|].
  intros Hin%list_elem_of_singleton. by injection Hin as ->.
Qed.

Lemma secret_writes_app (l k : list event) :
  secret_writes (l ++ k) = secret_writes l ++ secret_writes k.
Proof. apply List.filter_app. Qed.

Lemma secret_writes_diffEvents (isStaged : bool) (paths : list jsstring) :
  secret_writes (diffEvent isStaged <$> paths) = [].
Proof. induction paths as [|p r IH]; [done|]. destruct isStaged; exact IH. Qed.

Lemma getRepo_no_write (e : Env) (w : World) :
  secret_writes (calls (getRepo e) w) = [].
Proof. by apply getRepo_calls_filter. Qed.

Lemma postMessage_no_write (e : Env) (m : webview_message) (w : World) :
  secret_writes (calls (postMessage e m) w) = [].
Proof. unfold postMessage. by destruct (env_view e). Qed.

Lemma sendDiffForSCM_no_write (e : Env) (key fullDiff : jsstring) (w : World) :
  secret_writes (calls (sendDiffForSCM e key fullDiff) w) = [].
Proof.
  unfold sendDiffForSCM. destruct (truthy_str (trim fullDiff)); cbn [negb];
    [|reflexivity].
  autorewrite with run. by case_match.
Qed.

Lemma sendDiffForPanel_no_write (e : Env) (key fullDiff : jsstring) (w : World) :
  secret_writes (calls (sendDiffForPanel e key fullDiff) w) = [].
Proof.
  unfold sendDiffForPanel, postMessage.
  destruct (truthy_str (trim fullDiff)); cbn [negb];
    [|by destruct (env_view e)].
  autorewrite with run. by case_match; destruct (env_view e).
Qed.

Lemma withKey_no_write (e : Env) (key : jsstring) (w : World) :
  secret_writes (calls (generateCommitMessageWithKey e key) w) = [].
Proof.
  unfold generateCommitMessageWithKey.
  rewrite calls_bind, secret_writes_app, getRepo_no_write, getRepo_exec.
  destruct (eval (getRepo e) w) as [repo|]; [|reflexivity].
  destruct (selectChanges repo) as [changes isStaged].
  destruct changes as [|c rest]; [reflexivity|].
  cbn [length Nat.eqb]. autorewrite with run.
  rewrite !secret_writes_app, secret_writes_diffEvents.
  destruct (aggregate (diffOf repo isStaged) (c :: rest) []) as [ex|d];
    [reflexivity|].
  by rewrite sendDiffForSCM_no_write.
Qed.

Lemma panel_no_write (e : Env) (apiKey : jsstring) (w : World) :
  secret_writes (calls (generateCommitMessage e apiKey) w) = [].
Proof.
  unfold generateCommitMessage.
  destruct (truthy_ostr (preferOverride (env_override e) (Some apiKey)));
    cbn [negb]; [|apply postMessage_no_write].
  rewrite calls_bind, secret_writes_app, getRepo_no_write, getRepo_exec.
  destruct (eval (getRepo e) w) as [repo|]; [|reflexivity].
  destruct (selectChanges repo) as [changes isStaged].
  destruct changes as [|c rest]; [apply postMessage_no_write|].
  cbn [length Nat.eqb]. autorewrite with run.
  rewrite !secret_writes_app, secret_writes_diffEvents, postMessage_no_write.
  destruct (aggregate (diffOf repo isStaged) (c :: rest) []) as [ex|d].
  - by rewrite postMessage_no_write.
  - by rewrite sendDiffForPanel_no_write.
Qed.

Lemma commitChanges_exec (e : Env) (message : jsstring) (w : World) :
  exec (commitChanges e message) w = w.
Proof.
  unfold commitChanges. rewrite commit_guard.
  destruct (blank message); [reflexivity|].
  rewrite exec_bind, getRepo_exec.
  destruct (eval (getRepo e) w) as [repo|]; [|reflexivity].
  destruct (indexChanges repo) as [|c rest]; [reflexivity|].
  cbn [length Nat.eqb]. autorewrite with run.
  destruct (commit repo (trim message)); by autorewrite with run.
Qed.

Lemma commitChanges_no_write (e : Env) (message : jsstring) (w : World) :
  secret_writes (calls (commitChanges e message) w) = [].
Proof.
  unfold commitChanges. rewrite commit_guard.
  destruct (blank message); [reflexivity|].
  rewrite calls_bind, secret_writes_app, getRepo_no_write, getRepo_exec.
  destruct (eval (getRepo e) w) as [repo|]; [|reflexivity].
  destruct (indexChanges repo) as [|c rest]; [reflexivity|].
  cbn [length Nat.eqb]. autorewrite with run.
  destruct (commit repo (trim message)); [reflexivity|].
  autorewrite with run. rewrite !secret_writes_app, postMessage_no_write.
  reflexivity.
Qed.

Lemma trim_good_key (key : jsstring) : blank key = false -> good_key (trim key).
Proof.
  intros Hb. split; [apply trim_idem|].
  unfold blank in Hb. by destruct (trim key).
Qed.

Lemma storeApiKey_calls (e : Env) (key : jsstring) (w : World) :
  calls (storeApiKey e key) w
  = if blank key then []
    else EvSecretsStore API_KEY_SECRET_KEY (trim key)
         :: (if env_secrets_store_fails e
             then [EvConsoleError MSG_STORE_FAILED] else []).
Proof.
  unfold storeApiKey, blank. cbv zeta.
  destruct (truthy_str (trim key)); [|reflexivity]. cbn [negb].
  by destruct (env_secrets_store_fails e).
Qed.

Lemma storeApiKey_secrets (e : Env) (key : jsstring) (w : World) :
  secrets (exec (storeApiKey e key) w)
  = if blank key || env_secrets_store_fails e then secrets w
    else <[API_KEY_SECRET_KEY := trim key]> (secrets w).
Proof.
  unfold storeApiKey, blank. cbv zeta.
  destruct (truthy_str (trim key)); [|reflexivity]. cbn [negb orb].
  by destruct (env_secrets_store_fails e).
Qed.

Lemma storeApiKey_store_ok (e : Env) (key : jsstring) (w : World) :
  store_ok w -> store_ok (exec (storeApiKey e key) w).
Proof.
  intros Hok v. rewrite storeApiKey_secrets.
  destruct (blank key) eqn:Hb; [apply Hok|]. cbn [orb].
  destruct (env_secrets_store_fails e); [apply Hok|].
  rewrite lookup_insert_eq. intros [= <-]. by apply trim_good_key.
Qed.

Lemma getStoredApiKey_eval (e : Env) (w : World) :
  eval (getStoredApiKey e) w
  = if env_secrets_get_fails e then None
    else match secrets w !! API_KEY_SECRET_KEY with
         | Some v => if blank v then None else Some (trim v)
         | None => None
         end.
Proof.
  unfold getStoredApiKey, blank. destruct (env_secrets_get_fails e);
    [reflexivity|].
  autorewrite with run.
  destruct (secrets w !! API_KEY_SECRET_KEY) as [v|]; [|reflexivity].
  by destruct (truthy_str (trim v)).
Qed.

Lemma scm_run (e : Env) (w : World) :
  (calls (generateCommitMessageForSCM e) w
   = EvSecretsGet API_KEY_SECRET_KEY
     :: calls (generateCommitMessageWithKey e
                 (the_string (preferOverride (env_override e)
                                (eval (getStoredApiKey e) w)))) w
   /\ secrets (exec (generateCommitMessageForSCM e) w) = secrets w)
  \/ (calls (generateCommitMessageForSCM e) w
      = [EvSecretsGet API_KEY_SECRET_KEY; EvShowInputBox;
         EvShowWarningMessage MSG_KEY_REQUIRED]
      /\ exec (generateCommitMessageForSCM e) w = w)
  \/ (exists inputKey : jsstring,
        calls (generateCommitMessageForSCM e) w
        = [EvSecretsGet API_KEY_SECRET_KEY; EvShowInputBox]
          ++ calls (storeApiKey e inputKey) w
          ++ calls (generateCommitMessageWithKey e inputKey)
               (exec (storeApiKey e inputKey) w)
        /\ secrets (exec (generateCommitMessageForSCM e) w)
           = secrets (exec (storeApiKey e inputKey) w)).
Proof.
  unfold generateCommitMessageForSCM. cbv zeta.
  rewrite calls_bind, exec_bind, getStoredApiKey_calls, getStoredApiKey_exec.
  destruct (truthy_ostr (preferOverride (env_override e)
                           (eval (getStoredApiKey e) w))); cbn [negb].
  - left. split; [reflexivity | apply withKey_secrets].
  - right. rewrite calls_bind, exec_bind, calls_emit, exec_emit.
    destruct (truthy_ostr (env_input e)); cbn [negb].
    + right. exists (the_string (env_input e)).
      rewrite calls_bind, exec_bind. split; [reflexivity|].
      apply withKey_secrets.
    + left. split; reflexivity.
Qed.

Lemma storeApiKey_writes (e : Env) (key : jsstring) (w : World) (ev : event) :
  ev ∈ secret_writes (calls (storeApiKey e key) w) ->
  exists v, ev = EvSecretsStore API_KEY_SECRET_KEY v /\ good_key v.
Proof.
  rewrite storeApiKey_calls. destruct (blank key) eqn:Hb;
    [by intros ?%elem_of_nil|].
  assert (Hw : secret_writes
                 (EvSecretsStore API_KEY_SECRET_KEY (trim key)
                  :: (if env_secrets_store_fails e
                      then [EvConsoleError MSG_STORE_FAILED] else []))
               = [EvSecretsStore API_KEY_SECRET_KEY (trim key)])
    by (by destruct (env_secrets_store_fails e)).
  rewrite Hw. intros ->%list_elem_of_singleton.
  exists (trim key). split; [reflexivity | by apply trim_good_key].
Qed.

(** ** The embedding at work *)

Example trim_both_ends :
  trim ([32; 160; 10]%N ++ lit "feat: add x" ++ [9; 8232; 32]%N)
  = lit "feat: add x".
Proof. reflexivity. Qed.

Example trim_keeps_inner_space : trim (lit " a  b ") = lit "a  b".
Proof. reflexivity. Qed.

Example to_string_array :
  to_string (JArr [JNum 1; JNull; JStr (lit "a"); JArr [JBool true; JNum (-2)]])
  = lit "1,,a,true,-2".
Proof. vm_compute. reflexivity. Qed.

Example http_fallback_message :
  handleResponse
    {| status := 500; statusText := lit "Internal Server Error";
       resp_json := inl (Thrown KSyntaxError (Some (lit "Unexpected token <"))) |}
  = inl (new_Error (lit "HTTP 500: Internal Server Error")).
Proof. vm_compute. reflexivity. Qed.

Example content_that_is_no_string :
  handleResponse
    (Scenario.respond 200 "OK"
       (JObj [(lit "choices",
               JArr [JObj [(lit "message", JObj [(lit "content", JNum 7)])]])]))
  = inl TYPE_ERROR_TRIM.
Proof. vm_compute. reflexivity. Qed.

(** staged = [bin.png] with an empty diff: the aggregate holds the marker
    line, so it is not blank and it is sent. *)
Example binary_only_change :
  let e := Scenario.env_of Scenario.repoBinary Scenario.okResponse in
  aggregateOf Scenario.repoBinary
  = inr (nl ++ lit "--- File: bin.png ---" ++ nl)
  /\ remote_calls (calls (generateCommitMessageWithKey e (lit "gsk_1"))
                     Scenario.w0)
     = [EvFetch (request (lit "gsk_1")
                   (nl ++ lit "--- File: bin.png ---" ++ nl))].
Proof. split; vm_compute; reflexivity. Qed.

(** The icon counter goes round 0..4. *)
Example icon_rotates :
  let e := Scenario.env_of Scenario.repoStaged Scenario.okResponse in
  iconIndex (exec (generateCommitMessageWithKey e (lit "gsk_1"))
               {| secrets := ∅; inputBox_value := []; iconIndex := 4 |}) = 0.
Proof. reflexivity. Qed.

(** ** The claims *)

(** C1. On an authentication-class status the stored API key should be
    cleared. The source does not do it: no generation flow started with a
    key ever changes the secret store, and at the concrete run below (the
    toolbar flow, key gsk_old stored, a.ts staged, the endpoint answering
    403 with the body {"error":{"message":"invalid key"}}) the error is
    shown, the key is still stored afterwards, and the next invocation
    sends it again without asking for a new one. *)
Theorem auth_failure_keeps_stored_key :
  (forall (e : Env) (apiKey : jsstring) (w : World),
      secrets (exec (generateCommitMessageWithKey e apiKey) w) = secrets w
      /\ secrets (exec (generateCommitMessage e apiKey) w) = secrets w)
  /\ let e := Scenario.env_of Scenario.repoStaged Scenario.forbiddenResponse in
     let w' := exec (generateCommitMessageForSCM e) Scenario.w_key in
     (EvShowErrorMessage (MSG_GROQ_PREFIX ++ lit "invalid key")
        ∈ calls (generateCommitMessageForSCM e) Scenario.w_key)
     /\ secrets w' !! API_KEY_SECRET_KEY = Some (lit "gsk_old")
     /\ (EvShowInputBox ∉ calls (generateCommitMessageForSCM e) w')
     /\ remote_calls (calls (generateCommitMessageForSCM e) w')
        = [EvFetch (request (lit "gsk_old")
                      (fileSection (lit "a.ts") (lit "+x")))].
Proof.
  split.
  - intros e apiKey w. split; [apply withKey_secrets|].
    by rewrite panel_exec.
  - cbv zeta. 
    assert (Hc : calls (generateCommitMessageForSCM
                   (Scenario.env_of Scenario.repoStaged Scenario.forbiddenResponse))
                   Scenario.w_key
                 = [EvSecretsGet API_KEY_SECRET_KEY;
                    EvSetContext CTX_GENERATING (CtxBool true);
                    EvSetContext CTX_ICON (CtxNum 0);
                    EvDiffIndexWithHEAD (lit "a.ts");
                    EvFetch (request (lit "gsk_old")
                               (fileSection (lit "a.ts") (lit "+x")));
                    EvShowErrorMessage (MSG_GROQ_PREFIX ++ lit "invalid key");
                    EvSetContext CTX_GENERATING (CtxBool false);
                    EvSetContext CTX_ICON (CtxNum (-1))])
      by (vm_compute; reflexivity).
    split; [rewrite Hc; set_solver|].
    split; [vm_compute; reflexivity|].
    split.
    + intros Hin. apply list_elem_of_In in Hin. revert Hin. vm_compute.
      intuition discriminate.
    + vm_compute. reflexivity.
Qed.

(** C2. A non-empty staged list is the change set, marked staged, whatever
    the working tree holds: every diff of the invocation is then an
    index-vs-HEAD diff of a staged path, asked for in the provider's order.
    With an empty staged list the working-tree list is the change set,
    marked non-staged, and every diff is a working-tree-vs-HEAD diff. This
    holds in the toolbar flow and in the panel flow. *)
Theorem staged_changes_take_priority
    (e : Env) (repo : Repository) (key apiKey : jsstring) (w : World) :
  available e repo ->
  truthy_ostr (finalApiKey e apiKey) = true ->
  (indexChanges repo <> [] ->
     selectChanges repo = (indexChanges repo, true)
     /\ diff_calls (calls (generateCommitMessageWithKey e key) w)
        = EvDiffIndexWithHEAD
          <$> attempted (diffIndexWithHEAD repo) (indexChanges repo)
     /\ diff_calls (calls (generateCommitMessage e apiKey) w)
        = EvDiffIndexWithHEAD
          <$> attempted (diffIndexWithHEAD repo) (indexChanges repo))
  /\ (indexChanges repo = [] ->
     selectChanges repo = (workingTreeChanges repo, false)
     /\ diff_calls (calls (generateCommitMessageWithKey e key) w)
        = EvDiffWithHEAD
          <$> attempted (diffWithHEAD repo) (workingTreeChanges repo)
     /\ diff_calls (calls (generateCommitMessage e apiKey) w)
        = EvDiffWithHEAD
          <$> attempted (diffWithHEAD repo) (workingTreeChanges repo)).
Proof.
  intros Hav Hkey. rewrite withKey_diffs, panel_diffs, Hkey, (Hav w).
  split; intros H.
  - by rewrite (selectChanges_staged repo H).
  - by rewrite (selectChanges_unstaged repo H).
Qed.

Lemma staged_changes_take_priority_witness :
  let e := Scenario.env_of Scenario.repoStaged Scenario.okResponse in
  available e Scenario.repoStaged
  /\ truthy_ostr (finalApiKey e (lit "gsk_1")) = true
  /\ indexChanges Scenario.repoStaged <> []
  /\ selectChanges Scenario.repoStaged = ([Scenario.change "a.ts"], true)
  /\ diff_calls (calls (generateCommitMessageWithKey e (lit "gsk_1")) Scenario.w0)
     = [EvDiffIndexWithHEAD (lit "a.ts")]
  /\ diff_calls (calls (generateCommitMessage e (lit "gsk_1")) Scenario.w0)
     = [EvDiffIndexWithHEAD (lit "a.ts")].
Proof.
  cbv zeta.
  assert (Hav : available (Scenario.env_of Scenario.repoStaged Scenario.okResponse)
                  Scenario.repoStaged) by (intros w; reflexivity).
  assert (Hne : indexChanges Scenario.repoStaged <> []) by discriminate.
  split; [exact Hav|]. split; [reflexivity|]. split; [exact Hne|].
  exact (proj1 (staged_changes_take_priority
                  (Scenario.env_of Scenario.repoStaged Scenario.okResponse)
                  Scenario.repoStaged (lit "gsk_1") (lit "gsk_1") Scenario.w0
                  Hav eq_refl) Hne).
Defined.






(** C5. With nothing staged and nothing modified the toolbar flow shows
    the warning "No changes detected (staged or working tree).", the
    panel flow posts it as an error, and nothing else happens after
    [getRepo]: no diff is asked for and no remote call is made. *)
Theorem no_changes_no_calls
    (e : Env) (repo : Repository) (key apiKey : jsstring) (w : World) :
  available e repo ->
  indexChanges repo = [] -> workingTreeChanges repo = [] ->
  truthy_ostr (finalApiKey e apiKey) = true ->
  calls (generateCommitMessageWithKey e key) w
  = calls (getRepo e) w ++ [EvShowWarningMessage MSG_NO_CHANGES]
  /\ calls (generateCommitMessage e apiKey) w
     = calls (getRepo e) w ++ posted e (MsgError MSG_NO_CHANGES)
  /\ diff_calls (calls (generateCommitMessageWithKey e key) w) = []
  /\ remote_calls (calls (generateCommitMessageWithKey e key) w) = []
  /\ diff_calls (calls (generateCommitMessage e apiKey) w) = []
  /\ remote_calls (calls (generateCommitMessage e apiKey) w) = [].
Proof.
  intros Hav Hi Hw Hkey.
  assert (Hsel : selectChanges repo = ([], false))
    by (by rewrite (selectChanges_unstaged repo Hi), Hw).
  assert (Hagg : aggregateOf repo = inr [])
    by (apply aggregate_nil_changes; by rewrite Hsel).
  rewrite withKey_diffs, withKey_remote, panel_diffs, panel_remote.
  rewrite Hkey, (Hav w), Hagg, Hsel. cbn [fst snd attempted fmap list_fmap].
  rewrite blank_nil.
  split; [|split; [|done]].
  - unfold generateCommitMessageWithKey.
    rewrite calls_bind, (Hav w), Hsel. reflexivity.
  - unfold generateCommitMessage. fold (finalApiKey e apiKey).
    rewrite Hkey. cbn [negb]. rewrite calls_bind, (Hav w), Hsel.
    unfold postMessage, posted. by destruct (env_view e).
Qed.

Lemma no_changes_no_calls_witness :
  let e := Scenario.env_of Scenario.repoClean Scenario.okResponse in
  available e Scenario.repoClean
  /\ indexChanges Scenario.repoClean = []
  /\ workingTreeChanges Scenario.repoClean = []
  /\ truthy_ostr (finalApiKey e (lit "gsk_1")) = true
  /\ calls (generateCommitMessageWithKey e (lit "gsk_1")) Scenario.w0
     = [EvShowWarningMessage MSG_NO_CHANGES]
  /\ calls (generateCommitMessage e (lit "gsk_1")) Scenario.w0
     = [EvPostMessage (MsgError MSG_NO_CHANGES)].
Proof.
  cbv zeta.
  assert (Hav : available (Scenario.env_of Scenario.repoClean Scenario.okResponse)
                  Scenario.repoClean) by (intros w; reflexivity).
  split; [exact Hav|]. do 3 (split; [reflexivity|]).
  pose proof (no_changes_no_calls
                (Scenario.env_of Scenario.repoClean Scenario.okResponse)
                Scenario.repoClean (lit "gsk_1") (lit "gsk_1") Scenario.w0
                Hav eq_refl eq_refl eq_refl) as H.
  split; [exact (proj1 H) | exact (proj1 (proj2 H))].
Defined.

(** C6. When every diff can be read, the loop asks for the diffs in the
    order of the change list and returns the concatenation, in that
    order, of "\n--- File: <path> ---\n" followed by the diff of the file.
    For staged = [a.ts] with diff "+x" the aggregate is
    "\n--- File: a.ts ---\n+x"; it is what the request carries, and the
    answer whose content is " feat: add x " gives "feat: add x", put into
    the input box by the toolbar flow and posted as the result by the
    panel flow. *)
Theorem aggregation_follows_provider_order :
  (forall (repo : Repository) (isStaged : bool) (changes : list Change)
          (texts : list jsstring) (w : World),
      Forall2 (fun c t => diffOf repo isStaged (fsPath c) = inr t)
        changes texts ->
      eval (collectDiffs repo isStaged changes []) w
      = inr (concat (zip_with
                       (fun c t => nl ++ lit "--- File: " ++ fsPath c
                                   ++ lit " ---" ++ nl ++ t)
                       changes texts))
      /\ calls (collectDiffs repo isStaged changes []) w
         = (fun c => diffEvent isStaged (fsPath c)) <$> changes)
  /\ let e := Scenario.env_of Scenario.repoStaged Scenario.okResponse in
     let aggregated := nl ++ lit "--- File: a.ts ---" ++ nl ++ lit "+x" in
     eval (collectDiffs Scenario.repoStaged true [Scenario.change "a.ts"] [])
       Scenario.w0 = inr aggregated
     /\ remote_calls (calls (generateCommitMessageWithKey e (lit "gsk_1"))
                        Scenario.w0)
        = [EvFetch (request (lit "gsk_1") aggregated)]
     /\ handleResponse Scenario.okResponse = inr (lit "feat: add x")
     /\ inputBox_value (exec (generateCommitMessageWithKey e (lit "gsk_1"))
                          Scenario.w0) = lit "feat: add x"
     /\ calls (generateCommitMessage e (lit "gsk_1")) Scenario.w0
        = [EvPostMessage MsgLoading; EvDiffIndexWithHEAD (lit "a.ts");
           EvFetch (request (lit "gsk_1") aggregated);
           EvPostMessage (MsgResult (lit "feat: add x"))].
Proof.
  split.
  - intros repo isStaged changes texts w H.
    rewrite collectDiffs_eval, collectDiffs_calls.
    destruct (aggregate_all_read _ _ _ [] H) as [-> ->].
    split; [reflexivity|]. by rewrite <- list_fmap_compose.
  - cbv zeta. repeat split; vm_compute; reflexivity.
Qed.

Lemma aggregation_follows_provider_order_witness :
  let repo := Scenario.repoStaged in
  let changes := [Scenario.change "a.ts"; Scenario.change "c.ts"] in
  Forall2 (fun c t => diffOf repo true (fsPath c) = inr t)
    changes [lit "+x"; lit "+x"]
  /\ eval (collectDiffs repo true changes []) Scenario.w0
     = inr (nl ++ lit "--- File: a.ts ---" ++ nl ++ lit "+x"
            ++ nl ++ lit "--- File: c.ts ---" ++ nl ++ lit "+x")
  /\ calls (collectDiffs repo true changes []) Scenario.w0
     = [EvDiffIndexWithHEAD (lit "a.ts"); EvDiffIndexWithHEAD (lit "c.ts")].
Proof.
  cbv zeta.
  assert (H : Forall2
                (fun c t => diffOf Scenario.repoStaged true (fsPath c) = inr t)
                [Scenario.change "a.ts"; Scenario.change "c.ts"]
                [lit "+x"; lit "+x"])
    by (repeat constructor).
  split; [exact H|].
  exact (proj1 aggregation_follows_provider_order
           Scenario.repoStaged true _ _ Scenario.w0 H).
Defined.

(** C7. When the diff of one file of the change set cannot be read, the
    loop stops there; the flow reports "Error reading git diffs." and
    ends, without a remote call: the toolbar flow shows the error and
    resets the generating state, the panel flow posts the error. *)
Theorem diff_failure_aborts
    (e : Env) (repo : Repository) (changes : list Change) (isStaged : bool)
    (c : Change) (ex : js_exn) (key apiKey : jsstring) (w : World) :
  available e repo ->
  selectChanges repo = (changes, isStaged) ->
  c ∈ changes -> diffOf repo isStaged (fsPath c) = inl ex ->
  truthy_ostr (finalApiKey e apiKey) = true ->
  calls (generateCommitMessageWithKey e key) w
  = calls (getRepo e) w
    ++ [EvSetContext CTX_GENERATING (CtxBool true);
        EvSetContext CTX_ICON (CtxNum (iconIndex w))]
    ++ (diffEvent isStaged <$> attempted (diffOf repo isStaged) changes)
    ++ [EvShowErrorMessage MSG_DIFF_READ;
        EvSetContext CTX_GENERATING (CtxBool false);
        EvSetContext CTX_ICON (CtxNum (-1))]
  /\ calls (generateCommitMessage e apiKey) w
     = calls (getRepo e) w ++ posted e MsgLoading
       ++ (diffEvent isStaged <$> attempted (diffOf repo isStaged) changes)
       ++ posted e (MsgError MSG_DIFF_READ)
  /\ remote_calls (calls (generateCommitMessageWithKey e key) w) = []
  /\ remote_calls (calls (generateCommitMessage e apiKey) w) = [].
Proof.
  intros Hav Hsel Hin Hc Hkey.
  destruct (aggregate_fails _ _ [] _ _ Hin Hc) as [ex' Hagg].
  assert (Hne : changes <> []) by (intros ->; by apply elem_of_nil in Hin).
  split; [|split; [|split]].
  - unfold generateCommitMessageWithKey.
    rewrite calls_bind, (Hav w), getRepo_exec, Hsel.
    destruct changes as [|c0 rest]; [done|]. cbn [length Nat.eqb].
    autorewrite with run. rewrite Hagg. autorewrite with run.
    cbn [app]. by rewrite <- !app_assoc.
  - unfold generateCommitMessage. fold (finalApiKey e apiKey).
    rewrite Hkey. cbn [negb].
    rewrite calls_bind, (Hav w), getRepo_exec, Hsel.
    destruct changes as [|c0 rest]; [done|]. cbn [length Nat.eqb].
    autorewrite with run. rewrite Hagg, !postMessage_calls.
    reflexivity.
  - rewrite withKey_remote, (Hav w). unfold aggregateOf.
    by rewrite Hsel; cbn [fst snd]; rewrite Hagg.
  - rewrite panel_remote, Hkey, (Hav w). unfold aggregateOf.
    by rewrite Hsel; cbn [fst snd]; rewrite Hagg.
Qed.

Lemma diff_failure_aborts_witness :
  let e := Scenario.env_of Scenario.repoBroken Scenario.okResponse in
  available e Scenario.repoBroken
  /\ selectChanges Scenario.repoBroken
     = ([Scenario.change "a.ts"; Scenario.change "c.ts"], true)
  /\ Scenario.change "a.ts" ∈ [Scenario.change "a.ts"; Scenario.change "c.ts"]
  /\ diffOf Scenario.repoBroken true (fsPath (Scenario.change "a.ts"))
     = inl (Thrown KRejection (Some (lit "git failed")))
  /\ truthy_ostr (finalApiKey e (lit "gsk_1")) = true
  /\ calls (generateCommitMessageWithKey e (lit "gsk_1")) Scenario.w0
     = [EvSetContext CTX_GENERATING (CtxBool true);
        EvSetContext CTX_ICON (CtxNum 0);
        EvDiffIndexWithHEAD (lit "a.ts");
        EvShowErrorMessage MSG_DIFF_READ;
        EvSetContext CTX_GENERATING (CtxBool false);
        EvSetContext CTX_ICON (CtxNum (-1))]
  /\ calls (generateCommitMessage e (lit "gsk_1")) Scenario.w0
     = [EvPostMessage MsgLoading; EvDiffIndexWithHEAD (lit "a.ts");
        EvPostMessage (MsgError MSG_DIFF_READ)].
Proof.
  cbv zeta.
  assert (Hav : available (Scenario.env_of Scenario.repoBroken Scenario.okResponse)
                  Scenario.repoBroken) by (intros w; reflexivity).
  assert (Hin : Scenario.change "a.ts"
                ∈ [Scenario.change "a.ts"; Scenario.change "c.ts"])
    by (left).
  split; [exact Hav|]. split; [reflexivity|]. split; [exact Hin|].
  split; [reflexivity|]. split; [reflexivity|].
  pose proof (diff_failure_aborts
                (Scenario.env_of Scenario.repoBroken Scenario.okResponse)
                Scenario.repoBroken _ true _ _ (lit "gsk_1") (lit "gsk_1")
                Scenario.w0 Hav eq_refl Hin eq_refl eq_refl) as H.
  split; [exact (proj1 H) | exact (proj1 (proj2 H))].
Defined.

(** C8. The commit step refuses a blank message before it looks at the
    repository: it shows "Commit message cannot be empty." and makes no
    other call. With a message that is not blank and nothing staged it
    shows "No staged changes to commit. Please stage your changes first."
    and does not call the commit operation. Otherwise it calls the commit
    operation once, with the message trimmed. *)
Theorem commit_refused_or_trimmed
    (e : Env) (message : jsstring) (w : World) :
  (blank message = true ->
     calls (commitChanges e message) w = [EvShowErrorMessage MSG_EMPTY_COMMIT])
  /\ (forall repo : Repository,
        available e repo -> blank message = false ->
        (indexChanges repo = [] ->
           calls (commitChanges e message) w
           = calls (getRepo e) w ++ [EvShowErrorMessage MSG_NOTHING_STAGED]
           /\ commit_calls (calls (commitChanges e message) w) = [])
        /\ (indexChanges repo <> [] ->
              calls (commitChanges e message) w
              = calls (getRepo e) w
                ++ EvCommit (trim message)
                   :: match commit repo (trim message) with
                      | inr _ => EvShowInformationMessage MSG_COMMITTED
                                 :: posted e MsgSuccess
                      | inl ex => [EvShowErrorMessage
                                     (MSG_COMMIT_PREFIX ++ message_of ex)]
                      end
              /\ commit_calls (calls (commitChanges e message) w)
                 = [EvCommit (trim message)])).
Proof.
  split.
  - intros Hb. unfold commitChanges. by rewrite commit_guard, Hb.
  - intros repo Hav Hb.
    assert (Hrun : calls (commitChanges e message) w
                   = calls (getRepo e) w
                     ++ calls (if (length (indexChanges repo) =? 0)%nat
                               then emit (EvShowErrorMessage MSG_NOTHING_STAGED)
                               else
                                 emit (EvCommit (trim message));;
                                 match commit repo (trim message) with
                                 | inr _ =>
                                     emit (EvShowInformationMessage MSG_COMMITTED);;
                                     postMessage e MsgSuccess
                                 | inl ex =>
                                     emit (EvShowErrorMessage
                                             (MSG_COMMIT_PREFIX ++ message_of ex))
                                 end) w).
    { unfold commitChanges. rewrite commit_guard, Hb.
      by rewrite calls_bind, (Hav w), getRepo_exec. }
    split; intros Hi.
    + rewrite Hrun, Hi. cbn [length Nat.eqb]. rewrite calls_emit.
      split; [reflexivity|].
      unfold commit_calls. rewrite List.filter_app.
      fold (commit_calls (calls (getRepo e) w)). by rewrite getRepo_commit.
    + rewrite Hrun. destruct (indexChanges repo) as [|c rest]; [done|].
      cbn [length Nat.eqb]. rewrite calls_bind, calls_emit, exec_emit.
      assert (Htail : calls
                        match commit repo (trim message) with
                        | inl ex =>
                            emit (EvShowErrorMessage
                                    (MSG_COMMIT_PREFIX ++ message_of ex))
                        | inr _ =>
                            emit (EvShowInformationMessage MSG_COMMITTED);;
                            postMessage e MsgSuccess
                        end w
                      = match commit repo (trim message) with
                        | inr _ => EvShowInformationMessage MSG_COMMITTED
                                   :: posted e MsgSuccess
                        | inl ex => [EvShowErrorMessage
                                       (MSG_COMMIT_PREFIX ++ message_of ex)]
                        end).
      { destruct (commit repo (trim message)); [reflexivity|].
        by rewrite calls_bind, calls_emit, exec_emit, postMessage_calls. }
      rewrite Htail. split; [reflexivity|].
      unfold commit_calls. rewrite List.filter_app.
      fold (commit_calls (calls (getRepo e) w)). rewrite getRepo_commit.
      destruct (commit repo (trim message)); [reflexivity|].
      unfold posted. by destruct (env_view e).
Qed.

Lemma commit_refused_or_trimmed_witness :
  let e := Scenario.env_of Scenario.repoStaged Scenario.okResponse in
  let e' := Scenario.env_of Scenario.repoUnstaged Scenario.okResponse in
  blank (lit "  ") = true
  /\ calls (commitChanges e (lit "  ")) Scenario.w0
     = [EvShowErrorMessage MSG_EMPTY_COMMIT]
  /\ available e' Scenario.repoUnstaged
  /\ blank (lit " fix: y ") = false
  /\ indexChanges Scenario.repoUnstaged = []
  /\ calls (commitChanges e' (lit " fix: y ")) Scenario.w0
     = [EvShowErrorMessage MSG_NOTHING_STAGED]
  /\ available e Scenario.repoStaged
  /\ indexChanges Scenario.repoStaged <> []
  /\ calls (commitChanges e (lit " fix: y ")) Scenario.w0
     = [EvCommit (lit "fix: y"); EvShowInformationMessage MSG_COMMITTED;
        EvPostMessage MsgSuccess].
Proof.
  cbv zeta.
  assert (Hav : available (Scenario.env_of Scenario.repoStaged Scenario.okResponse)
                  Scenario.repoStaged) by (intros w; reflexivity).
  assert (Hav' : available
                   (Scenario.env_of Scenario.repoUnstaged Scenario.okResponse)
                   Scenario.repoUnstaged) by (intros w; reflexivity).
  assert (Hne : indexChanges Scenario.repoStaged <> []) by discriminate.
  split; [reflexivity|].
  split; [exact (proj1 (commit_refused_or_trimmed _ (lit "  ") Scenario.w0)
                   eq_refl)|].
  split; [exact Hav'|]. split; [reflexivity|]. split; [reflexivity|].
  split; [exact (proj1 (proj1 (proj2 (commit_refused_or_trimmed
                   (Scenario.env_of Scenario.repoUnstaged Scenario.okResponse)
                   (lit " fix: y ") Scenario.w0) _ Hav' eq_refl) eq_refl))|].
  split; [exact Hav|]. split; [exact Hne|].
  exact (proj1 (proj2 (proj2 (commit_refused_or_trimmed
           (Scenario.env_of Scenario.repoStaged Scenario.okResponse)
           (lit " fix: y ") Scenario.w0) _ Hav eq_refl) Hne)).
Defined.

(** C9. When [OVERRIDE_MODEL_API_KEY], as the invocation finds it, is not
    blank, it is the credential of the remote call, whatever key is
    stored, typed into the prompt or sent by the panel: the toolbar flow
    goes on with it without showing the input box and without changing
    the secret store, the panel flow goes on with it in place of the key
    it was given, and every request of either flow carries
    "Bearer <override key>". *)
Theorem override_key_takes_precedence
    (e : Env) (ov apiKey : jsstring) (w : World) :
  env_override e = Some ov -> blank ov = false ->
  calls (generateCommitMessageForSCM e) w
  = EvSecretsGet API_KEY_SECRET_KEY :: calls (generateCommitMessageWithKey e ov) w
  /\ secrets (exec (generateCommitMessageForSCM e) w) = secrets w
  /\ remote_calls (calls (generateCommitMessageForSCM e) w) = sent_with ov e w
  /\ remote_calls (calls (generateCommitMessage e apiKey) w) = sent_with ov e w
  /\ (forall req : Request,
        EvFetch req ∈ calls (generateCommitMessageForSCM e) w
        \/ EvFetch req ∈ calls (generateCommitMessage e apiKey) w ->
        req_authorization req = lit "Bearer " ++ ov).
Proof.
  intros Hov Hb.
  assert (Hscm : forall w0, generateCommitMessageForSCM e w0
                 = (getStoredApiKey e;; generateCommitMessageWithKey e ov) w0).
  { intros w0. unfold generateCommitMessageForSCM. rewrite Hov.
    unfold mbind at 1 3, M_bind. cbv zeta.
    destruct (preferOverride_set ov (eval (getStoredApiKey e) w0) Hb) as [Hp Ht].
    unfold eval in Hp. rewrite Hp. cbn [truthy_ostr the_string default].
    by rewrite Ht. }
  assert (Hcalls : calls (generateCommitMessageForSCM e) w
                   = EvSecretsGet API_KEY_SECRET_KEY
                     :: calls (generateCommitMessageWithKey e ov) w).
  { unfold calls at 1. rewrite Hscm. fold (calls (getStoredApiKey e;; generateCommitMessageWithKey e ov) w).
    by rewrite calls_bind, getStoredApiKey_calls, getStoredApiKey_exec. }
  assert (Hremote : remote_calls (calls (generateCommitMessageForSCM e) w)
                    = sent_with ov e w).
  { rewrite Hcalls. cbn [remote_calls List.filter is_fetch].
    apply withKey_remote. }
  assert (Hpanel : remote_calls (calls (generateCommitMessage e apiKey) w)
                   = sent_with ov e w).
  { rewrite panel_remote. unfold finalApiKey. rewrite Hov.
    destruct (preferOverride_set ov (Some apiKey) Hb) as [-> Ht].
    cbn [truthy_ostr the_string default]. by rewrite Ht. }
  split; [exact Hcalls|]. split.
  { unfold exec at 1. rewrite Hscm.
    fold (exec (getStoredApiKey e;; generateCommitMessageWithKey e ov) w).
    by rewrite exec_bind, getStoredApiKey_exec, withKey_secrets. }
  split; [exact Hremote|]. split; [exact Hpanel|].
  intros req Hin. apply (sent_with_credential ov e w).
  destruct Hin as [Hin|Hin]; [rewrite <- Hremote | rewrite <- Hpanel];
    apply list_elem_of_In, List.filter_In; split;
    solve [by apply list_elem_of_In | reflexivity].
Qed.

Lemma override_key_takes_precedence_witness :
  let e := Scenario.env_override_of (lit " gsk_env ") Scenario.repoStaged
             Scenario.okResponse in
  env_override e = Some (lit " gsk_env ")
  /\ blank (lit " gsk_env ") = false
  /\ remote_calls (calls (generateCommitMessageForSCM e) Scenario.w_key)
     = [EvFetch (request (lit " gsk_env ")
                   (fileSection (lit "a.ts") (lit "+x")))]
  /\ remote_calls (calls (generateCommitMessage e (lit "gsk_typed")) Scenario.w_key)
     = [EvFetch (request (lit " gsk_env ")
                   (fileSection (lit "a.ts") (lit "+x")))].
Proof.
  cbv zeta. split; [reflexivity|]. split; [reflexivity|].
  pose proof (override_key_takes_precedence
                (Scenario.env_override_of (lit " gsk_env ") Scenario.repoStaged
                   Scenario.okResponse)
                (lit " gsk_env ") (lit "gsk_typed") Scenario.w_key
                eq_refl eq_refl) as H.
  split; [exact (proj1 (proj2 (proj2 H)))
         | exact (proj1 (proj2 (proj2 (proj2 H))))].
Defined.

(** C10. [storeApiKey] writes the trimmed key, and writes nothing when the
    key is blank; so every write to the secret store made by an entry
    point of the provider (the toolbar command, a message of the panel)
    is under the API-key name and carries a string that is not empty and
    that [trim] leaves unchanged, with no white space at either end, and
    a store that holds such a key or none keeps doing so.
    [getStoredApiKey] answers [undefined] when the read fails and when
    what is stored is blank, and a key it does answer is never blank. *)
Theorem stored_key_is_trimmed_nonempty (e : Env) (w : World) :
  (forall key : jsstring,
      calls (storeApiKey e key) w
      = (if blank key then []
         else EvSecretsStore API_KEY_SECRET_KEY (trim key)
              :: (if env_secrets_store_fails e
                  then [EvConsoleError MSG_STORE_FAILED] else []))
      /\ secrets (exec (storeApiKey e key) w)
         = (if blank key || env_secrets_store_fails e then secrets w
            else <[API_KEY_SECRET_KEY := trim key]> (secrets w))
      /\ (blank key = false ->
            good_key (trim key)
            /\ forall c : N,
                 head (trim key) = Some c \/ last (trim key) = Some c ->
                 is_white_space c = false))
  /\ (forall ev : event,
        ev ∈ secret_writes (calls (generateCommitMessageForSCM e) w)
        \/ (exists data, ev ∈ secret_writes (calls (onDidReceiveMessage e data) w)) ->
        exists v, ev = EvSecretsStore API_KEY_SECRET_KEY v /\ good_key v)
  /\ (store_ok w ->
        store_ok (exec (generateCommitMessageForSCM e) w)
        /\ forall data, store_ok (exec (onDidReceiveMessage e data) w))
  /\ (env_secrets_get_fails e = true -> eval (getStoredApiKey e) w = None)
  /\ (forall v : jsstring,
        secrets w !! API_KEY_SECRET_KEY = Some v -> blank v = true ->
        eval (getStoredApiKey e) w = None)
  /\ (forall k : jsstring,
        eval (getStoredApiKey e) w = Some k -> good_key k).
Proof.
  split; [|split; [|split; [|split; [|split]]]].
  - intros key. split; [apply storeApiKey_calls|].
    split; [apply storeApiKey_secrets|].
    intros Hb. split; [by apply trim_good_key|].
    intros c [H|H]; [by apply (trim_head key) | by apply (trim_last key)].
  - intros ev [Hin | [data Hin]].
    + destruct (scm_run e w) as [[Hc _] | [[Hc _] | (k & Hc & _)]];
        rewrite Hc in Hin.
      * cbn [secret_writes List.filter is_secret_store] in Hin.
        fold (secret_writes
                (calls (generateCommitMessageWithKey e
                   (the_string (preferOverride (env_override e)
                                  (eval (getStoredApiKey e) w)))) w)) in Hin.
        rewrite withKey_no_write in Hin. by apply elem_of_nil in Hin.
      * by apply elem_of_nil in Hin.
      * rewrite !secret_writes_app, withKey_no_write, app_nil_r in Hin.
        cbn [app secret_writes List.filter is_secret_store] in Hin.
        by apply (storeApiKey_writes e k w).
    + destruct data as [apiKey|message]; cbn [onDidReceiveMessage] in Hin.
      * rewrite panel_no_write in Hin. by apply elem_of_nil in Hin.
      * rewrite commitChanges_no_write in Hin. by apply elem_of_nil in Hin.
  - intros Hok. split.
    + intros v.
      destruct (scm_run e w) as [[_ Hs] | [[_ Hs] | (k & _ & Hs)]];
        rewrite Hs; [apply Hok | apply Hok |].
      by apply storeApiKey_store_ok.
    + intros [apiKey|message]; cbn [onDidReceiveMessage].
      * by rewrite panel_exec.
      * by rewrite commitChanges_exec.
  - intros Hf. by rewrite getStoredApiKey_eval, Hf.
  - intros v Hv Hb. rewrite getStoredApiKey_eval, Hv, Hb.
    by destruct (env_secrets_get_fails e).
  - intros k. rewrite getStoredApiKey_eval.
    destruct (env_secrets_get_fails e); [discriminate|].
    destruct (secrets w !! API_KEY_SECRET_KEY) as [v|]; [|discriminate].
    destruct (blank v) eqn:Hb; [discriminate|].
    intros [= <-]. by apply trim_good_key.
Qed.

Lemma stored_key_is_trimmed_nonempty_witness :
  let e := Scenario.env_input_of (lit "  gsk_new ") Scenario.repoStaged
             Scenario.okResponse in
  blank (lit "  gsk_new ") = false
  /\ calls (storeApiKey e (lit "  gsk_new ")) Scenario.w0
     = [EvSecretsStore API_KEY_SECRET_KEY (lit "gsk_new")]
  /\ good_key (lit "gsk_new")
  /\ (EvSecretsStore API_KEY_SECRET_KEY (lit "gsk_new")
        ∈ secret_writes (calls (generateCommitMessageForSCM e) Scenario.w0))
  /\ (exists v, EvSecretsStore API_KEY_SECRET_KEY (lit "gsk_new")
                = EvSecretsStore API_KEY_SECRET_KEY v /\ good_key v)
  /\ secrets Scenario.w_blank !! API_KEY_SECRET_KEY = Some (lit "   ")
  /\ blank (lit "   ") = true
  /\ eval (getStoredApiKey e) Scenario.w_blank = None.
Proof.
  cbv zeta.
  pose proof (stored_key_is_trimmed_nonempty
                (Scenario.env_input_of (lit "  gsk_new ") Scenario.repoStaged
                   Scenario.okResponse) Scenario.w0) as H.
  pose proof (stored_key_is_trimmed_nonempty
                (Scenario.env_input_of (lit "  gsk_new ") Scenario.repoStaged
                   Scenario.okResponse) Scenario.w_blank) as H'.
  assert (Hin : EvSecretsStore API_KEY_SECRET_KEY (lit "gsk_new")
                ∈ secret_writes
                    (calls (generateCommitMessageForSCM
                              (Scenario.env_input_of (lit "  gsk_new ")
                                 Scenario.repoStaged Scenario.okResponse))
                       Scenario.w0))
    by (apply list_elem_of_In; vm_compute; by left).
  assert (Hl : secrets Scenario.w_blank !! API_KEY_SECRET_KEY = Some (lit "   "))
    by (vm_compute; reflexivity).
  split; [reflexivity|].
  split; [exact (proj1 (proj1 H (lit "  gsk_new ")))|].
  split; [exact (proj1 (proj2 (proj2 (proj1 H (lit "  gsk_new "))) eq_refl))|].
  split; [exact Hin|].
  split; [exact (proj1 (proj2 H) _ (or_introl Hin))|].
  split; [exact Hl|]. split; [reflexivity|].
  exact (proj1 (proj2 (proj2 (proj2 (proj2 H')))) _ Hl eq_refl).
Defined.

(** ** Further properties of the provider *)

(** [getRepo] hands out the first repository when the git extension is
    there, is active or can be activated, and has a repository; it asks
    for activation only when the extension is not active; and when it
    hands out nothing it shows exactly one error message, the one of the
    step that failed. *)
Theorem getRepo_first_repository (e : Env) (w : World) :
  (forall repo : Repository,
      eval (getRepo e) w = Some repo <->
      exists g, env_git e = Some g
                /\ (isActive g = true \/ activate g = inr tt)
                /\ head (repositories g) = Some repo)
  /\ (forall repo : Repository,
        eval (getRepo e) w = Some repo ->
        calls (getRepo e) w
        = match env_git e with
          | Some g => if isActive g then [] else [EvActivateGit]
          | None => []
          end)
  /\ (eval (getRepo e) w = None ->
        calls (getRepo e) w
        = match env_git e with
          | None => [EvShowErrorMessage MSG_NO_GIT]
          | Some g =>
              (if isActive g then [] else [EvActivateGit])
              ++ [EvShowErrorMessage
                    (if isActive g then MSG_NO_REPO
                     else match activate g with
                          | inl _ => MSG_ACTIVATE
                          | inr _ => MSG_NO_REPO
                          end)]
          end).
Proof.
  unfold getRepo. destruct (env_git e) as [g|].
  - destruct (isActive g) eqn:Ha.
    + destruct (repositories g) as [|r rest] eqn:Hr.
      * split; [|split]; [|discriminate|reflexivity].
        intros repo. split; [discriminate|].
        intros (g' & [= <-] & _ & Hh). rewrite Hr in Hh. discriminate.
      * split; [|split]; [|reflexivity|discriminate].
        intros repo. split.
        -- intros [= <-]. exists g. rewrite Hr. by auto.
        -- intros (g' & [= <-] & _ & Hh). rewrite Hr in Hh.
           by injection Hh as ->.
    + destruct (activate g) as [ex|[]] eqn:Hact.
      * split; [|split]; [|discriminate|reflexivity].
        intros repo. split; [discriminate|].
        intros (g' & [= <-] & [H|H] & _); congruence.
      * destruct (repositories g) as [|r rest] eqn:Hr.
        -- split; [|split]; [|discriminate|reflexivity].
           intros repo. split; [discriminate|].
           intros (g' & [= <-] & _ & Hh). rewrite Hr in Hh. discriminate.
        -- split; [|split]; [|reflexivity|discriminate].
           intros repo. split.
           ++ intros [= <-]. exists g. rewrite Hr. by auto.
           ++ intros (g' & [= <-] & _ & Hh). rewrite Hr in Hh.
              by injection Hh as ->.
  - split; [|split]; [|discriminate|reflexivity].
    intros repo. split; [discriminate|]. by intros (g & [=] & _).
Qed.

Lemma getRepo_first_repository_witness :
  let e := Scenario.env_of Scenario.repoStaged Scenario.okResponse in
  let e' := Cases.env_no_repository in
  eval (getRepo e) Scenario.w0 = Some Scenario.repoStaged
  /\ calls (getRepo e) Scenario.w0 = []
  /\ eval (getRepo e') Scenario.w0 = None
  /\ calls (getRepo e') Scenario.w0
     = [EvActivateGit; EvShowErrorMessage MSG_NO_REPO].
Proof.
  cbv zeta.
  split; [reflexivity|].
  split; [exact (proj1 (proj2 (getRepo_first_repository
                   (Scenario.env_of Scenario.repoStaged Scenario.okResponse)
                   Scenario.w0)) _ eq_refl)|].
  split; [reflexivity|].
  exact (proj2 (proj2 (getRepo_first_repository Cases.env_no_repository
                         Scenario.w0)) eq_refl).
Defined.

Lemma blank_trim (s : jsstring) : blank (trim s) = blank s.
Proof. unfold blank. by rewrite trim_idem. Qed.

(** A key that was stored is read back trimmed; storing a blank key
    leaves what can be read back as it was. *)
Theorem stored_key_round_trip (e : Env) (key : jsstring) (w : World) :
  env_secrets_store_fails e = false ->
  env_secrets_get_fails e = false ->
  eval (getStoredApiKey e) (exec (storeApiKey e key) w)
  = if blank key then eval (getStoredApiKey e) w else Some (trim key).
Proof.
  intros Hs Hg. rewrite !getStoredApiKey_eval, Hg, storeApiKey_secrets, Hs.
  destruct (blank key) eqn:Hb; cbn [orb]; [reflexivity|].
  by rewrite lookup_insert_eq, blank_trim, Hb, trim_idem.
Qed.

Lemma stored_key_round_trip_witness :
  let e := Scenario.env_of Scenario.repoStaged Scenario.okResponse in
  env_secrets_store_fails e = false
  /\ env_secrets_get_fails e = false
  /\ eval (getStoredApiKey e)
       (exec (storeApiKey e (lit "  gsk_new ")) Scenario.w_key)
     = Some (lit "gsk_new")
  /\ eval (getStoredApiKey e) (exec (storeApiKey e (lit "  ")) Scenario.w_key)
     = Some (lit "gsk_old").
Proof.
  cbv zeta. split; [reflexivity|]. split; [reflexivity|].
  split.
  - exact (stored_key_round_trip
             (Scenario.env_of Scenario.repoStaged Scenario.okResponse)
             (lit "  gsk_new ") Scenario.w_key eq_refl eq_refl).
  - refine (eq_trans (stored_key_round_trip
             (Scenario.env_of Scenario.repoStaged Scenario.okResponse)
             (lit "  ") Scenario.w_key eq_refl eq_refl) _).
    vm_compute. reflexivity.
Defined.

Lemma handleResponse_good (r : Response) (text : jsstring) :
  handleResponse r = inr text ->
  ok r = true /\ text <> [] /\ trim text = text
  /\ exists (data : json) (raw : jsstring),
       resp_json r = inr data
       /\ truthy (prop (lit "error") data) = false
       /\ generatedText data = Some (JStr raw) /\ text = trim raw.
Proof.
  unfold handleResponse. destruct (ok r); cbn [negb]; [|discriminate].
  destruct (resp_json r) as [ex|data]; [discriminate|].
  destruct (read_error data) as [ex|err] eqn:Hre; [discriminate|].
  assert (Herr : err = prop (lit "error") data).
  { destruct data; cbn in Hre; try discriminate; by injection Hre as <-. }
  subst err. destruct (truthy (prop (lit "error") data)) eqn:Ht; [discriminate|].
  fold (generatedText data).
  destruct (generatedText data) as [[| | |raw| |]|] eqn:Hg;
    cbn [opt_trim truthy_ostr]; try discriminate.
  destruct (truthy_str (trim raw)) eqn:Hr; cbn [negb default]; [|discriminate].
  intros [= <-]. split; [reflexivity|].
  split; [by destruct (trim raw)|]. split; [apply trim_idem|].
  by exists data, raw.
Qed.

(** What [callGroq] returns from a response is never blank: it is the
    generated text of a success response without a truthy error field,
    trimmed, and it is not empty. *)
Theorem generated_text_is_trimmed_nonempty (r : Response) (text : jsstring) :
  handleResponse r = inr text ->
  ok r = true /\ text <> [] /\ trim text = text
  /\ exists (data : json) (raw : jsstring),
       resp_json r = inr data
       /\ truthy (prop (lit "error") data) = false
       /\ generatedText data = Some (JStr raw) /\ text = trim raw.
Proof. exact (handleResponse_good r text). Qed.

Lemma generated_text_is_trimmed_nonempty_witness :
  handleResponse Scenario.okResponse = inr (lit "feat: add x")
  /\ ok Scenario.okResponse = true
  /\ lit "feat: add x" <> []
  /\ trim (lit "feat: add x") = lit "feat: add x".
Proof.
  assert (H : handleResponse Scenario.okResponse = inr (lit "feat: add x"))
    by reflexivity.
  pose proof (generated_text_is_trimmed_nonempty _ _ H) as (H1 & H2 & H3 & _).
  exact (conj H (conj H1 (conj H2 H3))).
Defined.

(** *** The toolbar flow, call by call *)

Lemma callGroq_eval' (e : Env) (key diff : jsstring) (w : World) :
  eval (callGroq e key diff) w = remote_result e key diff.
Proof. apply callGroq_eval. Qed.

Lemma sendDiffForSCM_calls (e : Env) (key fullDiff : jsstring) (w : World) :
  calls (sendDiffForSCM e key fullDiff) w
  = if blank fullDiff then [EvShowErrorMessage MSG_EMPTY_DIFF]
    else EvFetch (request key fullDiff)
         :: match remote_result e key fullDiff with
            | inr text =>
                [EvSetInputBox text;
                 EvSetContext CTX_GENERATING (CtxBool false);
                 EvSetContext CTX_ICON (CtxNum (-1));
                 EvSetContext CTX_SUCCESS (CtxBool true);
                 EvSetTimeout 2000 CTX_SUCCESS (CtxBool false)]
            | inl ex => [EvShowErrorMessage (MSG_GROQ_PREFIX ++ message_of ex)]
            end.
Proof.
  unfold sendDiffForSCM, blank.
  destruct (truthy_str (trim fullDiff)); cbn [negb]; [|reflexivity].
  rewrite calls_bind, callGroq_calls, callGroq_exec, callGroq_eval'.
  by destruct (remote_result e key fullDiff).
Qed.

Lemma sendDiffForSCM_exec (e : Env) (key fullDiff : jsstring) (w : World) :
  exec (sendDiffForSCM e key fullDiff) w
  = if blank fullDiff then w
    else match remote_result e key fullDiff with
         | inr text => exec (write_inputBox text) w
         | inl _ => w
         end.
Proof.
  unfold sendDiffForSCM, blank.
  destruct (truthy_str (trim fullDiff)); cbn [negb]; [|reflexivity].
  rewrite exec_bind, callGroq_exec, callGroq_eval'.
  by destruct (remote_result e key fullDiff).
Qed.

(** The calls of the toolbar flow after [getRepo], for a repository. *)
Lemma withKey_calls (e : Env) (key : jsstring) (w : World) :
  calls (generateCommitMessageWithKey e key) w
  = calls (getRepo e) w
    ++ match eval (getRepo e) w with
       | None => []
       | Some repo =>
           if has_changes repo then
             [EvSetContext CTX_GENERATING (CtxBool true);
              EvSetContext CTX_ICON (CtxNum (iconIndex w))]
             ++ (diffEvent (selectChanges repo).2
                 <$> attempted (diffOf repo (selectChanges repo).2)
                       (selectChanges repo).1)
             ++ match aggregateOf repo with
                | inl _ => [EvShowErrorMessage MSG_DIFF_READ]
                | inr fullDiff => calls (sendDiffForSCM e key fullDiff) w
                end
             ++ reset_generating
           else [EvShowWarningMessage MSG_NO_CHANGES]
       end.
Proof.
  unfold generateCommitMessageWithKey.
  rewrite calls_bind, getRepo_exec. f_equal.
  destruct (eval (getRepo e) w) as [repo|]; [|reflexivity].
  unfold has_changes, aggregateOf.
  destruct (selectChanges repo) as [changes isStaged]. cbn [fst snd].
  destruct changes as [|c rest]; [reflexivity|].
  cbn [length Nat.eqb negb]. autorewrite with run.
  destruct (aggregate (diffOf repo isStaged) (c :: rest) []) as [ex|d].
  - autorewrite with run. cbn [app]. by rewrite <- !app_assoc.
  - rewrite !sendDiffForSCM_calls. cbn [app]. by rewrite <- !app_assoc.
Qed.

Lemma withKey_exec (e : Env) (key : jsstring) (w : World) :
  exec (generateCommitMessageWithKey e key) w
  = match eval (getRepo e) w with
    | None => w
    | Some repo =>
        if has_changes repo then
          let w' := exec (write_iconIndex ((iconIndex w + 1) `mod` 5)) w in
          match aggregateOf repo with
          | inl _ => w'
          | inr fullDiff => exec (sendDiffForSCM e key fullDiff) w'
          end
        else w
    end.
Proof.
  unfold generateCommitMessageWithKey.
  rewrite exec_bind, getRepo_exec.
  destruct (eval (getRepo e) w) as [repo|]; [|reflexivity].
  unfold has_changes, aggregateOf.
  destruct (selectChanges repo) as [changes isStaged]. cbn [fst snd].
  destruct changes as [|c rest]; [reflexivity|].
  cbn [length Nat.eqb negb]. autorewrite with run.
  by destruct (aggregate (diffOf repo isStaged) (c :: rest) []) as [ex|d].
Qed.

Lemma getRepo_kinds (e : Env) (w : World) :
  Forall (fun ev => is_generation_event ev = true) (calls (getRepo e) w).
Proof.
  unfold getRepo. destruct (env_git e) as [g|]; [|by repeat constructor].
  destruct (isActive g).
  - destruct (repositories g); by repeat constructor.
  - destruct (activate g); [by repeat constructor|].
    destruct (repositories g); by repeat constructor.
Qed.

Lemma diffEvents_kinds (isStaged : bool) (paths : list jsstring) :
  Forall (fun ev => is_generation_event ev = true) (diffEvent isStaged <$> paths).
Proof.
  induction paths as [|p r IH]; [constructor|].
  constructor; [by destruct isStaged | exact IH].
Qed.

Lemma withKey_kinds (e : Env) (key : jsstring) (w : World) :
  Forall (fun ev => is_generation_event ev = true)
    (calls (generateCommitMessageWithKey e key) w).
Proof.
  rewrite withKey_calls. apply Forall_app. split; [apply getRepo_kinds|].
  destruct (eval (getRepo e) w) as [repo|]; [|constructor].
  destruct (has_changes repo); [|by repeat constructor].
  repeat (apply Forall_app; split); try by repeat constructor.
  - apply diffEvents_kinds.
  - destruct (aggregateOf repo) as [ex|d]; [by repeat constructor|].
    rewrite sendDiffForSCM_calls. destruct (blank d); [by repeat constructor|].
    destruct (remote_result e key d); by repeat constructor.
Qed.

Lemma getRepo_sets_no_context (e : Env) (w : World) (k : jsstring)
    (v : context_value) :
  EvSetContext k v ∉ calls (getRepo e) w.
Proof.
  intros Hin.
  pose proof (getRepo_calls_filter
                (fun ev => match ev with EvSetContext _ _ => true | _ => false end)
                e w (fun _ => eq_refl) eq_refl) as Hf.
  apply list_elem_of_In in Hin.
  assert (Hin' : In (EvSetContext k v)
                   (List.filter
                      (fun ev => match ev with
                                 | EvSetContext _ _ => true | _ => false end)
                      (calls (getRepo e) w)))
    by (apply List.filter_In; by split).
  rewrite Hf in Hin'. destruct Hin'.
Qed.

(** The toolbar flow never leaves the generating state set: either it
    sets no context key at all (no repository, or no changes), or its
    last two calls put [diffDraft.isGenerating] back to false and
    [diffDraft.generatingIcon] back to -1, whatever happened in between
    (a diff that cannot be read, a blank aggregate, a remote failure, a
    success). *)
Theorem generating_state_is_always_reset
    (e : Env) (key : jsstring) (w : World) :
  (exists repo pre,
      eval (getRepo e) w = Some repo /\ has_changes repo = true
      /\ calls (generateCommitMessageWithKey e key) w
         = pre ++ reset_generating
      /\ EvSetContext CTX_GENERATING (CtxBool true) ∈ pre)
  \/ ((forall repo, eval (getRepo e) w = Some repo -> has_changes repo = false)
      /\ forall k v,
           EvSetContext k v ∉ calls (generateCommitMessageWithKey e key) w).
Proof.
  rewrite withKey_calls. destruct (eval (getRepo e) w) as [repo|] eqn:Hr.
  - destruct (has_changes repo) eqn:Hc.
    + left. exists repo. eexists. split; [reflexivity|]. split; [exact Hc|].
      split; [by rewrite !app_assoc|].
      rewrite !elem_of_app. left. left. right. left.
    + right. split; [by intros ? [= <-]|].
      intros k v Hin. apply elem_of_app in Hin as [Hin|Hin].
      * by apply getRepo_sets_no_context in Hin.
      * apply list_elem_of_singleton in Hin. discriminate.
  - right. split; [discriminate|]. intros k v. rewrite app_nil_r.
    apply getRepo_sets_no_context.
Qed.



Lemma generating_state_is_always_reset_witness :
  let e := Scenario.env_of Scenario.repoBroken Scenario.okResponse in
  exists pre,
    calls (generateCommitMessageWithKey e (lit "gsk_1")) Scenario.w0
    = pre ++ reset_generating
    /\ EvSetContext CTX_GENERATING (CtxBool true) ∈ pre.
Proof.
  cbv zeta.
  destruct (generating_state_is_always_reset
              (Scenario.env_of Scenario.repoBroken Scenario.okResponse)
              (lit "gsk_1") Scenario.w0)
    as [(repo & pre & _ & _ & Hc & Hin) | [Hno _]].
  - exists pre. by split.
  - specialize (Hno Scenario.repoBroken eq_refl). discriminate Hno.
Defined.

Lemma aggregate_changes_nonempty (repo : Repository) (fullDiff : jsstring) :
  aggregateOf repo = inr fullDiff -> blank fullDiff = false ->
  has_changes repo = true.
Proof.
  unfold aggregateOf, has_changes.
  destruct ((selectChanges repo).1) as [|c rest]; [|reflexivity].
  cbn [aggregate]. intros [= <-]. discriminate.
Qed.

Lemma aggregate_attempted_all (diff : jsstring -> result jsstring)
    (changes : list Change) (acc fullDiff : jsstring) :
  aggregate diff changes acc = inr fullDiff ->
  attempted diff changes = fsPath <$> changes.
Proof.
  revert acc. induction changes as [|c rest IH]; intros acc; [reflexivity|].
  cbn [aggregate attempted fmap list_fmap].
  destruct (diff (fsPath c)) as [ex|d]; [discriminate|].
  intros H. f_equal. by apply (IH _ H).
Qed.

(** The toolbar flow when the remote call returns a message: every file of
    the change set is read, one request is sent, the message is written
    into the SCM input box, the generating state is reset, the success
    flag is raised and a timer is set to lower it after 2000 ms. The
    [finally] block then runs all the same, so the reset is made twice. *)
Theorem toolbar_success_fills_input_box
    (e : Env) (repo : Repository) (key fullDiff text : jsstring) (w : World) :
  available e repo ->
  aggregateOf repo = inr fullDiff -> blank fullDiff = false ->
  remote_result e key fullDiff = inr text ->
  inputBox_value (exec (generateCommitMessageWithKey e key) w) = text
  /\ calls (generateCommitMessageWithKey e key) w
     = calls (getRepo e) w
       ++ [EvSetContext CTX_GENERATING (CtxBool true);
           EvSetContext CTX_ICON (CtxNum (iconIndex w))]
       ++ ((fun c => diffEvent (selectChanges repo).2 (fsPath c))
           <$> (selectChanges repo).1)
       ++ [EvFetch (request key fullDiff); EvSetInputBox text]
       ++ reset_generating
       ++ [EvSetContext CTX_SUCCESS (CtxBool true);
           EvSetTimeout 2000 CTX_SUCCESS (CtxBool false)]
       ++ reset_generating.
Proof.
  intros Hav Hagg Hb Hres.
  pose proof (aggregate_changes_nonempty repo fullDiff Hagg Hb) as Hc.
  split.
  - rewrite withKey_exec, (Hav w), Hc, Hagg. cbv zeta.
    by rewrite sendDiffForSCM_exec, Hb, Hres.
  - rewrite withKey_calls, (Hav w), Hc, Hagg, sendDiffForSCM_calls, Hb, Hres.
    unfold aggregateOf in Hagg.
    rewrite (aggregate_attempted_all _ _ _ _ Hagg), <- list_fmap_compose.
    reflexivity.
Qed.

Lemma toolbar_success_fills_input_box_witness :
  let e := Scenario.env_of Scenario.repoStaged Scenario.okResponse in
  let d := fileSection (lit "a.ts") (lit "+x") in
  available e Scenario.repoStaged
  /\ aggregateOf Scenario.repoStaged = inr d
  /\ blank d = false
  /\ remote_result e (lit "gsk_1") d = inr (lit "feat: add x")
  /\ inputBox_value (exec (generateCommitMessageWithKey e (lit "gsk_1"))
                       Scenario.w0) = lit "feat: add x".
Proof.
  cbv zeta.
  assert (Hav : available (Scenario.env_of Scenario.repoStaged Scenario.okResponse)
                  Scenario.repoStaged) by (intros w; reflexivity).
  split; [exact Hav|]. do 3 (split; [reflexivity|]).
  exact (proj1 (toolbar_success_fills_input_box
                  (Scenario.env_of Scenario.repoStaged Scenario.okResponse)
                  Scenario.repoStaged (lit "gsk_1")
                  (fileSection (lit "a.ts") (lit "+x")) (lit "feat: add x")
                  Scenario.w0 Hav eq_refl eq_refl eq_refl)).
Defined.

Lemma remote_result_good (e : Env) (key diff text : jsstring) :
  remote_result e key diff = inr text -> text <> [] /\ trim text = text.
Proof.
  unfold remote_result. destruct (env_fetch e (request key diff)) as [ex|r];
    [discriminate|].
  intros H. by destruct (handleResponse_good r text H)
    as (_ & ? & ? & _).
Qed.



(** *** The toolbar command: where the key comes from *)

Lemma getRepo_eval_indep (e : Env) (w w' : World) :
  eval (getRepo e) w = eval (getRepo e) w'.
Proof.
  unfold getRepo. destruct (env_git e) as [g|]; [|reflexivity].
  destruct (isActive g); [by destruct (repositories g)|].
  destruct (activate g); [reflexivity|]. by destruct (repositories g).
Qed.

Lemma sent_with_indep (key : jsstring) (e : Env) (w w' : World) :
  sent_with key e w = sent_with key e w'.
Proof. unfold sent_with. by rewrite (getRepo_eval_indep e w w'). Qed.

Lemma getStoredApiKey_truthy (e : Env) (w : World) :
  truthy_ostr (eval (getStoredApiKey e) w)
  = bool_decide (is_Some (eval (getStoredApiKey e) w)).
Proof.
  rewrite getStoredApiKey_eval. destruct (env_secrets_get_fails e); [done|].
  destruct (secrets w !! API_KEY_SECRET_KEY) as [v|]; [|done].
  unfold blank. destruct (trim v) eqn:E; [done|]. cbn. reflexivity.
Qed.

Lemma override_truthy (e : Env) :
  isOverrideActive e = true -> truthy_ostr (env_override e) = true.
Proof.
  unfold isOverrideActive. destruct (env_override e) as [ov|]; [|done].
  cbn. by destruct ov.
Qed.

(** The key the toolbar command has in hand before it asks the user. *)
Lemma key_in_hand (e : Env) (w : World) :
  truthy_ostr (preferOverride (env_override e) (eval (getStoredApiKey e) w))
  = isOverrideActive e || bool_decide (is_Some (eval (getStoredApiKey e) w)).
Proof.
  unfold preferOverride. fold (isOverrideActive e).
  destruct (isOverrideActive e) eqn:Ho; cbn [orb].
  - by apply override_truthy.
  - apply getStoredApiKey_truthy.
Qed.

Lemma scm_calls (e : Env) (w : World) :
  calls (generateCommitMessageForSCM e) w
  = EvSecretsGet API_KEY_SECRET_KEY
    :: (if isOverrideActive e
           || bool_decide (is_Some (eval (getStoredApiKey e) w))
        then calls (generateCommitMessageWithKey e
                      (the_string (preferOverride (env_override e)
                                     (eval (getStoredApiKey e) w)))) w
        else EvShowInputBox
             :: (if truthy_ostr (env_input e)
                 then calls (storeApiKey e (the_string (env_input e))) w
                      ++ calls (generateCommitMessageWithKey e
                                  (the_string (env_input e)))
                           (exec (storeApiKey e (the_string (env_input e))) w)
                 else [EvShowWarningMessage MSG_KEY_REQUIRED])).
Proof.
  rewrite <- key_in_hand. unfold generateCommitMessageForSCM. cbv zeta.
  rewrite calls_bind, getStoredApiKey_calls, getStoredApiKey_exec.
  cbn [app]. f_equal.
  destruct (truthy_ostr (preferOverride (env_override e)
                           (eval (getStoredApiKey e) w))); cbn [negb];
    [reflexivity|].
  rewrite calls_bind, calls_emit, exec_emit. cbn [app]. f_equal.
  destruct (truthy_ostr (env_input e)); cbn [negb]; [|reflexivity].
  by rewrite calls_bind.
Qed.

Lemma scm_exec (e : Env) (w : World) :
  exec (generateCommitMessageForSCM e) w
  = if isOverrideActive e
       || bool_decide (is_Some (eval (getStoredApiKey e) w))
    then exec (generateCommitMessageWithKey e
                 (the_string (preferOverride (env_override e)
                                (eval (getStoredApiKey e) w)))) w
    else if truthy_ostr (env_input e)
         then exec (generateCommitMessageWithKey e (the_string (env_input e)))
                (exec (storeApiKey e (the_string (env_input e))) w)
         else w.
Proof.
  rewrite <- key_in_hand. unfold generateCommitMessageForSCM. cbv zeta.
  rewrite exec_bind, getStoredApiKey_exec.
  destruct (truthy_ostr (preferOverride (env_override e)
                           (eval (getStoredApiKey e) w))); cbn [negb];
    [reflexivity|].
  rewrite exec_bind, exec_emit.
  destruct (truthy_ostr (env_input e)); cbn [negb]; [|reflexivity].
  by rewrite exec_bind.
Qed.

Lemma withKey_no_prompt (e : Env) (key : jsstring) (w : World) :
  EvShowInputBox ∉ calls (generateCommitMessageWithKey e key) w.
Proof.
  intros Hin. pose proof (withKey_kinds e key w) as Hk.
  rewrite Forall_forall in Hk. specialize (Hk _ Hin). discriminate Hk.
Qed.

Lemma scm_prompt_iff (e : Env) (w : World) :
  EvShowInputBox ∈ calls (generateCommitMessageForSCM e) w
  <-> isOverrideActive e = false
      /\ (env_secrets_get_fails e = true
          \/ secrets w !! API_KEY_SECRET_KEY = None
          \/ exists v, secrets w !! API_KEY_SECRET_KEY = Some v
                       /\ blank v = true).
Proof.
  rewrite scm_calls.
  assert (Hstored : eval (getStoredApiKey e) w = None
                    <-> env_secrets_get_fails e = true
                        \/ secrets w !! API_KEY_SECRET_KEY = None
                        \/ exists v, secrets w !! API_KEY_SECRET_KEY = Some v
                                     /\ blank v = true).
  { rewrite getStoredApiKey_eval. destruct (env_secrets_get_fails e).
    - split; [by left | done].
    - destruct (secrets w !! API_KEY_SECRET_KEY) as [v|].
      + destruct (blank v) eqn:Hb.
        * split; [|done]. intros _. right. right. by exists v.
        * split; [discriminate|].
          intros [H | [H | (v' & [= <-] & H)]]; congruence.
      + split; [|done]. intros _. right. by left. }
  rewrite <- Hstored.
  destruct (isOverrideActive e); cbn [orb].
  - split; [|by intros [? _]].
    intros Hin. apply elem_of_cons in Hin as [Hin|Hin]; [discriminate|].
    by apply withKey_no_prompt in Hin.
  - destruct (eval (getStoredApiKey e) w) as [k|] eqn:Hk.
    + rewrite bool_decide_eq_true_2 by (by eexists).
      split; [|by intros [_ ?]].
      intros Hin. apply elem_of_cons in Hin as [Hin|Hin]; [discriminate|].
      by apply withKey_no_prompt in Hin.
    + rewrite bool_decide_eq_false_2 by (by intros [? ?]).
      split; [done|]. intros _. right. left.
Qed.

(** The toolbar command asks for a key exactly when it has none: the
    override is unset or blank, and nothing usable can be read from the
    secret store (nothing stored, only white space stored, or the read
    fails). *)
Theorem prompt_only_without_key (e : Env) (w : World) :
  EvShowInputBox ∈ calls (generateCommitMessageForSCM e) w
  <-> isOverrideActive e = false
      /\ (env_secrets_get_fails e = true
          \/ secrets w !! API_KEY_SECRET_KEY = None
          \/ exists v, secrets w !! API_KEY_SECRET_KEY = Some v
                       /\ blank v = true).
Proof. exact (scm_prompt_iff e w). Qed.

Lemma prompt_only_without_key_witness :
  let e := Scenario.env_of Scenario.repoStaged Scenario.okResponse in
  isOverrideActive e = false
  /\ secrets Scenario.w_blank !! API_KEY_SECRET_KEY = Some (lit "   ")
  /\ blank (lit "   ") = true
  /\ EvShowInputBox ∈ calls (generateCommitMessageForSCM e) Scenario.w_blank.
Proof.
  cbv zeta.
  assert (Hl : secrets Scenario.w_blank !! API_KEY_SECRET_KEY = Some (lit "   "))
    by (vm_compute; reflexivity).
  split; [reflexivity|]. split; [exact Hl|]. split; [reflexivity|].
  apply (proj2 (prompt_only_without_key
                  (Scenario.env_of Scenario.repoStaged Scenario.okResponse)
                  Scenario.w_blank)).
  split; [reflexivity|]. right. right. exists (lit "   "). by split.
Defined.

Lemma remote_calls_storeApiKey (e : Env) (key : jsstring) (w : World) :
  remote_calls (calls (storeApiKey e key) w) = [].
Proof.
  rewrite storeApiKey_calls. destruct (blank key); [reflexivity|].
  by destruct (env_secrets_store_fails e).
Qed.

Lemma secret_writes_storeApiKey (e : Env) (key : jsstring) (w : World) :
  secret_writes (calls (storeApiKey e key) w)
  = if blank key then []
    else [EvSecretsStore API_KEY_SECRET_KEY (trim key)].
Proof.
  rewrite storeApiKey_calls. destruct (blank key); [reflexivity|].
  by destruct (env_secrets_store_fails e).
Qed.

Lemma scm_with_stored
    (e : Env) (stored : jsstring) (w : World) :
  isOverrideActive e = false ->
  env_secrets_get_fails e = false ->
  secrets w !! API_KEY_SECRET_KEY = Some stored -> blank stored = false ->
  calls (generateCommitMessageForSCM e) w
  = EvSecretsGet API_KEY_SECRET_KEY
    :: calls (generateCommitMessageWithKey e (trim stored)) w
  /\ remote_calls (calls (generateCommitMessageForSCM e) w)
     = sent_with (trim stored) e w
  /\ secrets (exec (generateCommitMessageForSCM e) w) = secrets w.
Proof.
  intros Ho Hg Hs Hb.
  assert (Hk : eval (getStoredApiKey e) w = Some (trim stored))
    by (by rewrite getStoredApiKey_eval, Hg, Hs, Hb).
  assert (Hc : calls (generateCommitMessageForSCM e) w
               = EvSecretsGet API_KEY_SECRET_KEY
                 :: calls (generateCommitMessageWithKey e (trim stored)) w).
  { rewrite scm_calls, Ho, Hk. cbn [orb].
    rewrite bool_decide_eq_true_2 by (by eexists).
    unfold preferOverride. fold (isOverrideActive e). by rewrite Ho. }
  split; [exact Hc|]. split.
  - rewrite Hc. cbn [remote_calls List.filter is_fetch]. apply withKey_remote.
  - rewrite scm_exec, Ho, Hk. cbn [orb].
    rewrite bool_decide_eq_true_2 by (by eexists). apply withKey_secrets.
Qed.

(** Without an override, a key read from the secret store is the
    credential, trimmed: the user is not asked, the store is not written,
    and the request carries "Bearer <trimmed stored key>". *)
Theorem stored_key_is_the_credential
    (e : Env) (stored : jsstring) (w : World) :
  isOverrideActive e = false ->
  env_secrets_get_fails e = false ->
  secrets w !! API_KEY_SECRET_KEY = Some stored -> blank stored = false ->
  calls (generateCommitMessageForSCM e) w
  = EvSecretsGet API_KEY_SECRET_KEY
    :: calls (generateCommitMessageWithKey e (trim stored)) w
  /\ remote_calls (calls (generateCommitMessageForSCM e) w)
     = sent_with (trim stored) e w
  /\ secrets (exec (generateCommitMessageForSCM e) w) = secrets w.
Proof. exact (scm_with_stored e stored w). Qed.

Lemma stored_key_is_the_credential_witness :
  let e := Scenario.env_of Scenario.repoStaged Scenario.okResponse in
  isOverrideActive e = false
  /\ env_secrets_get_fails e = false
  /\ secrets Scenario.w_key !! API_KEY_SECRET_KEY = Some (lit "gsk_old")
  /\ blank (lit "gsk_old") = false
  /\ remote_calls (calls (generateCommitMessageForSCM e) Scenario.w_key)
     = [EvFetch (request (lit "gsk_old")
                   (fileSection (lit "a.ts") (lit "+x")))].
Proof.
  cbv zeta.
  assert (Hl : secrets Scenario.w_key !! API_KEY_SECRET_KEY = Some (lit "gsk_old"))
    by (vm_compute; reflexivity).
  split; [reflexivity|]. split; [reflexivity|]. split; [exact Hl|].
  split; [reflexivity|].
  exact (proj1 (proj2 (stored_key_is_the_credential
                  (Scenario.env_of Scenario.repoStaged Scenario.okResponse)
                  (lit "gsk_old") Scenario.w_key eq_refl eq_refl Hl eq_refl))).
Defined.

(** A prompt that is dismissed, or answered with nothing, ends the
    command: a warning is shown, and the repository is not looked at, no
    diff is read, nothing is sent and nothing is stored. *)
Theorem dismissed_prompt_ends_the_command (e : Env) (w : World) :
  isOverrideActive e = false ->
  eval (getStoredApiKey e) w = None ->
  env_input e = None \/ env_input e = Some [] ->
  calls (generateCommitMessageForSCM e) w
  = [EvSecretsGet API_KEY_SECRET_KEY; EvShowInputBox;
     EvShowWarningMessage MSG_KEY_REQUIRED]
  /\ exec (generateCommitMessageForSCM e) w = w.
Proof.
  intros Ho Hk Hi.
  assert (Ht : truthy_ostr (env_input e) = false)
    by (by destruct Hi as [-> | ->]).
  rewrite scm_calls, scm_exec, Ho, Hk, Ht. cbn [orb].
  by rewrite bool_decide_eq_false_2 by (by intros [? ?]).
Qed.

Lemma dismissed_prompt_ends_the_command_witness :
  let e := Scenario.env_of Scenario.repoStaged Scenario.okResponse in
  isOverrideActive e = false
  /\ eval (getStoredApiKey e) Scenario.w0 = None
  /\ env_input e = None
  /\ calls (generateCommitMessageForSCM e) Scenario.w0
     = [EvSecretsGet API_KEY_SECRET_KEY; EvShowInputBox;
        EvShowWarningMessage MSG_KEY_REQUIRED].
Proof.
  cbv zeta. split; [reflexivity|]. split; [vm_compute; reflexivity|].
  split; [reflexivity|].
  refine (proj1 (dismissed_prompt_ends_the_command
                   (Scenario.env_of Scenario.repoStaged Scenario.okResponse)
                   Scenario.w0 eq_refl _ (or_introl eq_refl))).
  vm_compute. reflexivity.
Defined.

Lemma scm_after_prompt
    (e : Env) (inputKey : jsstring) (w : World) :
  isOverrideActive e = false ->
  eval (getStoredApiKey e) w = None ->
  env_input e = Some inputKey -> inputKey <> [] ->
  calls (generateCommitMessageForSCM e) w
  = [EvSecretsGet API_KEY_SECRET_KEY; EvShowInputBox]
    ++ calls (storeApiKey e inputKey) w
    ++ calls (generateCommitMessageWithKey e inputKey)
         (exec (storeApiKey e inputKey) w)
  /\ remote_calls (calls (generateCommitMessageForSCM e) w)
     = sent_with inputKey e w
  /\ secret_writes (calls (generateCommitMessageForSCM e) w)
     = (if blank inputKey then []
        else [EvSecretsStore API_KEY_SECRET_KEY (trim inputKey)])
  /\ secrets (exec (generateCommitMessageForSCM e) w)
     = (if blank inputKey || env_secrets_store_fails e then secrets w
        else <[API_KEY_SECRET_KEY := trim inputKey]> (secrets w)).
Proof.
  intros Ho Hk Hi Hne.
  assert (Ht : truthy_ostr (env_input e) = true)
    by (rewrite Hi; by destruct inputKey).
  assert (Hc : calls (generateCommitMessageForSCM e) w
               = [EvSecretsGet API_KEY_SECRET_KEY; EvShowInputBox]
                 ++ calls (storeApiKey e inputKey) w
                 ++ calls (generateCommitMessageWithKey e inputKey)
                      (exec (storeApiKey e inputKey) w)).
  { rewrite scm_calls, Ho, Hk, Ht. cbn [orb].
    rewrite bool_decide_eq_false_2 by (by intros [? ?]).
    by rewrite Hi. }
  split; [exact Hc|]. split; [|split].
  - rewrite Hc, !remote_calls_app, remote_calls_storeApiKey, withKey_remote.
    cbn [remote_calls List.filter is_fetch app].
    apply (sent_with_indep inputKey e).
  - rewrite Hc, !secret_writes_app, secret_writes_storeApiKey, withKey_no_write.
    cbn [secret_writes List.filter is_secret_store app]. by rewrite app_nil_r.
  - rewrite scm_exec, Ho, Hk, Ht. cbn [orb].
    rewrite bool_decide_eq_false_2 by (by intros [? ?]).
    rewrite Hi. cbn [the_string default].
    by rewrite withKey_secrets, storeApiKey_secrets.
Qed.

(** A key typed into the prompt is stored trimmed but used as typed: the
    request of this invocation carries the key with whatever white space
    was typed around it, while the store receives the trimmed key. A key
    of white space only is used as the credential and is not stored. *)
Theorem typed_key_is_used_as_typed
    (e : Env) (inputKey : jsstring) (w : World) :
  isOverrideActive e = false ->
  eval (getStoredApiKey e) w = None ->
  env_input e = Some inputKey -> inputKey <> [] ->
  calls (generateCommitMessageForSCM e) w
  = [EvSecretsGet API_KEY_SECRET_KEY; EvShowInputBox]
    ++ calls (storeApiKey e inputKey) w
    ++ calls (generateCommitMessageWithKey e inputKey)
         (exec (storeApiKey e inputKey) w)
  /\ remote_calls (calls (generateCommitMessageForSCM e) w)
     = sent_with inputKey e w
  /\ secret_writes (calls (generateCommitMessageForSCM e) w)
     = (if blank inputKey then []
        else [EvSecretsStore API_KEY_SECRET_KEY (trim inputKey)])
  /\ secrets (exec (generateCommitMessageForSCM e) w)
     = (if blank inputKey || env_secrets_store_fails e then secrets w
        else <[API_KEY_SECRET_KEY := trim inputKey]> (secrets w)).
Proof. exact (scm_after_prompt e inputKey w). Qed.

Lemma typed_key_is_used_as_typed_witness :
  let e := Scenario.env_input_of (lit "  gsk_new ") Scenario.repoStaged
             Scenario.okResponse in
  isOverrideActive e = false
  /\ eval (getStoredApiKey e) Scenario.w0 = None
  /\ env_input e = Some (lit "  gsk_new ")
  /\ lit "  gsk_new " <> []
  /\ remote_calls (calls (generateCommitMessageForSCM e) Scenario.w0)
     = [EvFetch (request (lit "  gsk_new ")
                   (fileSection (lit "a.ts") (lit "+x")))]
  /\ secret_writes (calls (generateCommitMessageForSCM e) Scenario.w0)
     = [EvSecretsStore API_KEY_SECRET_KEY (lit "gsk_new")].
Proof.
  cbv zeta.
  assert (Hk : eval (getStoredApiKey
                       (Scenario.env_input_of (lit "  gsk_new ")
                          Scenario.repoStaged Scenario.okResponse))
                 Scenario.w0 = None) by (vm_compute; reflexivity).
  assert (Hne : lit "  gsk_new " <> []) by discriminate.
  split; [reflexivity|]. split; [exact Hk|]. split; [reflexivity|].
  split; [exact Hne|].
  pose proof (typed_key_is_used_as_typed
                (Scenario.env_input_of (lit "  gsk_new ") Scenario.repoStaged
                   Scenario.okResponse)
                (lit "  gsk_new ") Scenario.w0 eq_refl Hk eq_refl Hne)
    as (_ & H2 & H3 & _).
  split; [exact H2 | exact H3].
Defined.

(** After a key was typed into the prompt, the next invocation asks again
    exactly when the key could not be kept: it was blank, or the secret
    store rejected the write. When it was kept, the next invocation sends
    the trimmed key without asking. *)
Theorem next_invocation_after_prompt
    (e : Env) (inputKey : jsstring) (w : World) :
  isOverrideActive e = false ->
  env_secrets_get_fails e = false ->
  eval (getStoredApiKey e) w = None ->
  env_input e = Some inputKey -> inputKey <> [] ->
  let w' := exec (generateCommitMessageForSCM e) w in
  (EvShowInputBox ∈ calls (generateCommitMessageForSCM e) w'
   <-> blank inputKey = true \/ env_secrets_store_fails e = true)
  /\ (blank inputKey = false -> env_secrets_store_fails e = false ->
      remote_calls (calls (generateCommitMessageForSCM e) w')
      = sent_with (trim inputKey) e w).
Proof.
  intros Ho Hg Hk Hi Hne. cbv zeta.
  destruct (scm_after_prompt e inputKey w Ho Hk Hi Hne) as (_ & _ & _ & Hs).
  split.
  - rewrite scm_prompt_iff, Hs. rewrite Hg.
    pose proof Hk as Hk'. rewrite getStoredApiKey_eval, Hg in Hk'.
    destruct (blank inputKey) eqn:Hb; cbn [orb].
    + split; [by left|]. intros _. split; [exact Ho|]. right.
      destruct (secrets w !! API_KEY_SECRET_KEY) as [v|]; [|by left].
      right. exists v. split; [reflexivity|]. by destruct (blank v).
    + destruct (env_secrets_store_fails e).
      * cbv iota. split; [by right|]. intros _. split; [exact Ho|]. right.
        destruct (secrets w !! API_KEY_SECRET_KEY) as [v|]; [|by left].
        right. exists v. split; [reflexivity|]. by destruct (blank v).
      * cbv iota.
        assert (Hl : <[API_KEY_SECRET_KEY := trim inputKey]> (secrets w)
                       !! API_KEY_SECRET_KEY = Some (trim inputKey))
          by apply lookup_insert_eq.
        rewrite Hl. split; [|by intros [|]].
        intros [_ [H | [H | (v & [= <-] & H)]]]; try discriminate.
        rewrite blank_trim in H. congruence.
  - intros Hb Hst.
    assert (Hl : secrets (exec (generateCommitMessageForSCM e) w)
                   !! API_KEY_SECRET_KEY = Some (trim inputKey))
      by (rewrite Hs, Hb, Hst; apply lookup_insert_eq).
    destruct (scm_with_stored e (trim inputKey)
                (exec (generateCommitMessageForSCM e) w) Ho Hg Hl)
      as (_ & H & _); [by rewrite blank_trim|].
    rewrite H, trim_idem. apply sent_with_indep.
Qed.

Lemma next_invocation_after_prompt_witness :
  let e := Scenario.env_input_of (lit "  gsk_new ") Scenario.repoStaged
             Scenario.okResponse in
  let w' := exec (generateCommitMessageForSCM e) Scenario.w0 in
  isOverrideActive e = false
  /\ env_secrets_get_fails e = false
  /\ eval (getStoredApiKey e) Scenario.w0 = None
  /\ env_input e = Some (lit "  gsk_new ")
  /\ lit "  gsk_new " <> []
  /\ blank (lit "  gsk_new ") = false
  /\ env_secrets_store_fails e = false
  /\ remote_calls (calls (generateCommitMessageForSCM e) w')
     = [EvFetch (request (lit "gsk_new")
                   (fileSection (lit "a.ts") (lit "+x")))].
Proof.
  cbv zeta.
  assert (Hk : eval (getStoredApiKey
                       (Scenario.env_input_of (lit "  gsk_new ")
                          Scenario.repoStaged Scenario.okResponse))
                 Scenario.w0 = None) by (vm_compute; reflexivity).
  assert (Hne : lit "  gsk_new " <> []) by discriminate.
  split; [reflexivity|]. split; [reflexivity|]. split; [exact Hk|].
  split; [reflexivity|]. split; [exact Hne|]. split; [reflexivity|].
  split; [reflexivity|].
  exact (proj2 (next_invocation_after_prompt
                  (Scenario.env_input_of (lit "  gsk_new ") Scenario.repoStaged
                     Scenario.okResponse)
                  (lit "  gsk_new ") Scenario.w0 eq_refl eq_refl Hk eq_refl Hne)
           eq_refl eq_refl).
Defined.

(** *** The panel flow: what the page is told *)

Lemma posts_app (l k : list event) : posts (l ++ k) = posts l ++ posts k.
Proof. apply omap_app. Qed.

Lemma posts_getRepo (e : Env) (w : World) : posts (calls (getRepo e) w) = [].
Proof.
  unfold getRepo. destruct (env_git e) as [g|]; [|reflexivity].
  destruct (isActive g); [by destruct (repositories g)|].
  destruct (activate g); [reflexivity|]. by destruct (repositories g).
Qed.

Lemma posts_diffEvents (isStaged : bool) (paths : list jsstring) :
  posts (diffEvent isStaged <$> paths) = [].
Proof. induction paths as [|p r IH]; [done|]. destruct isStaged; exact IH. Qed.

Lemma posts_postMessage (e : Env) (m : webview_message) (w : World) :
  env_view e = true -> posts (calls (postMessage e m) w) = [m].
Proof. intros Hv. unfold postMessage. by rewrite Hv. Qed.

Lemma sendDiffForPanel_posts (e : Env) (key fullDiff : jsstring) (w : World) :
  env_view e = true ->
  posts (calls (sendDiffForPanel e key fullDiff) w)
  = [if blank fullDiff then MsgError MSG_EMPTY_DIFF
     else match remote_result e key fullDiff with
          | inr text => MsgResult text
          | inl ex => MsgError (MSG_GROQ_PREFIX ++ message_of ex)
          end].
Proof.
  intros Hv. unfold sendDiffForPanel, blank.
  destruct (truthy_str (trim fullDiff)); cbn [negb];
    [|by apply posts_postMessage].
  rewrite calls_bind, callGroq_calls, callGroq_exec, callGroq_eval', posts_app.
  destruct (remote_result e key fullDiff); by rewrite posts_postMessage.
Qed.

Lemma finalApiKey_truthy (e : Env) (apiKey : jsstring) :
  truthy_ostr (finalApiKey e apiKey) = isOverrideActive e || truthy_str apiKey.
Proof.
  unfold finalApiKey, preferOverride. fold (isOverrideActive e).
  destruct (isOverrideActive e) eqn:Ho; [|reflexivity].
  by apply override_truthy.
Qed.

(** What the panel flow posts, with the view resolved. *)
Lemma panel_posts (e : Env) (apiKey : jsstring) (w : World) :
  env_view e = true ->
  posts (calls (generateCommitMessage e apiKey) w)
  = if isOverrideActive e || truthy_str apiKey then
      match eval (getRepo e) w with
      | None => []
      | Some repo =>
          if has_changes repo then
            [MsgLoading;
             match aggregateOf repo with
             | inl _ => MsgError MSG_DIFF_READ
             | inr fullDiff =>
                 if blank fullDiff then MsgError MSG_EMPTY_DIFF
                 else match remote_result e
                              (the_string (finalApiKey e apiKey)) fullDiff with
                      | inr text => MsgResult text
                      | inl ex => MsgError (MSG_GROQ_PREFIX ++ message_of ex)
                      end
             end]
          else [MsgError MSG_NO_CHANGES]
      end
    else [MsgError MSG_ENTER_KEY].
Proof.
  intros Hv. rewrite <- finalApiKey_truthy.
  unfold generateCommitMessage. cbv zeta. fold (finalApiKey e apiKey).
  destruct (truthy_ostr (finalApiKey e apiKey)); cbn [negb];
    [|by apply posts_postMessage].
  rewrite calls_bind, posts_app, posts_getRepo, getRepo_exec.
  destruct (eval (getRepo e) w) as [repo|]; [|reflexivity].
  unfold has_changes, aggregateOf.
  destruct (selectChanges repo) as [changes isStaged]. cbn [fst snd].
  destruct changes as [|c rest]; [by apply posts_postMessage|].
  cbn [length Nat.eqb negb]. autorewrite with run.
  rewrite !posts_app, posts_diffEvents, posts_postMessage by exact Hv.
  destruct (aggregate (diffOf repo isStaged) (c :: rest) []) as [ex|d].
  - by rewrite posts_postMessage.
  - by rewrite sendDiffForPanel_posts.
Qed.

(** With the view resolved and a repository at hand, the panel flow tells
    the page how the generation ended exactly once, as the last message:
    an error, or a result that is neither empty nor padded with white
    space; the only message that can come before it is "loading". Without
    a key it posts "Please enter a Groq API Key." and looks at nothing
    else. *)
Theorem panel_posts_one_final_message
    (e : Env) (apiKey : jsstring) (w : World) :
  env_view e = true ->
  (isOverrideActive e = false -> apiKey = [] ->
     calls (generateCommitMessage e apiKey) w
     = [EvPostMessage (MsgError MSG_ENTER_KEY)])
  /\ (forall repo : Repository,
        isOverrideActive e = true \/ apiKey <> [] ->
        eval (getRepo e) w = Some repo ->
        exists m : webview_message,
          terminal m = true
          /\ (posts (calls (generateCommitMessage e apiKey) w) = [m]
              \/ posts (calls (generateCommitMessage e apiKey) w)
                 = [MsgLoading; m])
          /\ forall text, m = MsgResult text -> text <> [] /\ trim text = text).
Proof.
  intros Hv. split.
  - intros Ho ->. unfold generateCommitMessage. cbv zeta.
    fold (finalApiKey e []). 
    assert (Ht : truthy_ostr (finalApiKey e []) = false)
      by (by rewrite finalApiKey_truthy, Ho).
    rewrite Ht. cbn [negb]. unfold postMessage. by rewrite Hv.
  - intros repo Hkey Hr. rewrite (panel_posts e apiKey w Hv), Hr.
    assert (Ht : isOverrideActive e || truthy_str apiKey = true).
    { destruct Hkey as [-> | Hne]; [reflexivity|].
      destruct apiKey; [done|]. apply orb_true_r. }
    rewrite Ht. destruct (has_changes repo).
    + destruct (aggregateOf repo) as [ex|d].
      * exists (MsgError MSG_DIFF_READ). split; [reflexivity|].
        split; [by right | discriminate].
      * destruct (blank d).
        -- exists (MsgError MSG_EMPTY_DIFF). split; [reflexivity|].
           split; [by right | discriminate].
        -- destruct (remote_result e (the_string (finalApiKey e apiKey)) d)
             as [ex|text] eqn:Hres.
           ++ eexists (MsgError _). split; [reflexivity|].
              split; [by right | discriminate].
           ++ exists (MsgResult text). split; [reflexivity|].
              split; [by right|]. intros t [= <-].
              exact (remote_result_good _ _ _ _ Hres).
    + exists (MsgError MSG_NO_CHANGES). split; [reflexivity|].
      split; [by left | discriminate].
Qed.

Lemma panel_posts_one_final_message_witness :
  let e := Scenario.env_of Scenario.repoStaged Scenario.okResponse in
  env_view e = true
  /\ isOverrideActive e = false
  /\ calls (generateCommitMessage e []) Scenario.w0
     = [EvPostMessage (MsgError MSG_ENTER_KEY)]
  /\ lit "gsk_1" <> []
  /\ eval (getRepo e) Scenario.w0 = Some Scenario.repoStaged
  /\ exists m : webview_message,
       terminal m = true
       /\ (posts (calls (generateCommitMessage e (lit "gsk_1")) Scenario.w0) = [m]
           \/ posts (calls (generateCommitMessage e (lit "gsk_1")) Scenario.w0)
              = [MsgLoading; m]).
Proof.
  cbv zeta.
  pose proof (panel_posts_one_final_message
                (Scenario.env_of Scenario.repoStaged Scenario.okResponse)
                [] Scenario.w0 eq_refl) as [H1 _].
  pose proof (panel_posts_one_final_message
                (Scenario.env_of Scenario.repoStaged Scenario.okResponse)
                (lit "gsk_1") Scenario.w0 eq_refl) as [_ H2].
  assert (Hne : lit "gsk_1" <> []) by discriminate.
  split; [reflexivity|]. split; [reflexivity|].
  split; [exact (H1 eq_refl eq_refl)|]. split; [exact Hne|].
  split; [reflexivity|].
  destruct (H2 Scenario.repoStaged (or_intror Hne) eq_refl) as (m & Ht & Hp & _).
  exists m. by split.
Defined.

(** Without a repository the panel flow posts nothing at all to the page:
    [getRepo] shows its error as a notification of the editor and the flow
    returns. *)
Theorem panel_is_told_nothing_without_repository
    (e : Env) (apiKey : jsstring) (w : World) :
  isOverrideActive e = true \/ apiKey <> [] ->
  eval (getRepo e) w = None ->
  calls (generateCommitMessage e apiKey) w = calls (getRepo e) w
  /\ posts (calls (generateCommitMessage e apiKey) w) = []
  /\ exists m, last (calls (generateCommitMessage e apiKey) w)
               = Some (EvShowErrorMessage m).
Proof.
  intros Hkey Hr.
  assert (Ht : truthy_ostr (finalApiKey e apiKey) = true).
  { rewrite finalApiKey_truthy. destruct Hkey as [-> | Hne]; [reflexivity|].
    destruct apiKey; [done|]. apply orb_true_r. }
  assert (Hc : calls (generateCommitMessage e apiKey) w = calls (getRepo e) w).
  { unfold generateCommitMessage. cbv zeta. fold (finalApiKey e apiKey).
    rewrite Ht. cbn [negb]. rewrite calls_bind, Hr. apply app_nil_r. }
  split; [exact Hc|]. rewrite Hc. split; [apply posts_getRepo|].
  revert Hr. unfold getRepo. destruct (env_git e) as [g|]; [|by eexists].
  destruct (isActive g).
  - destruct (repositories g); [by eexists | discriminate].
  - destruct (activate g); [by eexists|].
    destruct (repositories g); [by eexists | discriminate].
Qed.

Lemma panel_is_told_nothing_without_repository_witness :
  let e := Cases.env_no_repository in
  lit "gsk_1" <> []
  /\ eval (getRepo e) Scenario.w0 = None
  /\ posts (calls (generateCommitMessage e (lit "gsk_1")) Scenario.w0) = [].
Proof.
  cbv zeta.
  assert (Hne : lit "gsk_1" <> []) by discriminate.
  split; [exact Hne|]. split; [reflexivity|].
  exact (proj1 (proj2 (panel_is_told_nothing_without_repository
                         Cases.env_no_repository (lit "gsk_1") Scenario.w0
                         (or_intror Hne) eq_refl))).
Defined.

(** ** Properties of the script of the panel *)

Lemma textarea_value_white (n : nat) (s : jsstring) :
  (length s <= n)%nat ->
  forallb is_white_space (textarea_value s) = forallb is_white_space s.
Proof.
  revert s. induction n as [|n IH]; intros s Hn.
  - destruct s; [reflexivity | simpl in Hn; lia].
  - destruct s as [|c r]; [reflexivity|]. simpl in Hn.
    cbn [textarea_value]. destruct (c =? 13)%N eqn:Hc.
    + apply N.eqb_eq in Hc. subst c.
      destruct r as [|c' r']; [reflexivity|]. simpl in Hn.
      destruct (c' =? 10)%N eqn:Hc'.
      * apply N.eqb_eq in Hc'. subst c'.
        cbn [forallb]. rewrite (IH r') by lia. reflexivity.
      * cbn [forallb]. rewrite (IH (c' :: r')) by (simpl; lia). reflexivity.
    + cbn [forallb]. rewrite (IH r) by lia. reflexivity.
Qed.

Lemma blank_textarea_value (s : jsstring) :
  blank (textarea_value s) = blank s.
Proof.
  pose proof (textarea_value_white (length s) s (le_n _)) as H.
  pose proof (blank_spec (textarea_value s)) as H1.
  pose proof (blank_spec s) as H2.
  destruct (blank (textarea_value s)), (blank s); try reflexivity.
  - rewrite <- H in H2. destruct H1 as [H1 _]. destruct H2 as [_ H2].
    symmetry. apply H2, H1. reflexivity.
  - rewrite <- H in H2. destruct H1 as [_ H1]. destruct H2 as [H2 _].
    apply H1, H2. reflexivity.
Qed.

Lemma textarea_value_no_cr (n : nat) (s : jsstring) :
  (length s <= n)%nat ->
  forallb (fun c => negb (c =? 13)%N) (textarea_value s) = true.
Proof.
  revert s. induction n as [|n IH]; intros s Hn.
  - destruct s; [reflexivity | simpl in Hn; lia].
  - destruct s as [|c r]; [reflexivity|]. simpl in Hn.
    cbn [textarea_value]. destruct (c =? 13)%N eqn:Hc.
    + destruct r as [|c' r']; [reflexivity|]. simpl in Hn.
      destruct (c' =? 10)%N.
      * cbn [forallb]. rewrite (IH r') by lia. reflexivity.
      * cbn [forallb]. rewrite (IH (c' :: r')) by (simpl; lia). reflexivity.
    + cbn [forallb]. rewrite Hc, (IH r) by lia. reflexivity.
Qed.

Lemma textarea_value_fixed (s : jsstring) :
  forallb (fun c => negb (c =? 13)%N) s = true -> textarea_value s = s.
Proof.
  induction s as [|c r IH]; [reflexivity|]. cbn [forallb textarea_value].
  intros [Hc Hr]%andb_true_iff. apply negb_true_iff in Hc. rewrite Hc.
  by rewrite IH.
Qed.

Lemma textarea_value_idem (s : jsstring) :
  textarea_value (textarea_value s) = textarea_value s.
Proof. apply textarea_value_fixed, (textarea_value_no_cr (length s)), le_n. Qed.

(** Unfolding of the page setters and of the record projections, leaving
    the strings alone. *)
Ltac page :=
  cbn [fst snd apiKeyInput resultInput generateBtn_disabled
       commitBtn_disabled loader_shown apiKeyContainer_hidden persisted
       set_apiKeyInput set_resultInput set_generateBtn_disabled
       set_commitBtn_disabled set_loader_shown hide_apiKeyContainer
       setState_apiKey setState_result onMessage onApiKeyInput onResultInput
       onCommitClick blank_page st_apiKey st_result].

Lemma need_key_notice :
  textarea_value MSG_NEED_KEY = MSG_NEED_KEY /\ blank MSG_NEED_KEY = false.
Proof. split; vm_compute; reflexivity. Qed.

Lemma load_committable (ov : bool) (previous : option Persisted) :
  committable (load ov previous).
Proof.
  unfold committable, load. destruct previous as [ps|].
  - destruct (truthy_ostr (st_result ps)).
    + page. by intros ->.
    + destruct (truthy_ostr (st_apiKey ps)), ov; page; discriminate.
  - destruct ov; page; discriminate.
Qed.

Lemma step_committable (ov : bool) (p : Page) (ev : page_event) :
  committable p -> no_blank_result ev ->
  committable (step ov p ev).1
  /\ forall m, UiCommit m ∈ (step ov p ev).2 -> blank m = false.
Proof.
  unfold committable. intros Hp Hev.
  destruct ev as [typed|typed| | |[|value|value|]]; cbn [step].
  - split; [exact Hp|]. by intros m ?%elem_of_nil.
  - split; [|by intros m ?%elem_of_nil]. page. by intros ->.
  - destruct (generateBtn_disabled p);
      [split; [exact Hp | by intros m ?%elem_of_nil]|].
    unfold onGenerateClick.
    destruct (negb (truthy_str (apiKeyInput p)) && negb ov).
    + split; [|by intros m ?%elem_of_nil]. page. intros _.
      destruct need_key_notice as [-> ->]. reflexivity.
    + split; [page; discriminate|].
      intros m Hin. apply list_elem_of_singleton in Hin. discriminate.
  - destruct (commitBtn_disabled p) eqn:Hd.
    + split; [page; intros H; congruence | by intros m ?%elem_of_nil].
    + unfold onCommitClick. page.
      split; [intros _; by apply Hp|]. intros m Hin.
      apply list_elem_of_singleton in Hin. injection Hin as ->. by apply Hp.
  - split; [exact Hp|]. by intros m ?%elem_of_nil.
  - split; [|by intros m ?%elem_of_nil]. page. intros _.
    rewrite blank_textarea_value. exact Hev.
  - split; [page; discriminate | by intros m ?%elem_of_nil].
  - split; [page; discriminate | by intros m ?%elem_of_nil].
Qed.

Lemma run_page_committable (ov : bool) (p : Page) (evs : list page_event) :
  committable p -> Forall no_blank_result evs ->
  committable (run_page ov p evs).1
  /\ forall m, UiCommit m ∈ (run_page ov p evs).2 -> blank m = false.
Proof.
  revert p. induction evs as [|ev rest IH]; intros p Hp Hevs.
  - split; [exact Hp | by intros m ?%elem_of_nil].
  - apply Forall_cons in Hevs as [Hev Hrest].
    destruct (step_committable ov p ev Hp Hev) as [Hp' Hout].
    destruct (IH _ Hp' Hrest) as [Hp'' Hout'].
    cbn [run_page]. cbv zeta. split; [exact Hp''|].
    intros m Hin. cbn [snd] in Hin.
    apply elem_of_app in Hin as [Hin|Hin]; [by apply Hout | by apply Hout'].
Qed.

(** Whatever the user does and whatever arrives, as long as no blank
    result arrives (the provider never posts one), the commit button of
    the page is enabled only while the textarea holds a text that is not
    blank, and every commit message the page posts is not blank. This
    holds from the moment the page loads, with or without a restored
    draft. *)
Theorem commit_button_needs_text
    (ov : bool) (previous : option Persisted) (evs : list page_event) :
  Forall no_blank_result evs ->
  committable (run_page ov (load ov previous) evs).1
  /\ forall m, UiCommit m ∈ (run_page ov (load ov previous) evs).2 ->
               blank m = false.
Proof. apply run_page_committable, load_committable. Qed.

Lemma commit_button_needs_text_witness :
  let evs := [TypeApiKey (lit "gsk_1"); ClickGenerate;
              Receive MsgLoading; Receive (MsgResult (lit "feat: add x"));
              TypeResult (lit "feat: add x!"); ClickCommit;
              Receive MsgSuccess; ClickCommit] in
  Forall no_blank_result evs
  /\ (run_page false (load false None) evs).2
     = [UiGenerate (lit "gsk_1"); UiCommit (lit "feat: add x!")]
  /\ blank (lit "feat: add x!") = false.
Proof.
  cbv zeta.
  assert (Hev : Forall no_blank_result
                  [TypeApiKey (lit "gsk_1"); ClickGenerate;
                   Receive MsgLoading; Receive (MsgResult (lit "feat: add x"));
                   TypeResult (lit "feat: add x!"); ClickCommit;
                   Receive MsgSuccess; ClickCommit])
    by (repeat constructor).
  split; [exact Hev|]. split; [reflexivity|].
  apply (proj2 (commit_button_needs_text false None _ Hev)).
  apply list_elem_of_In. vm_compute. right. by left.
Defined.

(** The notice shown for a missing key is written into the textarea
    without touching the commit button: when the button is enabled (a
    message is in the textarea), the key field is empty and no override
    is active, a click on generate replaces the message by
    "Please enter an API Key first." and posts nothing, and a click on
    commit then posts that notice as the commit message. *)
Theorem key_notice_can_be_committed (p : Page) :
  generateBtn_disabled p = false -> commitBtn_disabled p = false ->
  apiKeyInput p = [] ->
  run_page false p [ClickGenerate; ClickCommit]
  = (set_resultInput MSG_NEED_KEY p, [UiCommit MSG_NEED_KEY]).
Proof.
  intros Hg Hc Hk. cbn [run_page step]. rewrite Hg. unfold onGenerateClick.
  rewrite Hk. cbn [truthy_str negb andb fst snd]. cbn [step].
  assert (Hd : commitBtn_disabled (set_resultInput MSG_NEED_KEY p) = false)
    by exact Hc.
  rewrite Hd. reflexivity.
Qed.

Lemma key_notice_can_be_committed_witness :
  let p := load false Cases.draft_only in
  generateBtn_disabled p = false
  /\ commitBtn_disabled p = false
  /\ apiKeyInput p = []
  /\ resultInput p = lit "feat: add x"
  /\ (run_page false p [ClickGenerate; ClickCommit]).2
     = [UiCommit (lit "Please enter an API Key first.")].
Proof.
  cbv zeta. do 4 (split; [reflexivity|]).
  exact (f_equal snd (key_notice_can_be_committed
                        (load false Cases.draft_only)
                        eq_refl eq_refl eq_refl)).
Defined.

Lemma load_result (ov : bool) (ps : Persisted) :
  truthy_ostr (st_result ps) = true ->
  resultInput (load ov (Some ps)) = textarea_value (the_string (st_result ps))
  /\ commitBtn_disabled (load ov (Some ps))
     = blank (the_string (st_result ps)).
Proof.
  intros Ht. unfold load. rewrite Ht. cbn.
  split; [reflexivity | apply blank_textarea_value].
Qed.

Lemma load_no_result (ov : bool) (previous : option Persisted) :
  truthy_ostr (previous ≫= st_result) = false ->
  resultInput (load ov previous) = []
  /\ commitBtn_disabled (load ov previous) = true.
Proof.
  unfold load. destruct previous as [ps|]; cbn [mbind option_bind].
  - intros ->. by destruct (truthy_ostr (st_apiKey ps)), ov.
  - intros _. by destruct ov.
Qed.

(** The draft survives a reload of the view: after a result arrives, or
    after the user edits the textarea, a page loaded from the state kept
    by the host shows the same text, with the commit button enabled
    exactly when the text is not blank. After a successful commit the
    kept draft is empty, so a reloaded page shows an empty textarea with
    the commit button disabled. An error and a click on generate do not
    touch the kept state. *)
Theorem draft_survives_reload (ov : bool) (p : Page) (v : jsstring) :
  (v <> [] ->
     let p' := (step ov p (Receive (MsgResult v))).1 in
     resultInput (load ov (persisted p')) = resultInput p'
     /\ commitBtn_disabled (load ov (persisted p')) = blank v)
  /\ (textarea_value v <> [] ->
        let p' := (step ov p (TypeResult v)).1 in
        resultInput (load ov (persisted p')) = resultInput p'
        /\ commitBtn_disabled (load ov (persisted p')) = commitBtn_disabled p')
  /\ (let p' := (step ov p (Receive MsgSuccess)).1 in
      resultInput (load ov (persisted p')) = []
      /\ commitBtn_disabled (load ov (persisted p')) = true)
  /\ persisted (step ov p (Receive (MsgError v))).1 = persisted p
  /\ persisted (step ov p ClickGenerate).1 = persisted p.
Proof.
  split; [|split; [|split; [|split]]].
  - intros Hne. cbv zeta. cbn [step fst onMessage].
    assert (Ht : truthy_ostr (Some v) = true) by (by destruct v).
    destruct (load_result ov
                {| st_apiKey := st_apiKey (getState_or_empty
                     (set_commitBtn_disabled false
                        (set_resultInput v
                           (set_loader_shown false
                              (set_generateBtn_disabled false p)))));
                   st_result := Some v |} Ht) as [H1 H2].
    split; [exact H1 | exact H2].
  - intros Hne. cbv zeta. cbn [step fst]. unfold onResultInput.
    assert (Ht : truthy_ostr (Some (textarea_value v)) = true)
      by (by destruct (textarea_value v)).
    destruct (load_result ov
                {| st_apiKey := st_apiKey (getState_or_empty
                     (set_commitBtn_disabled
                        (blank (resultInput (set_resultInput v p)))
                        (set_resultInput v p)));
                   st_result := Some (textarea_value v) |} Ht) as [H1 H2].
    split.
    + etransitivity; [exact H1|]. apply textarea_value_idem.
    + exact H2.
  - cbv zeta. cbn [step fst onMessage]. by apply load_no_result.
  - reflexivity.
  - cbn [step]. destruct (generateBtn_disabled p); [reflexivity|].
    unfold onGenerateClick.
    by destruct (negb (truthy_str (apiKeyInput p)) && negb ov).
Qed.

Lemma draft_survives_reload_witness :
  let v := (lit "feat: add x" ++ [13; 10]%N ++ lit "body") in
  let p' := (step false (load false None) (Receive (MsgResult v))).1 in
  v <> []
  /\ resultInput p' = lit "feat: add x" ++ [10]%N ++ lit "body"
  /\ resultInput (load false (persisted p')) = resultInput p'
  /\ commitBtn_disabled (load false (persisted p')) = false.
Proof.
  cbv zeta.
  assert (Hne : lit "feat: add x" ++ [13; 10]%N ++ lit "body" <> [])
    by discriminate.
  split; [exact Hne|]. split; [reflexivity|].
  exact (proj1 (draft_survives_reload false (load false None)
                  (lit "feat: add x" ++ [13; 10]%N ++ lit "body")) Hne).
Defined.

Lemma step_pending (ov : bool) (p : Page) (ev : page_event) :
  generateBtn_disabled p = true -> not_final ev ->
  generateBtn_disabled (step ov p ev).1 = true
  /\ forall k, UiGenerate k ∉ (step ov p ev).2.
Proof.
  intros Hg Hev. destruct ev as [typed|typed| | |[|value|value|]];
    cbn [step]; try (destruct Hev; fail).
  - split; [exact Hg | by intros k ?%elem_of_nil].
  - split; [exact Hg | by intros k ?%elem_of_nil].
  - rewrite Hg. split; [exact Hg | by intros k ?%elem_of_nil].
  - destruct (commitBtn_disabled p);
      [split; [exact Hg | by intros k ?%elem_of_nil]|].
    split; [exact Hg|]. intros k Hin.
    apply list_elem_of_singleton in Hin. discriminate.
  - split; [exact Hg | by intros k ?%elem_of_nil].
  - split; [exact Hg | by intros k ?%elem_of_nil].
Qed.

Lemma run_page_pending
    (ov : bool) (p : Page) (evs : list page_event) :
  generateBtn_disabled p = true -> Forall not_final evs ->
  generateBtn_disabled (run_page ov p evs).1 = true
  /\ forall k, UiGenerate k ∉ (run_page ov p evs).2.
Proof.
  revert p. induction evs as [|ev rest IH]; intros p Hg Hevs.
  - split; [exact Hg | by intros k ?%elem_of_nil].
  - apply Forall_cons in Hevs as [Hev Hrest].
    destruct (step_pending ov p ev Hg Hev) as [Hg' Hout].
    destruct (IH _ Hg' Hrest) as [Hg'' Hout'].
    cbn [run_page]. cbv zeta. split; [exact Hg''|].
    intros k Hin. cbn [snd] in Hin.
    apply elem_of_app in Hin as [Hin|Hin]; [by apply (Hout k) | by apply (Hout' k)].
Qed.

(** While a generation is pending the page posts no second request: once
    the generate button is disabled, no sequence of edits and clicks, nor
    a "loading" or "success" message, enables it again or makes the page
    post another generate message. Only a result or an error does. *)
Theorem no_second_request_while_pending
    (ov : bool) (p : Page) (evs : list page_event) :
  generateBtn_disabled p = true -> Forall not_final evs ->
  generateBtn_disabled (run_page ov p evs).1 = true
  /\ forall k, UiGenerate k ∉ (run_page ov p evs).2.
Proof. exact (run_page_pending ov p evs). Qed.

Lemma no_second_request_while_pending_witness :
  let p := (step false (set_apiKeyInput (lit "gsk_1") (load false None))
              ClickGenerate).1 in
  let evs := [ClickGenerate; Receive MsgLoading; TypeApiKey (lit "gsk_2");
              ClickGenerate; TypeResult (lit "x"); ClickCommit;
              ClickGenerate] in
  generateBtn_disabled p = true
  /\ Forall not_final evs
  /\ generateBtn_disabled (run_page false p evs).1 = true
  /\ (run_page false p evs).2 = [UiCommit (lit "x")].
Proof.
  cbv zeta.
  assert (Hev : Forall not_final
                  [ClickGenerate; Receive MsgLoading; TypeApiKey (lit "gsk_2");
                   ClickGenerate; TypeResult (lit "x"); ClickCommit;
                   ClickGenerate])
    by (repeat constructor).
  split; [reflexivity|]. split; [exact Hev|].
  split; [|reflexivity].
  exact (proj1 (no_second_request_while_pending false
                  (step false (set_apiKeyInput (lit "gsk_1") (load false None))
                     ClickGenerate).1 _ eq_refl Hev)).
Defined.

(** *** A click on generate, end to end *)

Lemma panel_final (e : Env) (apiKey : jsstring) (w : World)
    (repo : Repository) :
  env_view e = true -> eval (getRepo e) w = Some repo ->
  exists m : webview_message,
    terminal m = true /\ no_blank_result (Receive m)
    /\ (posts (calls (generateCommitMessage e apiKey) w) = [m]
        \/ posts (calls (generateCommitMessage e apiKey) w) = [MsgLoading; m]).
Proof.
  intros Hv Hr. rewrite (panel_posts e apiKey w Hv), Hr.
  destruct (isOverrideActive e || truthy_str apiKey);
    [|exists (MsgError MSG_ENTER_KEY); split; [reflexivity|];
      split; [exact I | by left]].
  destruct (has_changes repo);
    [|exists (MsgError MSG_NO_CHANGES); split; [reflexivity|];
      split; [exact I | by left]].
  destruct (aggregateOf repo) as [ex|d];
    [exists (MsgError MSG_DIFF_READ); split; [reflexivity|];
     split; [exact I | by right]|].
  destruct (blank d);
    [exists (MsgError MSG_EMPTY_DIFF); split; [reflexivity|];
     split; [exact I | by right]|].
  destruct (remote_result e (the_string (finalApiKey e apiKey)) d)
    as [ex|text] eqn:Hres;
    [eexists (MsgError _); split; [reflexivity|];
     split; [exact I | by right]|].
  exists (MsgResult text). split; [reflexivity|]. split; [|by right].
  cbn [no_blank_result]. destruct (remote_result_good _ _ _ _ Hres) as [Hne Ht].
  unfold blank. rewrite Ht. by destruct text.
Qed.

Lemma valid_click (ov : bool) (p : Page) :
  generateBtn_disabled p = false -> ov = true \/ apiKeyInput p <> [] ->
  step ov p ClickGenerate
  = (set_commitBtn_disabled true
       (set_resultInput []
          (set_loader_shown true (set_generateBtn_disabled true p))),
     [UiGenerate (apiKeyInput p)]).
Proof.
  intros Hg Hk. cbn [step]. rewrite Hg. unfold onGenerateClick.
  assert (Hc : negb (truthy_str (apiKeyInput p)) && negb ov = false).
  { destruct Hk as [-> | Hne]; [apply andb_false_r|].
    by destruct (apiKeyInput p). }
  by rewrite Hc.
Qed.

(** With the view resolved and a repository at hand, a click on generate
    always comes to an end: once the provider has handled the request
    and the page has received what it posted, the generate button is
    enabled again and the loader is hidden, whether the generation
    succeeded or failed; and the commit button is enabled only over a
    text that is not blank. *)
Theorem generate_round_ends
    (ov : bool) (e : Env) (p : Page) (w : World) (repo : Repository) :
  env_view e = true -> eval (getRepo e) w = Some repo ->
  generateBtn_disabled p = false -> ov = true \/ apiKeyInput p <> [] ->
  let p' := (generateRound ov e p w).1 in
  generateBtn_disabled p' = false /\ loader_shown p' = false
  /\ committable p' /\ apiKeyInput p' = apiKeyInput p.
Proof.
  intros Hv Hr Hg Hk. cbv zeta. unfold generateRound. cbv zeta.
  rewrite (valid_click ov p Hg Hk). cbn [fst snd onDidReceiveMessage].
  destruct (panel_final e (apiKeyInput p) w repo Hv Hr)
    as (m & Hm & Hnb & [-> | ->]);
    destruct m as [|text|text|]; try discriminate Hm;
    cbn [fmap list_fmap run_page step fst snd onMessage];
    (split; [reflexivity|]); (split; [reflexivity|]);
    (split; [|reflexivity]); unfold committable; cbn;
    try discriminate; intros _; rewrite blank_textarea_value; exact Hnb.
Qed.

Lemma generate_round_ends_witness :
  let e := Scenario.env_of Scenario.repoStaged Scenario.okResponse in
  let p := set_apiKeyInput (lit "gsk_1") (load false None) in
  let p' := (generateRound false e p Scenario.w0).1 in
  env_view e = true
  /\ eval (getRepo e) Scenario.w0 = Some Scenario.repoStaged
  /\ generateBtn_disabled p = false
  /\ apiKeyInput p <> []
  /\ resultInput p' = lit "feat: add x"
  /\ commitBtn_disabled p' = false
  /\ generateBtn_disabled p' = false /\ loader_shown p' = false.
Proof.
  cbv zeta.
  assert (Hne : apiKeyInput (set_apiKeyInput (lit "gsk_1") (load false None))
                <> []) by discriminate.
  split; [reflexivity|]. split; [reflexivity|]. split; [reflexivity|].
  split; [exact Hne|]. split; [reflexivity|]. split; [reflexivity|].
  pose proof (generate_round_ends false
                (Scenario.env_of Scenario.repoStaged Scenario.okResponse)
                (set_apiKeyInput (lit "gsk_1") (load false None))
                Scenario.w0 Scenario.repoStaged
                eq_refl eq_refl eq_refl (or_intror Hne)) as (H1 & H2 & _).
  split; [exact H1 | exact H2].
Defined.

(** Without a repository a click on generate never comes to an end: the
    provider posts nothing, so the page is left with the generate button
    disabled, the loader showing and the textarea emptied, and from there
    no edit or click makes it post a generate request again. *)
Theorem generate_round_hangs_without_repository
    (ov : bool) (e : Env) (p : Page) (w : World) :
  eval (getRepo e) w = None ->
  generateBtn_disabled p = false -> ov = true \/ apiKeyInput p <> [] ->
  isOverrideActive e = true \/ apiKeyInput p <> [] ->
  let p' := (generateRound ov e p w).1 in
  generateBtn_disabled p' = true /\ loader_shown p' = true
  /\ resultInput p' = [] /\ commitBtn_disabled p' = true
  /\ forall evs : list page_event,
       Forall not_final evs ->
       forall k, UiGenerate k ∉ (run_page ov p' evs).2.
Proof.
  intros Hr Hg Hk Hkey. cbv zeta. unfold generateRound. cbv zeta.
  rewrite (valid_click ov p Hg Hk). cbn [fst snd onDidReceiveMessage].
  assert (Ht : truthy_ostr (finalApiKey e (apiKeyInput p)) = true).
  { rewrite finalApiKey_truthy. destruct Hkey as [-> | Hne]; [reflexivity|].
    destruct (apiKeyInput p); [done|]. apply orb_true_r. }
  assert (Hp : posts (calls (generateCommitMessage e (apiKeyInput p)) w) = []).
  { unfold generateCommitMessage. cbv zeta. fold (finalApiKey e (apiKeyInput p)).
    rewrite Ht. cbn [negb]. rewrite calls_bind, Hr, app_nil_r.
    apply posts_getRepo. }
  rewrite Hp. cbn [fmap list_fmap run_page fst].
  do 4 (split; [reflexivity|]).
  intros evs Hevs. by apply run_page_pending.
Qed.

Lemma generate_round_hangs_without_repository_witness :
  let e := Cases.env_no_repository in
  let p := set_apiKeyInput (lit "gsk_1") (load false None) in
  let p' := (generateRound false e p Scenario.w0).1 in
  eval (getRepo e) Scenario.w0 = None
  /\ generateBtn_disabled p = false
  /\ apiKeyInput p <> []
  /\ generateBtn_disabled p' = true /\ loader_shown p' = true.
Proof.
  cbv zeta.
  assert (Hne : apiKeyInput (set_apiKeyInput (lit "gsk_1") (load false None))
                <> []) by discriminate.
  split; [reflexivity|]. split; [reflexivity|]. split; [exact Hne|].
  pose proof (generate_round_hangs_without_repository false
                Cases.env_no_repository
                (set_apiKeyInput (lit "gsk_1") (load false None))
                Scenario.w0 eq_refl eq_refl (or_intror Hne) (or_intror Hne))
    as (H1 & H2 & _).
  split; [exact H1 | exact H2].
Defined.

(** *** The diff loop and the commit step *)

Lemma attempted_until_failure (diff : jsstring -> result jsstring)
    (changes : list Change) (n : nat) (c : Change) (ex : js_exn)
    (acc : jsstring) :
  changes !! n = Some c -> diff (fsPath c) = inl ex ->
  (forall i c', (i < n)%nat -> changes !! i = Some c' ->
                exists d, diff (fsPath c') = inr d) ->
  attempted diff changes = fsPath <$> take (S n) changes
  /\ aggregate diff changes acc = inl ex.
Proof.
  revert n acc. induction changes as [|c0 rest IH]; intros n acc Hn Hc Hbefore;
    [discriminate|].
  destruct n as [|n].
  - injection Hn as ->. cbn [attempted aggregate take fmap list_fmap].
    rewrite Hc. by rewrite take_0.
  - destruct (Hbefore 0%nat c0 ltac:(lia) eq_refl) as [d Hd].
    cbn [attempted aggregate]. rewrite Hd.
    destruct (IH n (acc ++ fileSection (fsPath c0) d) Hn Hc) as [Ha Hg].
    { intros i c' Hi Hl. apply (Hbefore (S i) c'); [lia | exact Hl]. }
    rewrite Ha, Hg. split; reflexivity.
Qed.

(** The diff loop stops at the first file whose diff cannot be read: the
    files before it are read in order, it is asked for, no file after it
    is touched, and the loop leaves with the failure of that file. *)
Theorem diff_loop_stops_at_first_failure
    (repo : Repository) (isStaged : bool) (changes : list Change)
    (n : nat) (c : Change) (ex : js_exn) (w : World) :
  changes !! n = Some c -> diffOf repo isStaged (fsPath c) = inl ex ->
  (forall i c', (i < n)%nat -> changes !! i = Some c' ->
                exists d, diffOf repo isStaged (fsPath c') = inr d) ->
  calls (collectDiffs repo isStaged changes []) w
  = (fun c' => diffEvent isStaged (fsPath c')) <$> take (S n) changes
  /\ eval (collectDiffs repo isStaged changes []) w = inl ex.
Proof.
  intros Hn Hc Hbefore.
  rewrite collectDiffs_calls, collectDiffs_eval.
  destruct (attempted_until_failure _ _ _ _ _ [] Hn Hc Hbefore) as [-> ->].
  split; [by rewrite <- list_fmap_compose | reflexivity].
Qed.

Lemma diff_loop_stops_at_first_failure_witness :
  let repo := Cases.repoSecondFails in
  workingTreeChanges repo !! 1%nat = Some (Scenario.change "b.ts")
  /\ diffOf repo false (fsPath (Scenario.change "b.ts"))
     = inl (Thrown KRejection (Some (lit "git failed")))
  /\ calls (collectDiffs repo false (workingTreeChanges repo) []) Scenario.w0
     = [EvDiffWithHEAD (lit "a.ts"); EvDiffWithHEAD (lit "b.ts")].
Proof.
  cbv zeta. split; [reflexivity|]. split; [reflexivity|].
  refine (proj1 (diff_loop_stops_at_first_failure Cases.repoSecondFails false
                   (workingTreeChanges Cases.repoSecondFails) 1
                   (Scenario.change "b.ts") _ Scenario.w0 eq_refl eq_refl _)).
  intros i c' Hi Hl. destruct i as [|i]; [|lia].
  injection Hl as <-. by eexists.
Defined.

Lemma commitChanges_posts (e : Env) (message : jsstring) (w : World)
    (repo : Repository) :
  env_view e = true -> eval (getRepo e) w = Some repo ->
  blank message = false ->
  calls (commitChanges e message) w
  = calls (getRepo e) w
    ++ (if (length (indexChanges repo) =? 0)%nat
        then [EvShowErrorMessage MSG_NOTHING_STAGED]
        else EvCommit (trim message)
             :: match commit repo (trim message) with
                | inr _ => [EvShowInformationMessage MSG_COMMITTED;
                            EvPostMessage MsgSuccess]
                | inl ex => [EvShowErrorMessage
                               (MSG_COMMIT_PREFIX ++ message_of ex)]
                end).
Proof.
  intros Hv Hr Hb. unfold commitChanges. rewrite commit_guard, Hb.
  rewrite calls_bind, Hr, getRepo_exec. f_equal.
  destruct (indexChanges repo) as [|c rest]; [reflexivity|].
  cbn [length Nat.eqb]. rewrite calls_bind, calls_emit, exec_emit.
  cbn [app]. f_equal.
  destruct (commit repo (trim message)); [reflexivity|].
  rewrite calls_bind, calls_emit, exec_emit. unfold postMessage.
  by rewrite Hv.
Qed.

(** A click on commit, end to end, with the view resolved, a repository
    at hand and a text that is not blank in the textarea. When something
    is staged and the commit goes through, the provider commits the
    trimmed text, and the page empties the textarea, disables the commit
    button and empties the kept draft. When nothing is staged or the
    commit is rejected, the provider tells the page nothing and the page
    is left exactly as it was, draft included. *)
Theorem commit_round_outcome
    (ov : bool) (e : Env) (p : Page) (w : World) (repo : Repository) :
  env_view e = true -> eval (getRepo e) w = Some repo ->
  commitBtn_disabled p = false -> blank (resultInput p) = false ->
  (indexChanges repo <> [] ->
   commit repo (trim (resultInput p)) = inr tt ->
   let r := commitRound ov e p w in
   EvCommit (trim (resultInput p)) ∈ r.2
   /\ resultInput r.1 = [] /\ commitBtn_disabled r.1 = true
   /\ (persisted r.1 ≫= st_result) = Some [])
  /\ (indexChanges repo = []
      \/ (exists ex, commit repo (trim (resultInput p)) = inl ex) ->
      (commitRound ov e p w).1 = p
      /\ (indexChanges repo = [] ->
          commit_calls (commitRound ov e p w).2 = [])).
Proof.
  intros Hv Hr Hd Hb.
  assert (Hclick : step ov p ClickCommit = (p, [UiCommit (resultInput p)])).
  { cbn [step]. by rewrite Hd. }
  pose proof (commitChanges_posts e (resultInput p) w repo Hv Hr Hb) as Hc.
  split.
  - intros Hne Hok. cbv zeta. unfold commitRound. cbv zeta.
    rewrite Hclick. cbn [fst snd onDidReceiveMessage]. rewrite Hc.
    destruct (indexChanges repo) as [|c rest]; [done|].
    cbn [length Nat.eqb]. rewrite Hok.
    split; [rewrite elem_of_app; right; left|].
    rewrite posts_app, posts_getRepo. cbn. by repeat split.
  - intros Hfail. unfold commitRound. cbv zeta.
    rewrite Hclick. cbn [fst snd onDidReceiveMessage]. rewrite Hc.
    rewrite posts_app, posts_getRepo.
    destruct Hfail as [Hi | [ex Hex]].
    + rewrite Hi. cbn [length Nat.eqb app posts omap fmap list_fmap run_page fst].
      split; [reflexivity|]. intros _.
      unfold commit_calls. rewrite List.filter_app.
      fold (commit_calls (calls (getRepo e) w)). by rewrite getRepo_commit.
    + split.
      * destruct (indexChanges repo) as [|c rest]; [reflexivity|].
        cbn [length Nat.eqb]. by rewrite Hex.
      * intros Hi. rewrite Hi. cbn [length Nat.eqb].
        unfold commit_calls. rewrite List.filter_app.
        fold (commit_calls (calls (getRepo e) w)). by rewrite getRepo_commit.
Qed.

Lemma commit_round_outcome_witness :
  let e := Scenario.env_of Scenario.repoStaged Scenario.okResponse in
  let e' := Scenario.env_of Cases.repoCommitFails Scenario.okResponse in
  let p := load false Cases.draft_only in
  env_view e = true
  /\ eval (getRepo e) Scenario.w0 = Some Scenario.repoStaged
  /\ commitBtn_disabled p = false
  /\ blank (resultInput p) = false
  /\ indexChanges Scenario.repoStaged <> []
  /\ commit Scenario.repoStaged (trim (resultInput p)) = inr tt
  /\ resultInput (commitRound false e p Scenario.w0).1 = []
  /\ commit Cases.repoCommitFails (trim (resultInput p))
     = inl (Thrown KError (Some (lit "hook failed")))
  /\ (commitRound false e' p Scenario.w0).1 = p.
Proof.
  cbv zeta.
  assert (Hne : indexChanges Scenario.repoStaged <> []) by discriminate.
  do 4 (split; [reflexivity|]). split; [exact Hne|]. split; [reflexivity|].
  split.
  - exact (proj1 (proj2 (proj1 (commit_round_outcome false
             (Scenario.env_of Scenario.repoStaged Scenario.okResponse)
             (load false Cases.draft_only) Scenario.w0 Scenario.repoStaged
             eq_refl eq_refl eq_refl eq_refl) Hne eq_refl))).
  - split; [reflexivity|].
    exact (proj1 (proj2 (commit_round_outcome false
             (Scenario.env_of Cases.repoCommitFails Scenario.okResponse)
             (load false Cases.draft_only) Scenario.w0 Cases.repoCommitFails
             eq_refl eq_refl eq_refl eq_refl)
             (or_intror (ex_intro _ _ eq_refl)))).
Defined.

(** *** The override flag of the page *)

Lemma load_override_key (previous : option Persisted) :
  truthy_ostr (previous ≫= st_apiKey) = false ->
  apiKeyInput (load true previous) = OVERRIDE_PLACEHOLDER
  /\ generateBtn_disabled (load true previous) = false
  /\ apiKeyContainer_hidden (load true previous) = true.
Proof.
  unfold load. destruct previous as [ps|]; cbn [mbind option_bind].
  - intros ->. by destruct (truthy_ostr (st_result ps)).
  - by intros _.
Qed.

(** The page learns whether the override is active when its HTML is
    produced, the provider reads the override when it is called. A page
    produced while the override was active sends the placeholder
    "__OVERRIDE__" as its key; if the override is gone by the time the
    user clicks on generate, the provider takes that placeholder for the
    key and the request carries "Bearer __OVERRIDE__". *)
Theorem placeholder_is_sent_when_override_is_gone
    (previous : option Persisted) (e : Env) (w : World) :
  truthy_ostr (previous ≫= st_apiKey) = false ->
  isOverrideActive e = false ->
  step true (load true previous) ClickGenerate
  = (set_commitBtn_disabled true
       (set_resultInput []
          (set_loader_shown true
             (set_generateBtn_disabled true (load true previous)))),
     [UiGenerate OVERRIDE_PLACEHOLDER])
  /\ remote_calls
       (calls (onDidReceiveMessage e (UiGenerate OVERRIDE_PLACEHOLDER)) w)
     = sent_with OVERRIDE_PLACEHOLDER e w.
Proof.
  intros Hp Ho. destruct (load_override_key previous Hp) as (Hk & Hg & _).
  split.
  - rewrite (valid_click true _ Hg (or_introl eq_refl)). by rewrite Hk.
  - cbn [onDidReceiveMessage]. rewrite panel_remote.
    assert (Hf : finalApiKey e OVERRIDE_PLACEHOLDER = Some OVERRIDE_PLACEHOLDER).
    { unfold finalApiKey, preferOverride. fold (isOverrideActive e).
      by rewrite Ho. }
    rewrite Hf. reflexivity.
Qed.

Lemma placeholder_is_sent_when_override_is_gone_witness :
  let e := Scenario.env_of Scenario.repoStaged Scenario.okResponse in
  truthy_ostr (None ≫= st_apiKey) = false
  /\ isOverrideActive e = false
  /\ (step true (load true None) ClickGenerate).2
     = [UiGenerate (lit "__OVERRIDE__")]
  /\ remote_calls
       (calls (onDidReceiveMessage e (UiGenerate (lit "__OVERRIDE__")))
          Scenario.w0)
     = [EvFetch (request (lit "__OVERRIDE__")
                   (fileSection (lit "a.ts") (lit "+x")))].
Proof.
  cbv zeta. split; [reflexivity|]. split; [reflexivity|].
  pose proof (placeholder_is_sent_when_override_is_gone None
                (Scenario.env_of Scenario.repoStaged Scenario.okResponse)
                Scenario.w0 eq_refl eq_refl) as [H1 H2].
  split; [exact (f_equal snd H1) | exact H2].
Defined.
